(** * Survey dashboard pipeline (app.py): normalisation, filtering, aggregation

    A shallow embedding of the data pipeline of [app.py]:
    [clean_string_series], [load_data], [apply_filters], the aggregation
    behind [single_select_chart] / [multivalue_chart], and the two summary
    functions [summarize_category] / [summarize_multivalue].

    The pandas operations the source chains together are modelled once, in
    the first part of the file, on the following data:

    - a Python [str] is its list of Unicode code points ([pystr]);
    - a cell is a Python [str], a Python [int], the float [nan] that
      [read_excel] leaves in a blank cell, or [pd.NA] ([scalar]); floats other
      than [nan] are outside the model;
    - a [Series] is its dtype (object or numeric) and its values;
    - a [DataFrame] is its row index and its labelled columns, in order;
    - an exception is a value of [exn]; a call that may raise returns a
      [result].

    pandas is read as the 2.x line the source is written for: a column
    holding text has dtype object, and [astype(str)] stringifies missing
    values too (the source's own replacement of ["nan"] relies on it).
    [value_counts] sorts with a sort that is not stable: the order in which
    it leaves entries of equal count is the parameter [tie_rank] of the
    section [Ties], and what is proved inside holds for each such order.

    The file has two parts: the definitions (Python strings, pandas,
    app.py, the notions the statements use, example data), then the facts
    proved about them, the numbered properties C1-C10 and X1-X23 among
    these; the facts about the counts at example columns come after the
    section. *)

From Stdlib Require Import Ascii String.
From Stdlib Require Import ZArith NArith Bool Lia List Permutation Sorted.
Import ListNotations.

(* ===================================================================== *)
(** ** Python strings *)
(* ===================================================================== *)

(** A Python [str]: the sequence of its code points. *)
Definition pystr := list N.

(** A literal written in ASCII. *)
Definition py (s : string) : pystr := map N_of_ascii (list_ascii_of_string s).
Arguments py s%_string.

Fixpoint pystr_eqb (a b : pystr) : bool :=
  match a, b with
  | [], [] => true
  | x :: a', y :: b' => N.eqb x y && pystr_eqb a' b'
  | _, _ => false
  end.

(** [c.isspace()] for a single code point: the characters [str.strip()]
    removes when called without argument. *)
Definition isspace (c : N) : bool :=
  ((9 <=? c) && (c <=? 13) || (28 <=? c) && (c <=? 32)
   || (c =? 133) || (c =? 160) || (c =? 5760)
   || (8192 <=? c) && (c <=? 8202)
   || (c =? 8232) || (c =? 8233) || (c =? 8239) || (c =? 8287)
   || (c =? 12288))%N.

Fixpoint lstrip (s : pystr) : pystr :=
  match s with
  | [] => []
  | c :: s' => if isspace c then lstrip s' else s
  end.

Definition rstrip (s : pystr) : pystr := rev (lstrip (rev s)).

(** [s.strip()] *)
Definition strip (s : pystr) : pystr := rstrip (lstrip s).

(** [s.replace(old, new)] for patterns of one code point, the only ones
    the source uses (["\n"] and ["\xa0"], both replaced by [" "]). *)
Definition replace_char (old new : N) (s : pystr) : pystr :=
  map (fun c => if N.eqb c old then new else c) s.

(** [s.split(sep)] for a separator of one code point: [k] separators give
    [k + 1] pieces, empty pieces included. *)
Fixpoint split_on (sep : N) (s : pystr) : list pystr :=
  match s with
  | [] => [[]]
  | c :: s' =>
      if N.eqb c sep then [] :: split_on sep s'
      else match split_on sep s' with
           | p :: ps => (c :: p) :: ps
           | [] => [[c]]
           end
  end.

Definition LF : N := 10.        (* "\n" *)
Definition NBSP : N := 160.     (* "\xa0" *)
Definition SPACE : N := 32.     (* " " *)
Definition SEMICOLON : N := 59. (* ";" *)

(** Decimal rendering, as [str(n)] gives it for an [int]. *)
Fixpoint uint_codes (d : Decimal.uint) : pystr :=
  match d with
  | Decimal.Nil => []
  | Decimal.D0 d' => 48%N :: uint_codes d'
  | Decimal.D1 d' => 49%N :: uint_codes d'
  | Decimal.D2 d' => 50%N :: uint_codes d'
  | Decimal.D3 d' => 51%N :: uint_codes d'
  | Decimal.D4 d' => 52%N :: uint_codes d'
  | Decimal.D5 d' => 53%N :: uint_codes d'
  | Decimal.D6 d' => 54%N :: uint_codes d'
  | Decimal.D7 d' => 55%N :: uint_codes d'
  | Decimal.D8 d' => 56%N :: uint_codes d'
  | Decimal.D9 d' => 57%N :: uint_codes d'
  end.

Definition str_of_Z (z : Z) : pystr :=
  match z with
  | Z0 => [48%N]
  | Zpos p => uint_codes (Pos.to_uint p)
  | Zneg p => 45%N :: uint_codes (Pos.to_uint p)
  end.

Definition str_of_nat (n : nat) : pystr := str_of_Z (Z.of_nat n).

(* ===================================================================== *)
(** ** Exceptions *)
(* ===================================================================== *)

(** The exceptions the modelled calls raise. [StopException] is what
    [st.stop()] raises to end the script run. *)
Inductive exn : Type :=
| AttributeError
| KeyError (label : pystr)
| IndexError
| StopException.

(** The outcome of a call: a value, an exception, or [Unmodelled] for
    what this development leaves out: in [apply_filters], indexing a
    DataFrame by a label that several of its columns carry (in [load_data]
    that case is modelled: it raises), and a reference to no frame of the
    store; in [main], facet options that are not all texts, and a summary
    or a chart of such a label. *)
Inductive result (A : Type) : Type :=
| Ok (a : A)
| Raise (e : exn)
| Unmodelled.
Arguments Ok {A} a.
Arguments Raise {A} e.
Arguments Unmodelled {A}.

Definition bind {A B : Type} (r : result A) (k : A -> result B) : result B :=
  match r with
  | Ok a => k a
  | Raise e => Raise e
  | Unmodelled => Unmodelled
  end.

Notation "x <- c ;; k" := (bind c (fun x => k))
  (at level 61, c at next level, right associativity).

(* ===================================================================== *)
(** ** pandas: scalars and Series *)
(* ===================================================================== *)

Inductive scalar : Type :=
| Str (s : pystr)   (* a Python str *)
| Int (n : Z)       (* a Python int *)
| NaN               (* float("nan"): a blank cell as read_excel returns it *)
| NA.               (* pd.NA *)

(** [pd.isna(x)] *)
Definition isna (x : scalar) : bool :=
  match x with
  | NaN | NA => true
  | Str _ | Int _ => false
  end.

Definition notna (x : scalar) : bool := negb (isna x).

Definition is_str (x : scalar) : bool :=
  match x with
  | Str _ => true
  | _ => false
  end.

(** Equality of two cells as pandas' hash tables see it. *)
Definition scalar_eqb (x y : scalar) : bool :=
  match x, y with
  | Str a, Str b => pystr_eqb a b
  | Int a, Int b => Z.eqb a b
  | NaN, NaN => true
  | NA, NA => true
  | _, _ => false
  end.

(** [str(x)], which is also what [astype(str)] stores and what an f-string
    interpolates. *)
Definition py_str (x : scalar) : pystr :=
  match x with
  | Str s => s
  | Int n => str_of_Z n
  | NaN => py "nan"
  | NA => py "<NA>"
  end.

(** The dtype of a Series.  Every modelled call treats the dtypes other
    than object alike. *)
Inductive dtype : Type :=
| object    (* Python objects: the dtype of a column holding text *)
| int64
| float64.  (* also the dtype of a column that is blank in every row *)

Definition dtype_eqb (a b : dtype) : bool :=
  match a, b with
  | object, object | int64, int64 | float64, float64 => true
  | _, _ => false
  end.

Record Series : Type := mkSeries { dtype_of : dtype; values : list scalar }.

(** A Series is well formed when a numeric dtype holds no text. *)
Definition wf_series (s : Series) : Prop :=
  dtype_of s = object \/ Forall (fun x => is_str x = false) (values s).

(** [series.empty] *)
Definition empty (s : Series) : bool :=
  match values s with
  | [] => true
  | _ :: _ => false
  end.

(** [series.dropna()] *)
Definition dropna (s : Series) : Series :=
  mkSeries (dtype_of s) (filter notna (values s)).

(** [series.astype(str)]: every element, missing ones included, becomes
    its [str()]; the result has dtype object. *)
Definition astype_str (s : Series) : Series :=
  mkSeries object (map (fun x => Str (py_str x)) (values s)).

(** [series.replace({k1: v1, ...})] with text keys. *)
Fixpoint lookup {V : Type} (k : pystr) (d : list (pystr * V)) : option V :=
  match d with
  | [] => None
  | (k', v) :: d' => if pystr_eqb k k' then Some v else lookup k d'
  end.

Definition replace_scalar (d : list (pystr * scalar)) (x : scalar) : scalar :=
  match x with
  | Str s => match lookup s d with
             | Some v => v
             | None => x
             end
  | _ => x
  end.

Definition replace_values (d : list (pystr * scalar)) (s : Series) : Series :=
  mkSeries (dtype_of s) (map (replace_scalar d) (values s)).

(** The [.str] accessor validates the Series it is taken from: it raises
    [AttributeError] unless the values, missing ones skipped, are inferred
    as "string", "empty" or mixed with text.  A numeric dtype is refused,
    and so is an object Series whose non-missing values are all [int]. *)
Definition str_accessor_ok (s : Series) : bool :=
  match dtype_of s with
  | object => existsb is_str (values s) || forallb isna (values s)
  | int64 | float64 => false
  end.

(** What a [.str] method stores for one element: the method's value on a
    [str], [nan] on anything else. *)
Definition str_elem {B : Type} (f : pystr -> B) (x : scalar) : option B :=
  match x with
  | Str s => Some (f s)
  | _ => None
  end.

Definition scalar_of_option (o : option pystr) : scalar :=
  match o with
  | Some s => Str s
  | None => NaN
  end.

Definition str_method (f : pystr -> pystr) (s : Series) : result Series :=
  if str_accessor_ok s
  then Ok (mkSeries object (map (fun x => scalar_of_option (str_elem f x)) (values s)))
  else Raise AttributeError.

(** [series.str.replace(old, new, regex=False)] *)
Definition str_replace (old new : N) : Series -> result Series :=
  str_method (replace_char old new).

(** [series.str.strip()] *)
Definition str_strip : Series -> result Series := str_method strip.

(** [series.str.split(sep)]: a Series of lists ([None] stands for [nan]). *)
Definition str_split (sep : N) (s : Series) : result (list (option (list pystr))) :=
  if str_accessor_ok s
  then Ok (map (str_elem (split_on sep)) (values s))
  else Raise AttributeError.

(** [lists.explode()]: one row per list element, in order; [nan] stays a
    row of its own, and so would an empty list. *)
Definition explode (l : list (option (list pystr))) : Series :=
  mkSeries object
    (flat_map (fun o => match o with
                        | Some (p :: ps) => map Str (p :: ps)
                        | Some [] | None => [NaN]
                        end) l).

Definition mem (x : scalar) (l : list scalar) : bool := existsb (scalar_eqb x) l.

(** [series.unique()]: the distinct values in order of first appearance. *)
Fixpoint unique_from (seen l : list scalar) : list scalar :=
  match l with
  | [] => []
  | x :: l' =>
      if mem x seen then unique_from seen l'
      else x :: unique_from (x :: seen) l'
  end.

Definition unique (l : list scalar) : list scalar := unique_from [] l.

Definition count (x : scalar) (l : list scalar) : nat :=
  length (filter (scalar_eqb x) l).

(** Sorting a counts table by descending count, where a rank of the keys
    settles the order of entries of equal count: an entry goes above
    another when its count is larger, or equal with a rank that is not
    larger. *)
Definition goes_above (rank : scalar -> nat) (e e' : scalar * nat) : bool :=
  Nat.ltb (snd e') (snd e)
  || (Nat.eqb (snd e') (snd e) && Nat.leb (rank (fst e)) (rank (fst e'))).

Fixpoint insert_desc (rank : scalar -> nat) (e : scalar * nat) (l : list (scalar * nat))
  : list (scalar * nat) :=
  match l with
  | [] => [e]
  | e' :: l' =>
      if goes_above rank e e' then e :: l else e' :: insert_desc rank e l'
  end.

Fixpoint sort_by (rank : scalar -> nat) (l : list (scalar * nat)) : list (scalar * nat) :=
  match l with
  | [] => []
  | e :: l' => insert_desc rank e (sort_by rank l')
  end.

Section Ties.

(** [value_counts] sorts the counts with [sort_values(ascending=False)],
    whose default kind, quicksort, is not stable: the order in which it
    leaves entries of equal count is not fixed by pandas, and differs from
    one numpy build to another.  It is left open here: [tie_rank table k]
    is the rank that the sort, run on [table], gives to the key [k] among
    the entries of its count.  Every definition and every fact below that
    goes through [value_counts] holds for every [tie_rank]. *)
Variable tie_rank : list (scalar * nat) -> scalar -> nat.

(** [sort_values(ascending=False)] on the counts. *)
Definition sort_desc (l : list (scalar * nat)) : list (scalar * nat) :=
  sort_by (tie_rank l) l.

(** [series.value_counts()]: missing values are left out, the distinct
    values are counted in order of first appearance, and the table is
    sorted by descending count, entries of equal count as [tie_rank]
    has them. *)
Definition value_counts (s : Series) : list (scalar * nat) :=
  let vals := filter notna (values s) in
  sort_desc (map (fun k => (k, count k vals)) (unique vals)).

(** Is the cell one of the selected texts?  A missing cell never is. *)
Definition member (selected : list pystr) (x : scalar) : bool :=
  match x with
  | Str v => existsb (pystr_eqb v) selected
  | _ => false
  end.

(** [series.isin(selected)] for a list of [str]. *)
Definition isin (selected : list pystr) (s : Series) : list bool :=
  map (member selected) (values s).

(* ===================================================================== *)
(** ** pandas: DataFrame *)
(* ===================================================================== *)

Record DataFrame : Type := mkFrame {
  index : list nat;                  (* the row labels *)
  columns : list (pystr * Series)    (* the labelled columns, in order *)
}.

Definition labels (df : DataFrame) : list pystr := map fst (columns df).

(** [len(df)] *)
Definition nrows (df : DataFrame) : nat := length (index df).

(** Every column has one value per row, and a numeric column no text. *)
Definition wf_frame (df : DataFrame) : Prop :=
  Forall (fun c => length (values (snd c)) = nrows df /\ wf_series (snd c)) (columns df).

Definition in_labels (c : pystr) (df : DataFrame) : bool :=
  existsb (pystr_eqb c) (labels df).

(** What [df[label]] evaluates to: a Series when one column carries the
    label, a DataFrame when several do. *)
Inductive item : Type :=
| ItemSeries (s : Series)
| ItemFrame (sub : DataFrame).

Definition getitem (df : DataFrame) (label : pystr) : result item :=
  match filter (fun c => pystr_eqb (fst c) label) (columns df) with
  | [] => Raise (KeyError label)
  | [(_, s)] => Ok (ItemSeries s)
  | cols => Ok (ItemFrame (mkFrame (index df) cols))
  end.

(** [df[label] = s] for a label the frame has: the column is replaced in
    place; a new label is appended. *)
Definition setitem (df : DataFrame) (label : pystr) (s : Series) : DataFrame :=
  if in_labels label df
  then mkFrame (index df)
         (map (fun c => if pystr_eqb (fst c) label then (fst c, s) else c) (columns df))
  else mkFrame (index df) (columns df ++ [(label, s)]).

Fixpoint mask_filter {A : Type} (m : list bool) (l : list A) : list A :=
  match m, l with
  | b :: m', x :: l' => if b then x :: mask_filter m' l' else mask_filter m' l'
  | _, _ => []
  end.

(** [df[mask]] for a boolean Series: the rows where the mask holds. *)
Definition select_rows (mask : list bool) (df : DataFrame) : DataFrame :=
  mkFrame (mask_filter mask (index df))
    (map (fun c => (fst c, mkSeries (dtype_of (snd c)) (mask_filter mask (values (snd c)))))
       (columns df)).

(** [df.rename(columns=mapping)] *)
Definition rename_columns (mapping : list (pystr * pystr)) (df : DataFrame) : DataFrame :=
  mkFrame (index df)
    (map (fun c => (match lookup (fst c) mapping with
                    | Some new => new
                    | None => fst c
                    end, snd c)) (columns df)).

(** [df.columns = [f(col) for col in df.columns]] *)
Definition map_labels (f : pystr -> pystr) (df : DataFrame) : DataFrame :=
  mkFrame (index df) (map (fun c => (f (fst c), snd c)) (columns df)).

(** [df.drop(columns=cols)] *)
Definition drop (cols : list pystr) (df : DataFrame) : DataFrame :=
  mkFrame (index df)
    (filter (fun c => negb (existsb (pystr_eqb (fst c)) cols)) (columns df)).

(** [df.copy()] *)
Definition copy (df : DataFrame) : DataFrame := df.

(* ===================================================================== *)
(** ** app.py: configuration *)
(* ===================================================================== *)

Definition RENAME_MAP : list (pystr * pystr) :=
  [ (py "Start time", py "Start Time");
    (py "Completion time", py "Completion Time");
    (py "Email Address", py "Secondary Email");
    (py "What is your Educational Background" ++ [LF], py "Educational Background");
    (py "What is your current church affiliation" ++ [NBSP], py "Church Affiliation");
    (py "How frequently do you attend church?" ++ [LF], py "Attendance Frequency");
    (py "How do you attend church", py "Attendance Mode");
    (py "How much time do you spend per day on media (Social Media, Streaming Platforms, etc)",
     py "Daily Media Time");
    (py "Which platforms do you use?", py "Media Platforms");
    (py "My engagement with media has made my faith:", py "Media Impact on Faith");
    (py "How regular are you with personal devotion (Bible Reading/Prayer)",
     py "Personal Devotion Regularity");
    (py "In what way do you contribute to your church (select all that apply)",
     py "Church Contribution") ].

Definition SENSITIVE_COLUMNS : list pystr :=
  [ py "Email"; py "Name"; py "First Name"; py "Last Name";
    py "Secondary Email"; py "Phone Number" ].

Definition FILTER_COLUMNS : list pystr :=
  [ py "Age Range"; py "Sex"; py "Ethnicity"; py "Educational Background";
    py "Marital Status"; py "Church Affiliation" ].

Definition MULTI_VALUE_FIELDS : list pystr :=
  [ py "Media Platforms"; py "Church Contribution" ].

(* ===================================================================== *)
(** ** app.py: clean_string_series and load_data *)
(* ===================================================================== *)

(** [clean_string_series(series)], lines 53-64. *)
Definition clean_string_series (series : Series) : result Series :=
  if negb (dtype_eqb (dtype_of series) object) then Ok series
  else
    s1 <- str_replace LF SPACE (astype_str series) ;;
    s2 <- str_replace NBSP SPACE s1 ;;
    cleaned <- str_strip s2 ;;
    Ok (replace_values [(py "nan", NA); (py "", NA)] cleaned).

(** The source reads [series.dtype] of whatever [df[column]] is: a
    DataFrame has no such attribute. *)
Definition clean_item (it : item) : result Series :=
  match it with
  | ItemSeries s => clean_string_series s
  | ItemFrame _ => Raise AttributeError
  end.

(** Lines 77-78: [for column in df.columns: df[column] = clean(df[column])]. *)
Fixpoint clean_columns (cols : list pystr) (df : DataFrame) : result DataFrame :=
  match cols with
  | [] => Ok df
  | column :: rest =>
      it <- getitem df column ;;
      s <- clean_item it ;;
      clean_columns rest (setitem df column s)
  end.

(** Lines 74-78: the header rename, the header strip and the cell cleaning. *)
Definition normalize (raw : DataFrame) : result DataFrame :=
  let df := rename_columns RENAME_MAP raw in
  let df := map_labels strip df in
  clean_columns (labels df) df.

(** Lines 80-82: the sensitive columns that are present are dropped. *)
Definition redact (df : DataFrame) : DataFrame :=
  let drop_cols := filter (fun col => in_labels col df) SENSITIVE_COLUMNS in
  match drop_cols with
  | [] => df
  | _ :: _ => drop drop_cols df
  end.

(** What is found at the path given to [load_data]. *)
Inductive source : Type :=
| NoFile
| Workbook (raw : DataFrame).   (* what pd.read_excel(path) returns *)

(** [load_data(path)], lines 67-84. *)
Definition load_data (src : source) : result DataFrame :=
  match src with
  | NoFile => Raise StopException
  | Workbook raw =>
      df <- normalize raw ;;
      Ok (redact df)
  end.

(* ===================================================================== *)
(** ** app.py: apply_filters *)
(* ===================================================================== *)

(** [set(a) == set(b)] *)
Definition set_eqb (a b : list pystr) : bool :=
  forallb (fun x => existsb (pystr_eqb x) b) a
  && forallb (fun x => existsb (pystr_eqb x) a) b.

(** [d.get(key, [])] *)
Definition dict_get {V : Type} (d : list (pystr * list V)) (key : pystr) : list V :=
  match lookup key d with
  | Some v => v
  | None => []
  end.

(** The test of lines 94-98: does the loop body reach the row selection? *)
Definition active (options_map : list (pystr * list pystr))
  (column : pystr) (selected : list pystr) : bool :=
  match selected with
  | [] => false
  | _ :: _ => negb (set_eqb selected (dict_get options_map column))
  end.

(** Lines 93-99: the loop over [selections.items()]. *)
Fixpoint filter_loop (options_map : list (pystr * list pystr))
  (items : list (pystr * list pystr)) (filtered : DataFrame) : result DataFrame :=
  match items with
  | [] => Ok filtered
  | (column, selected) :: rest =>
      match selected with
      | [] => filter_loop options_map rest filtered
      | _ :: _ =>
          let available := dict_get options_map column in
          if set_eqb selected available then filter_loop options_map rest filtered
          else
            it <- getitem filtered column ;;
            match it with
            | ItemSeries s =>
                filter_loop options_map rest (select_rows (isin selected s) filtered)
            | ItemFrame _ => Unmodelled
            end
      end
  end.

(** [apply_filters(data, selections, options_map)], lines 87-100. *)
Definition apply_filters (data : DataFrame)
  (selections options_map : list (pystr * list pystr)) : result DataFrame :=
  filter_loop options_map selections (copy data).

(** Line 234 of [main]: the options offered for a facet are the distinct
    non-missing values of its column (sorted there; every use compares
    them as a set). *)
Definition observed_domain (data : DataFrame) (column : pystr) : list scalar :=
  match getitem data column with
  | Ok (ItemSeries s) => unique (values (dropna s))
  | _ => []
  end.

(* ===================================================================== *)
(** ** app.py: aggregation and summaries *)
(* ===================================================================== *)

(** What a chart function hands to streamlit: an informational message
    (recorded by the title it is about) or a chart of a counts table. *)
Inductive rendering : Type :=
| st_info (title : pystr)
| st_altair_chart (counts : list (scalar * nat)) (title : pystr).

(** Lines 105-107 and 192-194, [dropna().replace("", pd.NA).dropna()]: the
    non-missing, non-empty values. *)
Definition qualifying (data : Series) : Series :=
  dropna (replace_values [(py "", NA)] (dropna data)).

(** The [counts] table of [single_select_chart] and [summarize_category]. *)
Definition category_counts (data : Series) : list (scalar * nat) :=
  value_counts (qualifying data).

(** [single_select_chart(data, title)], lines 103-126.
    ([single_select_pie_chart], lines 129-159, builds the same table and
    adds a [Percent] column; it comes further down.) *)
Definition single_select_chart (data : Series) (title : pystr) : rendering :=
  match category_counts data with
  | [] => st_info title
  | counts => st_altair_chart counts title
  end.

(** Lines 163-170 and 205-212,
    [dropna().str.split(";").explode().str.strip().replace("", pd.NA).dropna()]:
    the pool of tokens. *)
Definition exploded_tokens (data : Series) : result Series :=
  lists <- str_split SEMICOLON (dropna data) ;;
  stripped <- str_strip (explode lists) ;;
  Ok (dropna (replace_values [(py "", NA)] stripped)).

(** [multivalue_chart(data, title)], lines 162-187. *)
Definition multivalue_chart (data : Series) (title : pystr) : result rendering :=
  exploded <- exploded_tokens data ;;
  if empty exploded then Ok (st_info title)
  else Ok (st_altair_chart (value_counts exploded) title).

(** [f"{top_label} ({top_count})"] *)
Definition format_top (top_label : scalar) (top_count : nat) : pystr :=
  py_str top_label ++ py " (" ++ str_of_nat top_count ++ py ")".

(** [summarize_category(series)], lines 190-201. *)
Definition summarize_category (series : Series) : pystr :=
  match category_counts series with
  | [] => py "N/A"
  | (top_label, top_count) :: _ => format_top top_label top_count
  end.

(** [summarize_multivalue(series)], lines 204-218. *)
Definition summarize_multivalue (series : Series) : result pystr :=
  exploded <- exploded_tokens series ;;
  if empty exploded then Ok (py "N/A")
  else
    match value_counts exploded with
    | [] => Raise IndexError      (* counts.index[0] on an empty table *)
    | (top_label, top_count) :: _ => Ok (format_top top_label top_count)
    end.

(* ===================================================================== *)
(** ** Notions the statements below use *)
(* ===================================================================== *)

(** No white space at either end. *)
Definition trimmed (s : pystr) : Prop :=
  (forall c t, s = c :: t -> isspace c = false)
  /\ (forall c t, s = t ++ [c] -> isspace c = false).

(** White space only. *)
Definition all_space (s : pystr) : Prop := Forall (fun c => isspace c = true) s.

(** What lines 57-63 make of one cell of an object column. *)
Definition clean_cell (x : scalar) : scalar :=
  replace_scalar [(py "nan", NA); (py "", NA)]
    (Str (strip (replace_char NBSP SPACE (replace_char LF SPACE (py_str x))))).

(** What [clean_string_series] returns (it never raises, see
    [clean_string_series_total]). *)
Definition clean_series (s : Series) : Series :=
  match dtype_of s with
  | object => mkSeries object (map clean_cell (values s))
  | _ => s
  end.

(** How many columns carry the label. *)
Definition occurrences (label : pystr) (df : DataFrame) : nat :=
  length (filter (fun c => pystr_eqb (fst c) label) (columns df)).

(** Every label names one column. *)
Definition has_unique_labels (df : DataFrame) : bool :=
  forallb (fun c => Nat.eqb (occurrences c df) 1) (labels df).

(** The header of a column after lines 74-75. *)
Definition normal_label (label : pystr) : pystr :=
  strip (match lookup label RENAME_MAP with
         | Some new => new
         | None => label
         end).

(** The frame in which the columns named in [cols] have been cleaned. *)
Definition clean_frame_cols (cols : list pystr) (df : DataFrame) : DataFrame :=
  mkFrame (index df)
    (map (fun c => if existsb (pystr_eqb (fst c)) cols
                   then (fst c, clean_series (snd c)) else c) (columns df)).

(* ===================================================================== *)
(** ** Row masks *)
(* ===================================================================== *)

(** The rows two masks both keep. *)
Fixpoint andmask (a b : list bool) : list bool :=
  match a, b with
  | x :: a', y :: b' => (x && y) :: andmask a' b'
  | _, _ => []
  end.

(** The values of the column a label names. *)
Definition column_values (data : DataFrame) (column : pystr) : list scalar :=
  match getitem data column with
  | Ok (ItemSeries s) => values s
  | _ => []
  end.

(** The rows of [data] that pass every selection the loop acts on: row [i]
    is kept when, for each such column, its cell is one of the selected
    texts. *)
Fixpoint keep_mask (options_map items : list (pystr * list pystr))
  (data : DataFrame) : list bool :=
  match items with
  | [] => repeat true (nrows data)
  | (column, selected) :: rest =>
      if active options_map column selected
      then andmask (map (member selected) (column_values data column))
             (keep_mask options_map rest data)
      else keep_mask options_map rest data
  end.

(** Is the selected list non-empty? *)
Definition nonempty_selection (cs : pystr * list pystr) : bool :=
  match snd cs with
  | [] => false
  | _ :: _ => true
  end.

Definition same_set {A : Type} (a b : list A) : Prop := forall x, In x a <-> In x b.

(* ===================================================================== *)
(** ** apply_filters over a store of frames *)
(* ===================================================================== *)

(** The frames that exist, by reference.  [data.copy()] and [filtered[mask]]
    each make a new frame; the loop rebinds its local name [filtered]. *)
Definition store := list DataFrame.

Definition alloc (h : store) (df : DataFrame) : nat * store :=
  (length h, h ++ [df]).

Fixpoint filter_loop_store (options_map items : list (pystr * list pystr))
  (filtered : nat) (h : store) : result (nat * store) :=
  match items with
  | [] => Ok (filtered, h)
  | (column, selected) :: rest =>
      match selected with
      | [] => filter_loop_store options_map rest filtered h
      | _ :: _ =>
          if set_eqb selected (dict_get options_map column)
          then filter_loop_store options_map rest filtered h
          else
            match nth_error h filtered with
            | None => Unmodelled
            | Some f =>
                it <- getitem f column ;;
                match it with
                | ItemSeries s =>
                    let (r, h') := alloc h (select_rows (isin selected s) f) in
                    filter_loop_store options_map rest r h'
                | ItemFrame _ => Unmodelled
                end
            end
      end
  end.

(** [apply_filters] called on the frame at reference [data]. *)
Definition apply_filters_store (data : nat)
  (selections options_map : list (pystr * list pystr)) (h : store) : result (nat * store) :=
  match nth_error h data with
  | None => Unmodelled
  | Some d =>
      let (filtered, h') := alloc h (copy d) in
      filter_loop_store options_map selections filtered h'
  end.

(* ===================================================================== *)
(** ** Notions for the aggregates *)
(* ===================================================================== *)

(** A value counts for an aggregate when it is neither missing nor the
    empty text. *)
Definition qualifies (x : scalar) : bool :=
  notna x && negb (scalar_eqb x (Str [])).

(** The sum of the counts of a table. *)
Definition sum_counts (t : list (scalar * nat)) : nat :=
  fold_right (fun e acc => snd e + acc) 0 t.

(** The position at which a value is first seen (the length of the list
    when it is not). *)
Fixpoint first_index (x : scalar) (l : list scalar) : nat :=
  match l with
  | [] => 0
  | y :: l' => if scalar_eqb x y then 0 else S (first_index x l')
  end.

(** [x] stands somewhere before [y] in [l]. *)
Definition precedes {A : Type} (x y : A) (l : list A) : Prop :=
  exists l1 l2 l3, l = l1 ++ x :: l2 ++ y :: l3.

(** Counts never increase along the table. *)
Definition descending (t : list (scalar * nat)) : Prop :=
  forall x y, precedes x y t -> snd y <= snd x.

(** The multi-valued aggregation as the specification words it: each
    non-missing cell is split on [";"], each piece trimmed, the empty
    pieces discarded, and the tokens of all rows pooled. *)
Definition spec_tokens (cell : pystr) : list pystr :=
  filter (fun t => negb (pystr_eqb t [])) (map strip (split_on SEMICOLON cell)).

Definition spec_token_pool (vals : list scalar) : list pystr :=
  flat_map (fun x => match x with
                     | Str s => spec_tokens s
                     | _ => []
                     end) vals.

(* ===================================================================== *)
(** ** Example data *)
(* ===================================================================== *)

(** A text column with a blank cell, as [read_excel] returns it. *)
Definition sex_column : Series := mkSeries object [Str (py "F"); NaN].

Definition sex_sheet : DataFrame := mkFrame [0; 1] [(py "Sex", sex_column)].

(** A sheet with raw headers, untidy text, a sensitive column and a
    numeric column. *)
Definition survey_sheet : DataFrame :=
  mkFrame [0; 1; 2]
    [ (py "Email Address", mkSeries object [Str (py "a@x.org"); Str (py "b@x.org"); NaN]);
      (py " Sex ", mkSeries object [Str (py " F"); Str (py "nan"); Str (py "  ")]);
      (py "What is your Educational Background" ++ [LF],
       mkSeries object [Str (py "BSc" ++ [LF] ++ py "Hons "); Int 12; NaN]);
      (py "Score", mkSeries int64 [Int 3; Int 4; Int 5]) ].

(** The age column of the specification's filter example. *)
Definition age_frame : DataFrame :=
  mkFrame [0; 1; 2; 3; 4]
    [ (py "Age Range",
       mkSeries object [Str (py "18-24"); Str (py "25-34"); Str (py "18-24"); NA;
                        Str (py "25-34")]);
      (py "Sex",
       mkSeries object [Str (py "F"); Str (py "M"); NA; Str (py "F"); Str (py "M")]) ].

(** The options [main] offers for it: the observed values of each facet. *)
Definition age_options : list (pystr * list pystr) :=
  [ (py "Age Range", [py "18-24"; py "25-34"]); (py "Sex", [py "F"; py "M"]) ].

(** The multi-valued column of the specification's aggregation example. *)
Definition media_column : Series :=
  mkSeries object
    [ Str (py "Instagram; YouTube"); Str (py "YouTube"); NA; Str (py "Instagram");
      Str (py "TikTok; YouTube") ].

(** A column in which two pairs of categories have the same count. *)
Definition tied_column : Series :=
  mkSeries object
    [ Str (py "a"); Str (py "b"); Str (py "c"); Str (py "d"); Str (py "c"); Str (py "d") ].

(** Two ways a sort can leave the entries of equal count: in the order
    they come in, as a stable sort does, and the other way round. *)
Definition ties_in_order : list (scalar * nat) -> scalar -> nat := fun _ _ => 0.

Definition ties_reversed : list (scalar * nat) -> scalar -> nat :=
  fun table k => length table - first_index k (map fst table).

(** A column that is blank in the workbook: [read_excel] gives it the
    dtype float64, and [clean_string_series] returns it as it is. *)
Definition blank_column : Series := mkSeries float64 [NaN; NaN; NaN].

(** Well-formedness of a concrete frame. *)
Ltac solve_wf_frame :=
  unfold wf_frame; simpl;
  repeat (apply Forall_cons; [split; [reflexivity |
            first [left; reflexivity | right; simpl; repeat constructor]] |]);
  apply Forall_nil.

(* ===================================================================== *)
(** ** app.py: the pie chart *)
(* ===================================================================== *)

(** What [single_select_pie_chart] hands to streamlit.  A row of the chart's
    table is a category, its [Responses] and its [Percent]; [Percent] is the
    true division of line 142, recorded by its dividend and its divisor
    (the float64 quotient itself is not computed). *)
Inductive pie_rendering : Type :=
| pie_info (title : pystr)
| pie_chart (rows : list (scalar * nat * (nat * nat))) (title : pystr).

(** [single_select_pie_chart(data, title)], lines 129-159. *)
Definition single_select_pie_chart (data : Series) (title : pystr) : pie_rendering :=
  match category_counts data with
  | [] => pie_info title
  | counts =>
      let total := sum_counts counts in            (* counts["Responses"].sum() *)
      pie_chart (map (fun e => (fst e, snd e, (snd e, total))) counts) title
  end.

(* ===================================================================== *)
(** ** app.py: main *)
(* ===================================================================== *)

(** [a <= b] on [str]: code point by code point, a prefix first. *)
Fixpoint pystr_leb (a b : pystr) : bool :=
  match a, b with
  | [], _ => true
  | _ :: _, [] => false
  | x :: a', y :: b' =>
      if N.ltb x y then true
      else if N.eqb x y then pystr_leb a' b' else false
  end.

Fixpoint insert_sorted (x : pystr) (l : list pystr) : list pystr :=
  match l with
  | [] => [x]
  | y :: l' => if pystr_leb x y then x :: l else y :: insert_sorted x l'
  end.

(** [sorted(l)] for a list of [str]. *)
Definition sorted (l : list pystr) : list pystr := fold_right insert_sorted [] l.

(** The texts of the cells, when every cell is a text. *)
Fixpoint texts (l : list scalar) : option (list pystr) :=
  match l with
  | [] => Some []
  | Str s :: l' =>
      match texts l' with
      | Some t => Some (s :: t)
      | None => None
      end
  | _ :: _ => None
  end.

(** Line 234, [sorted(data[column].dropna().unique())].  A DataFrame has no
    [unique].  Options that are not all texts are left out: numbers are
    sorted as numbers, and a mix of numbers and texts raises [TypeError]. *)
Definition facet_options (it : item) : result (list pystr) :=
  match it with
  | ItemFrame _ => Raise AttributeError
  | ItemSeries s =>
      match texts (unique (values (dropna s))) with
      | Some options => Ok (sorted options)
      | None => Unmodelled
      end
  end.

(** [d[key] = value]: a key the dict has keeps its place. *)
Fixpoint dict_set {V : Type} (d : list (pystr * V)) (key : pystr) (value : V)
  : list (pystr * V) :=
  match d with
  | [] => [(key, value)]
  | (k, v) :: d' =>
      if pystr_eqb k key then (k, value) :: d' else (k, v) :: dict_set d' key value
  end.

(** What [st.multiselect(label, options=..., default=...)] returns: the
    options the user has left selected.  It is a function of the label and
    the options; on a first run it is the default. *)
Definition widget := pystr -> list pystr -> list pystr.

Definition untouched : widget := fun _ options => options.

(** Lines 231-240: the loop over [FILTER_COLUMNS]. *)
Fixpoint sidebar_loop (multiselect : widget) (data : DataFrame) (cols : list pystr)
  (selections options_map : list (pystr * list pystr))
  : result (list (pystr * list pystr) * list (pystr * list pystr)) :=
  match cols with
  | [] => Ok (selections, options_map)
  | column :: rest =>
      if negb (in_labels column data)
      then sidebar_loop multiselect data rest selections options_map
      else
        it <- getitem data column ;;
        options <- facet_options it ;;
        sidebar_loop multiselect data rest
          (dict_set selections column (multiselect column options))
          (dict_set options_map column options)
  end.

(** Lines 229-240: [selections] and [options_map] as the sidebar builds
    them. *)
Definition sidebar (multiselect : widget) (data : DataFrame)
  : result (list (pystr * list pystr) * list (pystr * list pystr)) :=
  sidebar_loop multiselect data FILTER_COLUMNS [] [].

(** [filtered.get(name, pd.Series(dtype=object))]: the column, or the
    default when the label is absent. *)
Definition frame_get (df : DataFrame) (name : pystr) : result item :=
  match getitem df name with
  | Ok it => Ok it
  | Raise (KeyError _) => Ok (ItemSeries (mkSeries object []))
  | Raise e => Raise e
  | Unmodelled => Unmodelled
  end.

(** [summarize_category(filtered.get(name, pd.Series(dtype=object)))].
    A summary of a DataFrame (a label several columns carry) is left out. *)
Definition metric_category (filtered : DataFrame) (name : pystr) : result pystr :=
  it <- frame_get filtered name ;;
  match it with
  | ItemSeries s => Ok (summarize_category s)
  | ItemFrame _ => Unmodelled
  end.

(** [summarize_multivalue(filtered.get(name, pd.Series(dtype=object)))] *)
Definition metric_multivalue (filtered : DataFrame) (name : pystr) : result pystr :=
  it <- frame_get filtered name ;;
  match it with
  | ItemSeries s => summarize_multivalue s
  | ItemFrame _ => Unmodelled
  end.

(** What one of the chart slots of the page shows. *)
Inductive chart : Type :=
| bar (r : rendering)
| pie (r : pie_rendering).

Definition draw_bar (s : Series) (title : pystr) : result chart :=
  Ok (bar (single_select_chart s title)).

Definition draw_pie (s : Series) (title : pystr) : result chart :=
  Ok (pie (single_select_pie_chart s title)).

Definition draw_multivalue (s : Series) (title : pystr) : result chart :=
  r <- multivalue_chart s title ;;
  Ok (bar r).

(** [if name in filtered.columns: draw(filtered[name], title)]: the charts
    the statement adds to the page. *)
Definition chart_if_present (draw : Series -> pystr -> result chart)
  (filtered : DataFrame) (name title : pystr) : result (list chart) :=
  if in_labels name filtered
  then
    it <- getitem filtered name ;;
    match it with
    | ItemSeries s => c <- draw s title ;; Ok [c]
    | ItemFrame _ => Unmodelled
    end
  else Ok [].

(** What a run of [main] that reaches its end has put on the page. *)
Record dashboard : Type := mkDashboard {
  download : DataFrame;             (* the frame behind "Download CSV" *)
  responses : nat;                  (* len(filtered), the "Responses" metric *)
  metrics : list (pystr * pystr);   (* the other metrics: label and value *)
  charts : list chart;              (* the charts and messages, in order *)
  table : DataFrame                 (* "View Filtered Responses" *)
}.

(** Lines 255-326 of [main]: the metrics, the charts and the table, for the
    two filtered frames. *)
Definition main_page (filtered_snapshot filtered : DataFrame) : result dashboard :=
  m1 <- metric_category filtered (py "Age Range") ;;
  m2 <- metric_multivalue filtered (py "Media Platforms") ;;
  m3 <- metric_category filtered (py "Attendance Frequency") ;;
  m4 <- metric_category filtered (py "Attendance Mode") ;;
  m5 <- metric_category filtered (py "Personal Devotion Regularity") ;;
  c1 <- chart_if_present draw_bar filtered (py "Age Range") (py "Respondents by Age Range") ;;
  c2 <- chart_if_present draw_pie filtered (py "Sex") (py "Respondents by Sex") ;;
  c3 <- chart_if_present draw_bar filtered (py "Ethnicity") (py "Respondents by Ethnicity") ;;
  c4 <- chart_if_present draw_bar filtered (py "Educational Background")
          (py "Educational Background") ;;
  c5 <- chart_if_present draw_bar filtered (py "Career/Occupation/Industry")
          (py "Career / Industry") ;;
  c6 <- chart_if_present draw_pie filtered (py "Attendance Frequency")
          (py "Church Attendance Frequency") ;;
  c7 <- chart_if_present draw_pie filtered (py "Attendance Mode") (py "Attendance Mode") ;;
  c8 <- chart_if_present draw_bar filtered (py "Daily Media Time")
          (py "Daily Media Consumption") ;;
  c9 <- chart_if_present draw_bar filtered (py "Media Impact on Faith")
          (py "Perceived Media Impact on Faith") ;;
  c10 <- chart_if_present draw_multivalue filtered (py "Media Platforms")
           (py "Media Platforms Used") ;;
  c11 <- chart_if_present draw_multivalue filtered (py "Church Contribution")
           (py "Church Contribution Methods") ;;
  Ok (mkDashboard filtered_snapshot (nrows filtered)
        [ (py "Top Age Range", m1);
          (py "Most Common Media Platform", m2);
          (py "Attendance Frequency", m3);
          (py "Attendance Mode", m4);
          (py "Personal Devotion", m5) ]
        (c1 ++ c2 ++ c3 ++ c4 ++ c5 ++ c6 ++ c7 ++ c8 ++ c9 ++ c10 ++ c11)
        filtered).

(** [main()], lines 221-326, for what is found at [SURVEY_FILE] and the
    state of the sidebar's widgets.  Titles, captions and layout are left
    out, and so is the CSV text of the download. *)
Definition main (multiselect : widget) (src : source) : result dashboard :=
  data <- load_data src ;;
  sb <- sidebar multiselect data ;;
  filtered_snapshot <- apply_filters data (fst sb) (snd sb) ;;
  filtered <- apply_filters data (fst sb) (snd sb) ;;
  main_page filtered_snapshot filtered.

(** Every cell that is not missing is a text. *)
Definition text_cells (s : Series) : Prop :=
  Forall (fun x => notna x = true -> is_str x = true) (values s).

(** The computation raises no other exception than [e0]. *)
Definition raises_only {A : Type} (e0 : exn) (r : result A) : Prop :=
  forall e, r = Raise e -> e = e0.

(** A small workbook with two facets and a multi-select column. *)
Definition small_workbook : DataFrame :=
  mkFrame [0; 1; 2]
    [ (py "Name", mkSeries object [Str (py "Ama"); Str (py "Kofi"); Str (py "Esi")]);
      (py "Sex", mkSeries object [Str (py "M"); Str (py "F "); Str (py "F")]);
      (py "Age Range", mkSeries object [Str (py "25-34"); Str (py "18-24"); NaN]);
      (py "Which platforms do you use?",
       mkSeries object [Str (py "YouTube; TikTok"); Str (py "YouTube"); NaN]) ].

(** What [load_data] makes of it. *)
Definition small_data : DataFrame :=
  mkFrame [0; 1; 2]
    [ (py "Sex", mkSeries object [Str (py "M"); Str (py "F"); Str (py "F")]);
      (py "Age Range", mkSeries object [Str (py "25-34"); Str (py "18-24"); NA]);
      (py "Media Platforms",
       mkSeries object [Str (py "YouTube; TikTok"); Str (py "YouTube"); NA]) ].

(** The same workbook with the multi-select column left blank. *)
Definition blank_workbook : DataFrame :=
  mkFrame [0; 1; 2]
    [ (py "Sex", mkSeries object [Str (py "M"); Str (py "F "); Str (py "F")]);
      (py "Which platforms do you use?", blank_column) ].

Definition blank_data : DataFrame :=
  mkFrame [0; 1; 2]
    [ (py "Sex", mkSeries object [Str (py "M"); Str (py "F"); Str (py "F")]);
      (py "Media Platforms", blank_column) ].

(** The options of a facet the sidebar offers. *)
Definition offered (data : DataFrame) (c : pystr) (options : list pystr) : Prop :=
  exists s, getitem data c = Ok (ItemSeries s)
            /\ facet_options (ItemSeries s) = Ok options.

(** Strictly ascending: every text is below, and differs from, each later
    one. *)
Definition strictly_ascending (l : list pystr) : Prop :=
  StronglySorted (fun a b => pystr_leb a b = true /\ a <> b) l.

(** A multi-select column, where the frame has it, is one the [.str]
    accessor accepts. *)
Definition multivalue_ready (f : DataFrame) (name : pystr) : Prop :=
  forall s, In (name, s) (columns f) -> str_accessor_ok (dropna s) = true.

(* ===================================================================== *)
(** ** Basic facts: strings and cells *)
(* ===================================================================== *)

Lemma pystr_eqb_eq (a b : pystr) : pystr_eqb a b = true <-> a = b.
Proof.
  revert b; induction a as [|x a IH]; intros [|y b]; simpl; split;
    try congruence; try reflexivity.
  - rewrite andb_true_iff, N.eqb_eq, IH. intros [-> ->]; reflexivity.
  - intros H; injection H as -> ->.
    rewrite N.eqb_refl; simpl. apply IH; reflexivity.
Qed.

Lemma pystr_eqb_refl (a : pystr) : pystr_eqb a a = true.
Proof. apply pystr_eqb_eq; reflexivity. Qed.

Lemma pystr_eqb_neq (a b : pystr) : pystr_eqb a b = false <-> a <> b.
Proof.
  rewrite <- pystr_eqb_eq. destruct (pystr_eqb a b); split; congruence.
Qed.

Lemma scalar_eqb_eq (x y : scalar) : scalar_eqb x y = true <-> x = y.
Proof.
  destruct x, y; simpl; split; try congruence; try reflexivity.
  - intros H; apply pystr_eqb_eq in H; congruence.
  - intros H; injection H as ->; apply pystr_eqb_refl.
  - intros H; apply Z.eqb_eq in H; congruence.
  - intros H; injection H as ->; apply Z.eqb_refl.
Qed.

Lemma scalar_eqb_refl (x : scalar) : scalar_eqb x x = true.
Proof. apply scalar_eqb_eq; reflexivity. Qed.

Lemma scalar_eqb_neq (x y : scalar) : scalar_eqb x y = false <-> x <> y.
Proof.
  rewrite <- scalar_eqb_eq. destruct (scalar_eqb x y); split; congruence.
Qed.

Lemma scalar_eqb_sym (x y : scalar) : scalar_eqb x y = scalar_eqb y x.
Proof.
  destruct (scalar_eqb x y) eqn:E; symmetry.
  - apply scalar_eqb_eq. apply scalar_eqb_eq in E. congruence.
  - apply scalar_eqb_neq. apply scalar_eqb_neq in E. congruence.
Qed.

Lemma existsb_pystr_In (x : pystr) (l : list pystr) :
  existsb (pystr_eqb x) l = true <-> In x l.
Proof.
  rewrite existsb_exists. split.
  - intros (y & Hy & E). apply pystr_eqb_eq in E. congruence.
  - intros H. exists x. split; [assumption | apply pystr_eqb_refl].
Qed.

Lemma mem_In (x : scalar) (l : list scalar) : mem x l = true <-> In x l.
Proof.
  unfold mem. rewrite existsb_exists. split.
  - intros (y & Hy & E). apply scalar_eqb_eq in E. congruence.
  - intros H. exists x. split; [assumption | apply scalar_eqb_refl].
Qed.

(** *** strip *)

Lemma lstrip_head (s : pystr) c t : lstrip s = c :: t -> isspace c = false.
Proof.
  induction s as [|x s IH]; simpl; [discriminate|].
  destruct (isspace x) eqn:E; [assumption|].
  intros H; injection H as -> _; assumption.
Qed.

Lemma lstrip_fixed (s : pystr) :
  (forall c t, s = c :: t -> isspace c = false) -> lstrip s = s.
Proof.
  destruct s as [|x s]; simpl; [reflexivity|].
  intros H. rewrite (H x s eq_refl). reflexivity.
Qed.

Lemma lstrip_suffix (s : pystr) : exists p, s = p ++ lstrip s.
Proof.
  induction s as [|x s [p IH]]; simpl.
  - exists []; reflexivity.
  - destruct (isspace x).
    + exists (x :: p). simpl. f_equal. exact IH.
    + exists []. reflexivity.
Qed.

Lemma lstrip_last (s : pystr) c t :
  lstrip s = t ++ [c] -> exists t', s = t' ++ [c].
Proof.
  intros H. destruct (lstrip_suffix s) as [p Hp].
  exists (p ++ t). rewrite Hp at 1. rewrite H. apply app_assoc.
Qed.

Lemma rstrip_last (s : pystr) c t : rstrip s = t ++ [c] -> isspace c = false.
Proof.
  unfold rstrip. intros H.
  apply (f_equal (@rev N)) in H. rewrite rev_involutive, rev_app_distr in H.
  simpl in H. eapply lstrip_head; eassumption.
Qed.

Lemma rstrip_head (s : pystr) c t :
  rstrip s = c :: t -> exists t', s = c :: t'.
Proof.
  unfold rstrip. intros H.
  apply (f_equal (@rev N)) in H. rewrite rev_involutive in H. simpl in H.
  apply lstrip_last in H. destruct H as [t' H].
  apply (f_equal (@rev N)) in H. rewrite rev_involutive, rev_app_distr in H.
  simpl in H. eauto.
Qed.

Lemma strip_trimmed (s : pystr) : trimmed (strip s).
Proof.
  unfold strip. split; intros c t H.
  - apply rstrip_head in H. destruct H as [t' H]. eapply lstrip_head; eassumption.
  - eapply rstrip_last; eassumption.
Qed.

Lemma rstrip_fixed (s : pystr) :
  (forall c t, s = t ++ [c] -> isspace c = false) -> rstrip s = s.
Proof.
  intros H. unfold rstrip. rewrite lstrip_fixed; [apply rev_involutive|].
  intros c t E. apply (H c (rev t)).
  apply (f_equal (@rev N)) in E. rewrite rev_involutive in E. exact E.
Qed.

Lemma strip_fixed (s : pystr) : trimmed s -> strip s = s.
Proof.
  intros [Hl Hr]. unfold strip. rewrite (lstrip_fixed _ Hl). apply rstrip_fixed, Hr.
Qed.

Lemma strip_idem (s : pystr) : strip (strip s) = strip s.
Proof. apply strip_fixed, strip_trimmed. Qed.

Lemma lstrip_Forall (P : N -> Prop) (s : pystr) : Forall P s -> Forall P (lstrip s).
Proof.
  induction 1 as [|x s Hx Hs IH]; simpl; [constructor|].
  destruct (isspace x); [assumption | constructor; assumption].
Qed.

Lemma strip_Forall (P : N -> Prop) (s : pystr) : Forall P s -> Forall P (strip s).
Proof.
  intros H. unfold strip, rstrip.
  apply Forall_rev, lstrip_Forall, Forall_rev, lstrip_Forall, H.
Qed.

(** *** replace *)

Lemma replace_char_gone (old new : N) (s : pystr) :
  new <> old -> Forall (fun c => c <> old) (replace_char old new s).
Proof.
  intros Hne. unfold replace_char. apply Forall_map, Forall_forall.
  intros c _. destruct (N.eqb_spec c old); congruence.
Qed.

Lemma replace_char_keeps (P : N -> Prop) (old new : N) (s : pystr) :
  P new -> Forall P s -> Forall P (replace_char old new s).
Proof.
  intros Hnew H. unfold replace_char. apply Forall_map.
  apply Forall_impl with (2 := H). intros c Hc. destruct (N.eqb c old); assumption.
Qed.

Lemma replace_char_fixed (old new : N) (s : pystr) :
  Forall (fun c => c <> old) s -> replace_char old new s = s.
Proof.
  unfold replace_char. induction 1 as [|c s Hc Hs IH]; simpl; [reflexivity|].
  rewrite IH. destruct (N.eqb_spec c old); congruence.
Qed.

(* ===================================================================== *)
(** ** clean_string_series *)
(* ===================================================================== *)

Lemma str_accessor_ok_text (vals : list scalar) :
  Forall (fun x => is_str x = true) vals ->
  str_accessor_ok (mkSeries object vals) = true.
Proof.
  unfold str_accessor_ok; simpl. intros H.
  destruct H as [|x vals Hx Hv]; simpl; [reflexivity|].
  rewrite Hx. reflexivity.
Qed.

Lemma str_method_text (f : pystr -> pystr) (l : list pystr) :
  str_method f (mkSeries object (map Str l)) = Ok (mkSeries object (map Str (map f l))).
Proof.
  unfold str_method. rewrite str_accessor_ok_text.
  - simpl. rewrite !map_map. reflexivity.
  - apply Forall_map, Forall_forall. reflexivity.
Qed.

Lemma clean_string_series_object (s : Series) :
  dtype_of s = object ->
  clean_string_series s = Ok (mkSeries object (map clean_cell (values s))).
Proof.
  intros Hd. unfold clean_string_series. rewrite Hd. simpl.
  unfold astype_str, str_replace, str_strip.
  rewrite <- (map_map py_str Str).
  rewrite str_method_text. simpl.
  rewrite str_method_text. simpl.
  rewrite str_method_text. simpl.
  unfold replace_values. simpl. rewrite !map_map. reflexivity.
Qed.

Lemma clean_string_series_numeric (s : Series) :
  dtype_of s <> object -> clean_string_series s = Ok s.
Proof.
  intros Hd. unfold clean_string_series.
  destruct (dtype_of s); [congruence | reflexivity | reflexivity].
Qed.

(** [clean_string_series] returns on every Series. *)
Lemma clean_string_series_total (s : Series) :
  clean_string_series s = Ok (clean_series s).
Proof.
  unfold clean_series. destruct (dtype_of s) eqn:Hd.
  - apply clean_string_series_object, Hd.
  - apply clean_string_series_numeric; congruence.
  - apply clean_string_series_numeric; congruence.
Qed.

Lemma clean_series_dtype (s : Series) : dtype_of (clean_series s) = dtype_of s.
Proof. unfold clean_series. destruct (dtype_of s) eqn:E; simpl; congruence. Qed.

Lemma clean_series_length (s : Series) :
  length (values (clean_series s)) = length (values s).
Proof.
  unfold clean_series. destruct (dtype_of s); simpl; try reflexivity.
  apply length_map.
Qed.

(** The text a cleaned cell holds is stripped, free of line breaks and
    non-breaking spaces, and neither empty nor ["nan"]. *)
Lemma clean_cell_cases (x : scalar) :
  clean_cell x = NA
  \/ exists t, clean_cell x = Str t
       /\ t = strip (replace_char NBSP SPACE (replace_char LF SPACE (py_str x)))
       /\ t <> [] /\ t <> py "nan".
Proof.
  unfold clean_cell, replace_scalar.
  set (t := strip _). simpl.
  destruct (pystr_eqb t (py "nan")) eqn:E1; [left; reflexivity|].
  destruct (pystr_eqb t (py "")) eqn:E2; [left; reflexivity|].
  right. exists t. repeat split.
  - apply pystr_eqb_neq in E2. exact E2.
  - apply pystr_eqb_neq in E1. exact E1.
Qed.

Lemma clean_cell_text_fixed (x : scalar) (t : pystr) :
  clean_cell x = Str t -> clean_cell (Str t) = Str t.
Proof.
  intros H. destruct (clean_cell_cases x) as [E | (t' & E & Ht & Hne & Hnan)];
    [congruence|].
  rewrite E in H. injection H as Et. rewrite Et in Ht, Hne, Hnan. clear E Et t'.
  assert (Hlf : Forall (fun c => c <> LF) t).
  { rewrite Ht. apply strip_Forall, replace_char_keeps; [discriminate|].
    apply replace_char_gone; discriminate. }
  assert (Hnb : Forall (fun c => c <> NBSP) t).
  { rewrite Ht. apply strip_Forall, replace_char_gone; discriminate. }
  unfold clean_cell. simpl py_str.
  rewrite (replace_char_fixed LF SPACE t Hlf), (replace_char_fixed NBSP SPACE t Hnb).
  assert (Hs : strip t = t) by (rewrite Ht; apply strip_idem).
  rewrite Hs. unfold replace_scalar. simpl.
  apply pystr_eqb_neq in Hnan. apply pystr_eqb_neq in Hne.
  rewrite Hnan. change (py "") with (@nil N). rewrite Hne. reflexivity.
Qed.

(** A missing cell does not survive a second pass: [astype(str)] turns
    [pd.NA] into the text ["<NA>"]. *)
Lemma clean_cell_NA : clean_cell NA = Str (py "<NA>").
Proof. reflexivity. Qed.

Lemma clean_cell_NaN : clean_cell NaN = NA.
Proof. reflexivity. Qed.

(* ===================================================================== *)
(** ** DataFrame indexing *)
(* ===================================================================== *)

Lemma occurrences_labels (c : pystr) (df : DataFrame) :
  occurrences c df = length (filter (fun l => pystr_eqb l c) (labels df)).
Proof.
  unfold occurrences, labels. induction (columns df) as [|x l IH]; simpl;
    [reflexivity|].
  destruct (pystr_eqb (fst x) c); simpl; rewrite IH; reflexivity.
Qed.

Lemma in_labels_In (c : pystr) (df : DataFrame) :
  in_labels c df = true <-> In c (labels df).
Proof. apply existsb_pystr_In. Qed.

Lemma occurrences_pos (c : pystr) (df : DataFrame) :
  In c (labels df) -> 1 <= occurrences c df.
Proof.
  rewrite occurrences_labels. induction (labels df) as [|x l IH]; simpl;
    [contradiction|].
  intros [-> | H].
  - rewrite pystr_eqb_refl. simpl. lia.
  - destruct (pystr_eqb x c); simpl; auto with arith.
Qed.

Lemma getitem_one (c : pystr) (df : DataFrame) :
  occurrences c df = 1 ->
  exists s, In (c, s) (columns df)
    /\ getitem df c = Ok (ItemSeries s)
    /\ forall c', In c' (columns df) -> pystr_eqb (fst c') c = true -> c' = (c, s).
Proof.
  unfold occurrences, getitem. intros H.
  destruct (filter _ (columns df)) as [|[l s] [|y r]] eqn:E; simpl in H; try lia.
  assert (Hin : In (l, s) (filter (fun c0 => pystr_eqb (fst c0) c) (columns df)))
    by (rewrite E; left; reflexivity).
  apply filter_In in Hin. destruct Hin as [Hin Hl]. simpl in Hl.
  apply pystr_eqb_eq in Hl. subst l.
  exists s. repeat split; try assumption.
  intros c' Hc' Hb.
  assert (H' : In c' (filter (fun c0 => pystr_eqb (fst c0) c) (columns df)))
    by (apply filter_In; split; assumption).
  rewrite E in H'. destruct H' as [<- | []]. reflexivity.
Qed.

Lemma getitem_many (c : pystr) (df : DataFrame) :
  2 <= occurrences c df -> exists sub, getitem df c = Ok (ItemFrame sub).
Proof.
  unfold occurrences, getitem. intros H.
  destruct (filter _ (columns df)) as [|[l s] [|y r]]; simpl in H; try lia.
  eexists; reflexivity.
Qed.

Lemma getitem_none (c : pystr) (df : DataFrame) :
  occurrences c df = 0 -> getitem df c = Raise (KeyError c).
Proof.
  unfold occurrences, getitem. intros H.
  destruct (filter _ (columns df)); simpl in H; [reflexivity | lia].
Qed.

Lemma getitem_series_In (df : DataFrame) (c : pystr) (s : Series) :
  getitem df c = Ok (ItemSeries s) -> In (c, s) (columns df).
Proof.
  intros H.
  destruct (Nat.eq_dec (occurrences c df) 1) as [E | E].
  - destruct (getitem_one c df E) as (s' & Hin & Hg & _). congruence.
  - destruct (occurrences c df) as [|[|n]] eqn:E'.
    + rewrite getitem_none in H by assumption. discriminate.
    + congruence.
    + destruct (getitem_many c df) as [sub Hs]; [lia|]. congruence.
Qed.

Lemma setitem_present (df : DataFrame) (c : pystr) (s : Series) :
  In c (labels df) ->
  setitem df c s =
  mkFrame (index df)
    (map (fun x => if pystr_eqb (fst x) c then (fst x, s) else x) (columns df)).
Proof.
  intros H. unfold setitem. apply in_labels_In in H. rewrite H. reflexivity.
Qed.

Lemma setitem_labels (df : DataFrame) (c : pystr) (s : Series) :
  In c (labels df) -> labels (setitem df c s) = labels df.
Proof.
  intros H. rewrite setitem_present by assumption. unfold labels. simpl.
  rewrite map_map. apply map_ext. intros x. destruct (pystr_eqb (fst x) c); reflexivity.
Qed.

(* ===================================================================== *)
(** ** load_data *)
(* ===================================================================== *)

Lemma clean_frame_cols_nil (df : DataFrame) : clean_frame_cols [] df = df.
Proof.
  unfold clean_frame_cols. destruct df as [idx cols]. simpl. f_equal.
  apply map_id.
Qed.

Lemma clean_frame_cols_step (df : DataFrame) (column : pystr) (rest : list pystr) (s : Series) :
  In column (labels df) ->
  (forall c', In c' (columns df) -> pystr_eqb (fst c') column = true -> c' = (column, s)) ->
  ~ In column rest ->
  clean_frame_cols rest (setitem df column (clean_series s))
  = clean_frame_cols (column :: rest) df.
Proof.
  intros Hin Huniq Hnot. rewrite setitem_present by assumption.
  unfold clean_frame_cols. simpl. f_equal. rewrite map_map.
  apply map_ext_in. intros c' Hc'.
  destruct (pystr_eqb (fst c') column) eqn:E.
  - rewrite (Huniq c' Hc' E). simpl.
    destruct (existsb (pystr_eqb column) rest) eqn:Ex.
    + apply existsb_pystr_In in Ex. contradiction.
    + reflexivity.
  - simpl. reflexivity.
Qed.

Lemma forallb_same {A : Type} (f g : A -> bool) (l : list A) :
  (forall x, f x = g x) -> forallb f l = forallb g l.
Proof.
  intros H. induction l as [|x l IH]; simpl; [reflexivity|].
  rewrite H, IH. reflexivity.
Qed.

Lemma setitem_occurrences (df : DataFrame) (column : pystr) (s : Series) (c : pystr) :
  In column (labels df) ->
  occurrences c (setitem df column s) = occurrences c df.
Proof.
  intros H. rewrite !occurrences_labels, setitem_labels by assumption. reflexivity.
Qed.

(** The loop of lines 77-78 cleans each named column once, and raises as
    soon as it meets a label that several columns carry. *)
Lemma clean_columns_spec (cols : list pystr) :
  forall df, NoDup cols -> incl cols (labels df) ->
  clean_columns cols df =
  if forallb (fun c => Nat.eqb (occurrences c df) 1) cols
  then Ok (clean_frame_cols cols df) else Raise AttributeError.
Proof.
  induction cols as [|column rest IH]; intros df Hnd Hincl.
  - simpl. rewrite clean_frame_cols_nil. reflexivity.
  - assert (Hin : In column (labels df)) by (apply Hincl; left; reflexivity).
    inversion Hnd as [|? ? Hnot Hnd']; subst.
    simpl. destruct (Nat.eqb_spec (occurrences column df) 1) as [E | E].
    + destruct (getitem_one column df E) as (s & Hs & Hg & Huniq).
      rewrite Hg. simpl. rewrite clean_string_series_total. simpl.
      rewrite IH.
      * assert (Hocc : forall c, occurrences c (setitem df column (clean_series s))
                                 = occurrences c df).
        { intros c. rewrite !occurrences_labels, setitem_labels by assumption.
          reflexivity. }
        rewrite (forallb_same _ (fun c => Nat.eqb (occurrences c df) 1))
          by (intros c; rewrite Hocc; reflexivity).
        rewrite (clean_frame_cols_step df column rest s Hin Huniq Hnot).
        reflexivity.
      * assumption.
      * rewrite setitem_labels by assumption.
        intros c Hc. apply Hincl. right. assumption.
    + pose proof (occurrences_pos column df Hin) as Hpos.
      destruct (getitem_many column df) as [sub Hsub]; [lia|].
      rewrite Hsub. reflexivity.
Qed.

Lemma clean_columns_dup (cols : list pystr) :
  forall df, incl cols (labels df) ->
  forallb (fun c => Nat.eqb (occurrences c df) 1) cols = false ->
  clean_columns cols df = Raise AttributeError.
Proof.
  induction cols as [|column rest IH]; intros df Hincl Hf; simpl in Hf;
    [discriminate|].
  assert (Hin : In column (labels df)) by (apply Hincl; left; reflexivity).
  simpl. destruct (Nat.eqb_spec (occurrences column df) 1) as [E | E].
  - destruct (getitem_one column df E) as (s & Hs & Hg & Huniq).
    rewrite Hg. simpl. rewrite clean_string_series_total. simpl.
    apply IH.
    + rewrite setitem_labels by assumption.
      intros c Hc. apply Hincl. right. assumption.
    + rewrite <- Hf. simpl. apply forallb_same.
      intros c. rewrite setitem_occurrences by assumption. reflexivity.
  - pose proof (occurrences_pos column df Hin) as Hpos.
    destruct (getitem_many column df) as [sub Hsub]; [lia|].
    rewrite Hsub. reflexivity.
Qed.

Lemma has_unique_labels_NoDup (df : DataFrame) :
  has_unique_labels df = true -> NoDup (labels df).
Proof.
  unfold has_unique_labels. intros H.
  assert (Hocc : forall c, In c (labels df) ->
                 length (filter (fun l => pystr_eqb l c) (labels df)) = 1).
  { intros c Hc. rewrite forallb_forall in H. specialize (H c Hc).
    apply Nat.eqb_eq in H. rewrite occurrences_labels in H. exact H. }
  clear H. induction (labels df) as [|x l IH]; [constructor|].
  constructor.
  - intros Hx. specialize (Hocc x (or_introl eq_refl)). simpl in Hocc.
    rewrite pystr_eqb_refl in Hocc. simpl in Hocc.
    assert (Hpos : 1 <= length (filter (fun l0 => pystr_eqb l0 x) l)).
    { clear -Hx. induction l as [|y l IH]; simpl; [contradiction|].
      destruct Hx as [-> | Hx].
      - rewrite pystr_eqb_refl. simpl. lia.
      - destruct (pystr_eqb y x); simpl; auto with arith. }
    lia.
  - apply IH. intros c Hc. specialize (Hocc c (or_intror Hc)). simpl in Hocc.
    destruct (pystr_eqb x c); simpl in Hocc; [|assumption].
    assert (Hpos : 1 <= length (filter (fun l0 => pystr_eqb l0 c) l)).
    { clear -Hc. induction l as [|y l IH]; simpl; [contradiction|].
      destruct Hc as [-> | Hc].
      - rewrite pystr_eqb_refl. simpl. lia.
      - destruct (pystr_eqb y c); simpl; auto with arith. }
    lia.
Qed.

(** The frame after the header rename and strip. *)
Lemma relabel_columns (raw : DataFrame) :
  map_labels strip (rename_columns RENAME_MAP raw)
  = mkFrame (index raw) (map (fun c => (normal_label (fst c), snd c)) (columns raw)).
Proof.
  unfold map_labels, rename_columns. simpl. rewrite map_map. reflexivity.
Qed.

(** [normalize] succeeds exactly when the renamed, stripped headers are
    pairwise distinct, and then every column has been cleaned. *)
Lemma normalize_spec (raw : DataFrame) :
  normalize raw =
  if has_unique_labels (map_labels strip (rename_columns RENAME_MAP raw))
  then Ok (mkFrame (index raw)
             (map (fun c => (normal_label (fst c), clean_series (snd c))) (columns raw)))
  else Raise AttributeError.
Proof.
  unfold normalize. cbv zeta.
  set (df := map_labels strip (rename_columns RENAME_MAP raw)).
  destruct (has_unique_labels df) eqn:Hu.
  - rewrite clean_columns_spec.
    + unfold has_unique_labels in Hu. rewrite Hu.
      unfold clean_frame_cols. subst df. rewrite relabel_columns. simpl.
      f_equal. f_equal. rewrite map_map. apply map_ext_in. intros c Hc. simpl.
      unfold labels. simpl. rewrite map_map. simpl.
      assert (Hex : existsb (pystr_eqb (normal_label (fst c)))
                      (map (fun x => normal_label (fst x)) (columns raw)) = true).
      { apply existsb_pystr_In. apply in_map_iff. exists c. split; [reflexivity | assumption]. }
      rewrite Hex. reflexivity.
    + apply has_unique_labels_NoDup, Hu.
    + apply incl_refl.
  - apply clean_columns_dup; [apply incl_refl | exact Hu].
Qed.

Lemma redact_columns_incl (d : DataFrame) : incl (columns (redact d)) (columns d).
Proof.
  unfold redact. destruct (filter _ SENSITIVE_COLUMNS); [apply incl_refl|].
  unfold drop. simpl. intros c Hc. apply filter_In in Hc. apply Hc.
Qed.

Lemma redact_index (d : DataFrame) : index (redact d) = index d.
Proof. unfold redact. destruct (filter _ SENSITIVE_COLUMNS); reflexivity. Qed.

Lemma redact_no_sensitive (d : DataFrame) (c : pystr) :
  In c SENSITIVE_COLUMNS -> ~ In c (labels (redact d)).
Proof.
  intros Hs Hin. unfold redact in Hin.
  destruct (filter (fun col => in_labels col d) SENSITIVE_COLUMNS) as [|x dc] eqn:E.
  - assert (H : In c (filter (fun col => in_labels col d) SENSITIVE_COLUMNS)).
    { apply filter_In. split; [assumption | apply in_labels_In; assumption]. }
    rewrite E in H. contradiction.
  - unfold drop, labels in Hin. simpl in Hin.
    apply in_map_iff in Hin. destruct Hin as (col & Hc & Hcol).
    apply filter_In in Hcol. destruct Hcol as [Hcol Hneg].
    assert (H : In c (filter (fun col => in_labels col d) SENSITIVE_COLUMNS)).
    { apply filter_In. split; [assumption|].
      apply in_labels_In. unfold labels. apply in_map_iff. exists col. auto. }
    rewrite E in H. apply existsb_pystr_In in H.
    apply negb_true_iff in Hneg. rewrite Hc in Hneg.
    change (existsb (pystr_eqb c) (x :: dc) = false) in Hneg. congruence.
Qed.

(** What [load_data] returns when it returns. *)
Lemma load_data_inv (raw df : DataFrame) :
  load_data (Workbook raw) = Ok df ->
  df = redact (mkFrame (index raw)
                 (map (fun c => (normal_label (fst c), clean_series (snd c))) (columns raw))).
Proof.
  unfold load_data. rewrite normalize_spec.
  destruct (has_unique_labels _); simpl; [|discriminate].
  intros H; injection H as <-. reflexivity.
Qed.

Lemma load_data_column (raw df : DataFrame) (label : pystr) (s : Series) :
  load_data (Workbook raw) = Ok df -> In (label, s) (columns df) ->
  exists l0 s0, In (l0, s0) (columns raw) /\ label = normal_label l0 /\ s = clean_series s0.
Proof.
  intros H Hin. rewrite (load_data_inv raw df H) in Hin.
  apply redact_columns_incl in Hin. simpl in Hin.
  apply in_map_iff in Hin. destruct Hin as ([l0 s0] & E & Hin0).
  simpl in E. injection E as <- <-. eauto.
Qed.

(** The cells of a cleaned text column. *)
Lemma clean_cell_canonical (x : scalar) :
  clean_cell x = NA
  \/ exists t, clean_cell x = Str t /\ trimmed t /\ t <> [] /\ t <> py "nan".
Proof.
  destruct (clean_cell_cases x) as [E | (t & E & Ht & Hne & Hnan)]; [left; exact E|].
  right. exists t. repeat split; try assumption;
    rewrite Ht; apply strip_trimmed.
Qed.

(** Numeric columns of the workbook holding no text, every text cell of
    the loaded dataset comes out of the cleaning. *)
Lemma load_data_text_cells (raw df : DataFrame) :
  wf_frame raw -> load_data (Workbook raw) = Ok df ->
  forall label s t,
    In (label, s) (columns df) -> In (Str t) (values s) ->
    trimmed t /\ t <> [] /\ t <> py "nan".
Proof.
  intros Hwf Hload label s t Hin Ht.
  destruct (load_data_column raw df label s Hload Hin) as (l0 & s0 & Hin0 & _ & ->).
  unfold wf_frame in Hwf. rewrite Forall_forall in Hwf.
  destruct (Hwf (l0, s0) Hin0) as [_ Hws]. simpl in Hws.
  unfold clean_series in Ht. destruct (dtype_of s0) eqn:Hd.
  - simpl in Ht. apply in_map_iff in Ht. destruct Ht as (y & Hy & _).
    destruct (clean_cell_canonical y) as [E | (t' & E & H1 & H2 & H3)];
      [congruence|].
    assert (t' = t) by congruence. subst t'. auto.
  - destruct Hws as [Hws | Hws]; [congruence|].
    rewrite Forall_forall in Hws. specialize (Hws _ Ht). discriminate.
  - destruct Hws as [Hws | Hws]; [congruence|].
    rewrite Forall_forall in Hws. specialize (Hws _ Ht). discriminate.
Qed.

(* ===================================================================== *)
(** ** C6: the canonical dataset *)
(* ===================================================================== *)

(** C6. For every workbook, the dataset [load_data] produces has no column
    of [SENSITIVE_COLUMNS]; every cell of a text (object) column is [pd.NA]
    or a stripped text that is neither empty nor ["nan"]; and, numeric
    columns of the input holding no text, the same is true of every text
    cell of the dataset.  [load_data] returns whenever the renamed, stripped
    headers are pairwise distinct: a missing sensitive column is no error. *)
Theorem load_data_canonical (raw : DataFrame) :
  (has_unique_labels (map_labels strip (rename_columns RENAME_MAP raw)) = true ->
   exists df, load_data (Workbook raw) = Ok df)
  /\ forall df, load_data (Workbook raw) = Ok df ->
     (forall c, In c SENSITIVE_COLUMNS -> ~ In c (labels df))
     /\ (forall label s x,
           In (label, s) (columns df) -> dtype_of s = object -> In x (values s) ->
           x = NA \/ exists t, x = Str t /\ trimmed t /\ t <> [] /\ t <> py "nan")
     /\ (wf_frame raw ->
         forall label s t,
           In (label, s) (columns df) -> In (Str t) (values s) ->
           trimmed t /\ t <> [] /\ t <> py "nan").
Proof.
  split.
  - intros Hu. unfold load_data. rewrite normalize_spec, Hu. simpl. eauto.
  - intros df Hload. split; [|split].
    + intros c Hc. rewrite (load_data_inv raw df Hload). apply redact_no_sensitive, Hc.
    + intros label s x Hin Hd Hx.
      destruct (load_data_column raw df label s Hload Hin) as (l0 & s0 & Hin0 & _ & ->).
      rewrite clean_series_dtype in Hd.
      unfold clean_series in Hx. rewrite Hd in Hx. simpl in Hx.
      apply in_map_iff in Hx. destruct Hx as (y & <- & _).
      apply clean_cell_canonical.
    + intros Hwf label s t. apply (load_data_text_cells raw df Hwf Hload).
Qed.

Lemma load_data_canonical_witness :
  wf_frame survey_sheet
  /\ load_data (Workbook survey_sheet)
     = Ok (mkFrame [0; 1; 2]
             [ (py "Sex", mkSeries object [Str (py "F"); NA; NA]);
               (py "Educational Background",
                mkSeries object [Str (py "BSc Hons"); Str (py "12"); NA]);
               (py "Score", mkSeries int64 [Int 3; Int 4; Int 5]) ])
  /\ ~ In (py "Secondary Email")
         [py "Sex"; py "Educational Background"; py "Score"]
  /\ (trimmed (py "BSc Hons") /\ py "BSc Hons" <> [] /\ py "BSc Hons" <> py "nan").
Proof.
  assert (Hwf : wf_frame survey_sheet) by solve_wf_frame.
  assert (Hload : load_data (Workbook survey_sheet)
                  = Ok (mkFrame [0; 1; 2]
                          [ (py "Sex", mkSeries object [Str (py "F"); NA; NA]);
                            (py "Educational Background",
                             mkSeries object [Str (py "BSc Hons"); Str (py "12"); NA]);
                            (py "Score", mkSeries int64 [Int 3; Int 4; Int 5]) ]))
    by (vm_compute; reflexivity).
  destruct (proj2 (load_data_canonical survey_sheet) _ Hload) as (Hsens & _ & Htext).
  split; [exact Hwf|]. split; [exact Hload|]. split.
  - apply (Hsens (py "Secondary Email")). simpl. tauto.
  - apply (Htext Hwf (py "Educational Background")
             (mkSeries object [Str (py "BSc Hons"); Str (py "12"); NA])).
    + simpl. tauto.
    + simpl. tauto.
Defined.

(* ===================================================================== *)
(** ** C2: normalising twice *)
(* ===================================================================== *)

Lemma has_unique_labels_same (a b : DataFrame) :
  labels a = labels b -> has_unique_labels a = has_unique_labels b.
Proof.
  intros H. unfold has_unique_labels. rewrite H. apply forallb_same.
  intros c. rewrite !occurrences_labels, H. reflexivity.
Qed.

Lemma map_fixed {A : Type} (f : A -> A) (l : list A) :
  (forall x, In x l -> f x = x) -> map f l = l.
Proof.
  intros H. induction l as [|x l IH]; simpl; [reflexivity|].
  rewrite H by (left; reflexivity). rewrite IH; [reflexivity|].
  intros y Hy. apply H. right. assumption.
Qed.

(** A cleaned column without missing cell is left alone by a second pass. *)
Lemma clean_series_fixed (s0 : Series) :
  (dtype_of s0 = object -> ~ In NA (values (clean_series s0))) ->
  clean_series (clean_series s0) = clean_series s0.
Proof.
  intros H. destruct (dtype_of s0) eqn:Hd.
  - assert (E0 : clean_series s0 = mkSeries object (map clean_cell (values s0)))
      by (unfold clean_series; rewrite Hd; reflexivity).
    rewrite E0 in *. unfold clean_series. simpl. f_equal.
    apply map_fixed. intros x Hx. apply in_map_iff in Hx.
    destruct Hx as (y & <- & Hy).
    destruct (clean_cell_cases y) as [E | (t & E & _)].
    + exfalso. apply H; [reflexivity|]. simpl. rewrite <- E.
      apply in_map. assumption.
    + rewrite E. apply clean_cell_text_fixed with (x := y). exact E.
  - assert (E0 : clean_series s0 = s0)
      by (unfold clean_series; rewrite Hd; reflexivity).
    rewrite E0. exact E0.
  - assert (E0 : clean_series s0 = s0)
      by (unfold clean_series; rewrite Hd; reflexivity).
    rewrite E0. exact E0.
Qed.

Lemma relabel_fixed (cols : list (pystr * Series)) :
  map (fun c => (normal_label (fst c), clean_series (snd c))) cols = cols ->
  map (fun c : pystr * Series => (normal_label (fst c), snd c)) cols = cols.
Proof.
  induction cols as [|[l s] cols IH]; simpl; [reflexivity|].
  intros E. injection E as El Es Ec. rewrite El, (IH Ec). reflexivity.
Qed.

(** C2 (as amended).  A normalised dataset is a fixed point of [normalize]
    when none of its text columns holds a missing cell and none of its
    headers is a key of [RENAME_MAP]. *)
Theorem normalize_idempotent_without_missing (raw df : DataFrame) :
  normalize raw = Ok df ->
  (forall label s, In (label, s) (columns df) -> dtype_of s = object ->
                   ~ In NA (values s)) ->
  (forall label, In label (labels df) -> lookup label RENAME_MAP = None) ->
  normalize df = Ok df.
Proof.
  rewrite normalize_spec.
  destruct (has_unique_labels (map_labels strip (rename_columns RENAME_MAP raw))) eqn:Hu;
    [|discriminate].
  intros H Hna Hkey. injection H as <-.
  set (df := mkFrame (index raw)
               (map (fun c => (normal_label (fst c), clean_series (snd c))) (columns raw))) in *.
  assert (Hfix : map (fun c => (normal_label (fst c), clean_series (snd c))) (columns df)
                 = columns df).
  { apply map_fixed. intros [l s] Hin. simpl.
    assert (Hin' := Hin). subst df. simpl in Hin'.
    apply in_map_iff in Hin'. destruct Hin' as ([l0 s0] & E & Hin0).
    simpl in E. injection E as El Es.
    f_equal.
    - unfold normal_label at 1. rewrite Hkey.
      + rewrite <- El. unfold normal_label. apply strip_idem.
      + unfold labels. apply in_map_iff. exists (l, s). auto.
    - rewrite <- Es. apply clean_series_fixed. intros Hd.
      rewrite Es. apply (Hna l s Hin). rewrite <- Es, clean_series_dtype. exact Hd. }
  assert (Hlab := relabel_fixed (columns df) Hfix).
  rewrite normalize_spec, relabel_columns, Hlab, Hfix.
  replace (mkFrame (index df) (columns df)) with df by (destruct df; reflexivity).
  assert (Hu' : has_unique_labels df = true).
  { rewrite <- Hu. apply has_unique_labels_same.
    subst df. rewrite relabel_columns. unfold labels. simpl. rewrite !map_map.
    reflexivity. }
  rewrite Hu'. reflexivity.
Qed.

Lemma normalize_idempotent_without_missing_witness :
  normalize (mkFrame [0; 1] [(py " Sex ", mkSeries object [Str (py " F"); Str (py "M ")])])
  = Ok (mkFrame [0; 1] [(py "Sex", mkSeries object [Str (py "F"); Str (py "M")])])
  /\ normalize (mkFrame [0; 1] [(py "Sex", mkSeries object [Str (py "F"); Str (py "M")])])
     = Ok (mkFrame [0; 1] [(py "Sex", mkSeries object [Str (py "F"); Str (py "M")])]).
Proof.
  split; [vm_compute; reflexivity|].
  apply (normalize_idempotent_without_missing
           (mkFrame [0; 1] [(py " Sex ", mkSeries object [Str (py " F"); Str (py "M ")])])).
  - vm_compute. reflexivity.
  - intros label s [E | []]. injection E as <- <-.
    intros _ [H | [H | []]]; discriminate.
  - intros label [<- | []]. reflexivity.
Defined.

(** C2, refuted as stated: the blank cell of a text column is [pd.NA]
    after one pass and the text ["<NA>"] after two, at the level of the
    dataset and of the single column. *)
Lemma normalize_twice_differs :
  (df <- normalize sex_sheet ;; normalize df) <> normalize sex_sheet
  /\ (s <- clean_string_series sex_column ;; clean_string_series s)
     <> clean_string_series sex_column.
Proof. split; vm_compute; discriminate. Qed.

(** The two passes, spelled out. *)
Lemma normalize_twice_values :
  normalize sex_sheet
  = Ok (mkFrame [0; 1] [(py "Sex", mkSeries object [Str (py "F"); NA])])
  /\ (df <- normalize sex_sheet ;; normalize df)
     = Ok (mkFrame [0; 1] [(py "Sex", mkSeries object [Str (py "F"); Str (py "<NA>")])]).
Proof. split; vm_compute; reflexivity. Qed.

(** A header that matches a key of [RENAME_MAP] only once stripped is
    renamed by the second pass. *)
Lemma normalize_twice_header :
  let sheet := mkFrame [0] [(py "Start time ", mkSeries object [Str (py "9:00")])] in
  normalize sheet = Ok (mkFrame [0] [(py "Start time", mkSeries object [Str (py "9:00")])])
  /\ (df <- normalize sheet ;; normalize df)
     = Ok (mkFrame [0] [(py "Start Time", mkSeries object [Str (py "9:00")])]).
Proof. split; vm_compute; reflexivity. Qed.

(* ===================================================================== *)
(** ** Row masks and row selection *)
(* ===================================================================== *)

Lemma mask_filter_nil {A : Type} (m : list bool) : mask_filter m (@nil A) = [].
Proof. destruct m as [|[|] m]; reflexivity. Qed.

Lemma mask_filter_map {A B : Type} (f : A -> B) (m : list bool) (l : list A) :
  map f (mask_filter m l) = mask_filter m (map f l).
Proof.
  revert l. induction m as [|b m IH]; intros [|x l]; simpl; try reflexivity.
  destruct b; simpl; rewrite IH; reflexivity.
Qed.

Lemma mask_filter_compose {A : Type} (m1 m2 : list bool) (l : list A) :
  mask_filter (mask_filter m1 m2) (mask_filter m1 l) = mask_filter (andmask m1 m2) l.
Proof.
  revert m2 l. induction m1 as [|b1 m1 IH]; intros m2 l; simpl; [reflexivity|].
  destruct m2 as [|b2 m2]; [reflexivity|].
  destruct l as [|x l].
  - simpl. destruct b1; simpl; rewrite ?mask_filter_nil; reflexivity.
  - destruct b1; simpl; [|apply IH].
    destruct b2; rewrite IH; reflexivity.
Qed.

Lemma mask_filter_all {A : Type} (n : nat) (l : list A) :
  length l <= n -> mask_filter (repeat true n) l = l.
Proof.
  revert l. induction n as [|n IH]; intros [|x l]; simpl; intros H;
    try reflexivity; try lia.
  rewrite IH by lia. reflexivity.
Qed.

Lemma mask_filter_Forall {A : Type} (P : A -> Prop) (m : list bool) (l : list A) :
  Forall P l -> Forall P (mask_filter m l).
Proof.
  intros H. revert m. induction H as [|x l Hx Hl IH]; intros [|b m]; simpl;
    try constructor.
  destruct b; [constructor; [assumption | apply IH] | apply IH].
Qed.

Lemma andmask_length (a b : list bool) :
  length (andmask a b) = Nat.min (length a) (length b).
Proof.
  revert b. induction a as [|x a IH]; intros [|y b]; simpl; try reflexivity.
  rewrite IH. reflexivity.
Qed.

Lemma andmask_assoc (a b c : list bool) :
  andmask (andmask a b) c = andmask a (andmask b c).
Proof.
  revert b c. induction a as [|x a IH]; intros [|y b] [|z c]; simpl; try reflexivity.
  rewrite IH, andb_assoc. reflexivity.
Qed.

Lemma andmask_true_r (m : list bool) (n : nat) :
  length m <= n -> andmask m (repeat true n) = m.
Proof.
  revert n. induction m as [|x m IH]; intros [|n]; simpl; intros H;
    try reflexivity; try lia.
  rewrite IH by lia. rewrite andb_true_r. reflexivity.
Qed.

Lemma andmask_true_l (m : list bool) (n : nat) :
  length m <= n -> andmask (repeat true n) m = m.
Proof.
  revert n. induction m as [|x m IH]; intros [|n]; simpl; intros H;
    try reflexivity; try lia.
  rewrite IH by lia. reflexivity.
Qed.

Lemma nth_andmask (a b : list bool) (i : nat) :
  nth i (andmask a b) false = nth i a false && nth i b false.
Proof.
  revert b i. induction a as [|x a IH]; intros [|y b] [|i]; simpl;
    rewrite ?andb_false_r; try reflexivity.
  apply IH.
Qed.

Lemma nth_repeat_true (n i : nat) : i < n -> nth i (repeat true n) false = true.
Proof.
  revert i. induction n as [|n IH]; intros [|i] H; simpl; try lia; try reflexivity.
  apply IH. lia.
Qed.

Lemma nth_member (selected : list pystr) (vals : list scalar) (i : nat) :
  nth i (map (member selected) vals) false = member selected (nth i vals NaN).
Proof.
  revert i. induction vals as [|x vals IH]; intros [|i]; simpl; try reflexivity.
  apply IH.
Qed.

Lemma member_spec (selected : list pystr) (x : scalar) :
  member selected x = true <-> exists v, x = Str v /\ In v selected.
Proof.
  destruct x; simpl; split; try discriminate.
  - intros H. exists s. split; [reflexivity | apply existsb_pystr_In, H].
  - intros (v & E & H). injection E as ->. apply existsb_pystr_In, H.
  - intros (v & E & _). discriminate.
  - intros (v & E & _). discriminate.
  - intros (v & E & _). discriminate.
Qed.

(** A missing cell is never selected. *)
Lemma member_missing (selected : list pystr) (x : scalar) :
  isna x = true -> member selected x = false.
Proof. destruct x; simpl; congruence. Qed.

Lemma select_rows_labels (m : list bool) (df : DataFrame) :
  labels (select_rows m df) = labels df.
Proof. unfold labels, select_rows. simpl. rewrite map_map. reflexivity. Qed.

Lemma select_rows_dtypes (m : list bool) (df : DataFrame) :
  map (fun c => dtype_of (snd c)) (columns (select_rows m df))
  = map (fun c => dtype_of (snd c)) (columns df).
Proof. unfold select_rows. simpl. rewrite map_map. reflexivity. Qed.

Lemma select_rows_all (df : DataFrame) :
  wf_frame df -> select_rows (repeat true (nrows df)) df = df.
Proof.
  intros Hwf. destruct df as [idx cols]. unfold select_rows, wf_frame, nrows in *.
  simpl in *. f_equal.
  - apply mask_filter_all. lia.
  - apply map_fixed. intros [l [d vals]] Hin. simpl.
    rewrite Forall_forall in Hwf. destruct (Hwf _ Hin) as [Hlen _]. simpl in Hlen.
    rewrite mask_filter_all by lia. reflexivity.
Qed.

Lemma select_rows_compose (m mB : list bool) (df : DataFrame) :
  select_rows (mask_filter m mB) (select_rows m df) = select_rows (andmask m mB) df.
Proof.
  unfold select_rows. simpl. f_equal.
  - apply mask_filter_compose.
  - rewrite map_map. apply map_ext. intros c. simpl.
    rewrite mask_filter_compose. reflexivity.
Qed.

Lemma occurrences_select_rows (c : pystr) (m : list bool) (df : DataFrame) :
  occurrences c (select_rows m df) = occurrences c df.
Proof. rewrite !occurrences_labels, select_rows_labels. reflexivity. Qed.

Lemma getitem_series_occurrences (df : DataFrame) (c : pystr) (s : Series) :
  getitem df c = Ok (ItemSeries s) -> occurrences c df = 1.
Proof.
  unfold getitem, occurrences.
  destruct (filter _ (columns df)) as [|[l s'] [|y r]]; simpl; try discriminate.
  reflexivity.
Qed.

Lemma filter_map_comm {A : Type} (f : A -> bool) (g : A -> A) (l : list A) :
  (forall x, f (g x) = f x) -> filter f (map g l) = map g (filter f l).
Proof.
  intros H. induction l as [|x l IH]; simpl; [reflexivity|].
  rewrite H. destruct (f x); simpl; rewrite IH; reflexivity.
Qed.

Lemma getitem_select_rows (m : list bool) (df : DataFrame) (c : pystr) (s : Series) :
  getitem df c = Ok (ItemSeries s) ->
  getitem (select_rows m df) c
  = Ok (ItemSeries (mkSeries (dtype_of s) (mask_filter m (values s)))).
Proof.
  unfold getitem, select_rows. simpl.
  rewrite filter_map_comm by reflexivity.
  destruct (filter _ (columns df)) as [|[l s'] [|y r]]; simpl; try discriminate.
  intros H. injection H as ->. reflexivity.
Qed.

Lemma getitem_column_values (df : DataFrame) (c : pystr) (s : Series) :
  getitem df c = Ok (ItemSeries s) -> column_values df c = values s.
Proof. unfold column_values. intros ->. reflexivity. Qed.

(* ===================================================================== *)
(** ** apply_filters *)
(* ===================================================================== *)

Lemma filter_loop_inactive opts c sel rest f :
  active opts c sel = false ->
  filter_loop opts ((c, sel) :: rest) f = filter_loop opts rest f.
Proof.
  unfold active. simpl. destruct sel; [reflexivity|].
  intros H. apply negb_false_iff in H. rewrite H. reflexivity.
Qed.

Lemma filter_loop_active opts c sel rest f :
  active opts c sel = true ->
  filter_loop opts ((c, sel) :: rest) f
  = (it <- getitem f c ;;
     match it with
     | ItemSeries s => filter_loop opts rest (select_rows (isin sel s) f)
     | ItemFrame _ => Unmodelled
     end).
Proof.
  unfold active. simpl. destruct sel; [discriminate|].
  intros H. apply negb_true_iff in H. rewrite H. reflexivity.
Qed.

Lemma set_eqb_same_set (a b : list pystr) : set_eqb a b = true <-> same_set a b.
Proof.
  unfold set_eqb, same_set. rewrite andb_true_iff, !forallb_forall. split.
  - intros [H1 H2] x. split; intros H.
    + apply existsb_pystr_In, H1, H.
    + apply existsb_pystr_In, H2, H.
  - intros H. split; intros x Hx; apply existsb_pystr_In, H, Hx.
Qed.

(** The loop, started on the rows a mask [m] keeps of [data], ends on the
    rows that [m] and [keep_mask] both keep. *)
Lemma filter_loop_mask (data : DataFrame) opts :
  wf_frame data ->
  forall sels m out,
    length m = nrows data ->
    filter_loop opts sels (select_rows m data) = Ok out ->
    out = select_rows (andmask m (keep_mask opts sels data)) data
    /\ length (andmask m (keep_mask opts sels data)) = nrows data.
Proof.
  intros Hwf. induction sels as [|[c sel] rest IH]; intros m out Hm Hrun.
  - simpl in *. injection Hrun as <-.
    rewrite andmask_true_r by lia. auto.
  - simpl keep_mask. destruct (active opts c sel) eqn:Hact.
    + rewrite filter_loop_active in Hrun by assumption.
      destruct (getitem (select_rows m data) c) as [[s'|sub]|e|] eqn:Hg;
        simpl in Hrun; try discriminate.
      assert (Hocc : occurrences c data = 1).
      { rewrite <- (occurrences_select_rows c m data).
        eapply getitem_series_occurrences; eassumption. }
      destruct (getitem_one c data Hocc) as (s & Hin & Hgd & _).
      rewrite (getitem_select_rows m data c s Hgd) in Hg. injection Hg as <-.
      rewrite (getitem_column_values data c s Hgd).
      unfold isin in Hrun. simpl in Hrun.
      rewrite mask_filter_map, select_rows_compose in Hrun.
      unfold wf_frame in Hwf. rewrite Forall_forall in Hwf.
      destruct (Hwf _ Hin) as [Hlen _]. simpl in Hlen.
      apply IH in Hrun.
      * rewrite andmask_assoc in Hrun. exact Hrun.
      * rewrite andmask_length, length_map. lia.
    + rewrite filter_loop_inactive in Hrun by assumption. apply IH; assumption.
Qed.

(** The loop returns when each column it acts on is a column of the data. *)
Lemma filter_loop_total (data : DataFrame) opts :
  forall sels f,
    labels f = labels data ->
    (forall c sel, In (c, sel) sels -> active opts c sel = true ->
                   occurrences c data = 1) ->
    exists out, filter_loop opts sels f = Ok out.
Proof.
  induction sels as [|[c sel] rest IH]; intros f Hlab Hocc.
  - simpl. eauto.
  - destruct (active opts c sel) eqn:Hact.
    + rewrite filter_loop_active by assumption.
      assert (H1 : occurrences c f = 1).
      { rewrite occurrences_labels, Hlab, <- occurrences_labels.
        apply (Hocc c sel); [left; reflexivity | assumption]. }
      destruct (getitem_one c f H1) as (s & _ & Hg & _). rewrite Hg. simpl.
      apply IH.
      * rewrite select_rows_labels. assumption.
      * intros c' sel' Hin. apply Hocc. right. assumption.
    + rewrite filter_loop_inactive by assumption. apply IH; [assumption|].
      intros c' sel' Hin. apply Hocc. right. assumption.
Qed.

Lemma keep_mask_length_le (data : DataFrame) opts sels :
  length (keep_mask opts sels data) <= nrows data.
Proof.
  induction sels as [|[c sel] rest IH]; simpl.
  - rewrite repeat_length. lia.
  - destruct (active opts c sel); [|assumption].
    rewrite andmask_length. lia.
Qed.

(** Row [i] is kept exactly when each column the loop acts on holds, in
    that row, one of the texts selected for it. *)
Lemma keep_mask_row (data : DataFrame) opts sels (i : nat) :
  i < nrows data ->
  (nth i (keep_mask opts sels data) false = true <->
   forall c sel, In (c, sel) sels -> active opts c sel = true ->
     exists v, nth i (column_values data c) NaN = Str v /\ In v sel).
Proof.
  intros Hi. induction sels as [|[c sel] rest IH]; simpl.
  - rewrite nth_repeat_true by assumption. split; [contradiction | reflexivity].
  - destruct (active opts c sel) eqn:Hact.
    + rewrite nth_andmask, andb_true_iff, nth_member, member_spec, IH. split.
      * intros [H1 H2] c' sel' [E | Hin] Ha.
        -- injection E as <- <-. exact H1.
        -- apply H2; assumption.
      * intros H. split.
        -- apply H; [left; reflexivity | assumption].
        -- intros c' sel' Hin Ha. apply H; [right|]; assumption.
    + rewrite IH. split.
      * intros H c' sel' [E | Hin] Ha.
        -- injection E as <- <-. congruence.
        -- apply H; assumption.
      * intros H c' sel' Hin Ha. apply H; [right|]; assumption.
Qed.

Lemma wf_age_frame : wf_frame age_frame.
Proof. solve_wf_frame. Qed.

(* ===================================================================== *)
(** ** C1: an empty selection *)
(* ===================================================================== *)

Lemma filter_loop_skips_empty opts sels :
  forall f, filter_loop opts sels f = filter_loop opts (filter nonempty_selection sels) f.
Proof.
  induction sels as [|[c sel] rest IH]; intros f; [reflexivity|].
  destruct sel as [|x sel].
  - simpl. apply IH.
  - change (filter nonempty_selection ((c, x :: sel) :: rest))
      with ((c, x :: sel) :: filter nonempty_selection rest).
    simpl. destruct (set_eqb (x :: sel) (dict_get opts c)); [apply IH|].
    destruct (getitem f c) as [[s|sub]|e|]; simpl; try reflexivity.
    apply IH.
Qed.

(** C1 (as amended).  A column whose selected list is empty is skipped
    (line 94): the result is the one obtained without that column in the
    selection, and a selection made of empty lists only returns the
    dataset as it is. *)
Theorem apply_filters_skips_empty_selection
  (data : DataFrame) (selections options_map : list (pystr * list pystr)) :
  apply_filters data selections options_map
  = apply_filters data (filter nonempty_selection selections) options_map
  /\ (filter nonempty_selection selections = [] ->
      apply_filters data selections options_map = Ok data).
Proof.
  unfold apply_filters. split.
  - apply filter_loop_skips_empty.
  - intros H. rewrite filter_loop_skips_empty, H. reflexivity.
Qed.

Lemma apply_filters_skips_empty_selection_witness :
  filter nonempty_selection [(py "Sex", @nil pystr)] = []
  /\ apply_filters age_frame [(py "Sex", [])] age_options = Ok age_frame.
Proof.
  split; [reflexivity|].
  apply (proj2 (apply_filters_skips_empty_selection age_frame [(py "Sex", [])] age_options)).
  reflexivity.
Defined.

(** C1, refuted as stated: with the empty set selected for [Age Range],
    [apply_filters] returns all five rows. *)
Lemma apply_filters_empty_selection_keeps_rows :
  In (py "Age Range", @nil pystr) [(py "Age Range", @nil pystr)]
  /\ exists out,
       apply_filters age_frame [(py "Age Range", [])] age_options = Ok out
       /\ nrows out = 5.
Proof.
  split; [left; reflexivity|].
  exists age_frame. split; reflexivity.
Qed.

(* ===================================================================== *)
(** ** C3: the full observed domain *)
(* ===================================================================== *)

Lemma same_set_Str (a b : list pystr) (dom : list scalar) :
  same_set (map Str a) dom -> same_set (map Str b) dom -> same_set a b.
Proof.
  intros Ha Hb x.
  assert (Hinj : forall l, In (Str x) (map Str l) <-> In x l).
  { intros l. rewrite in_map_iff. split.
    - intros (y & E & H). injection E as ->. exact H.
    - intros H. exists x. auto. }
  rewrite <- (Hinj a), <- (Hinj b), (Ha (Str x)), (Hb (Str x)). reflexivity.
Qed.

Lemma filter_loop_all_inactive opts sels :
  forall f,
    (forall c sel, In (c, sel) sels -> active opts c sel = false) ->
    filter_loop opts sels f = Ok f.
Proof.
  induction sels as [|[c sel] rest IH]; intros f H; [reflexivity|].
  rewrite filter_loop_inactive by (apply H; left; reflexivity).
  apply IH. intros c' sel' Hin. apply H. right. assumption.
Qed.

(** C3.  When, for every column of the selection, the selected texts are
    exactly the distinct non-missing values of that column in the dataset
    (and [options_map] lists those values, as [main] builds it), then
    [apply_filters] returns the dataset itself: no row is excluded, rows
    with a missing value on a selected column included. *)
Theorem apply_filters_full_domain_noop
  (data : DataFrame) (selections options_map : list (pystr * list pystr)) :
  (forall c sel, In (c, sel) selections ->
     same_set (map Str sel) (observed_domain data c)
     /\ same_set (map Str (dict_get options_map c)) (observed_domain data c)) ->
  apply_filters data selections options_map = Ok data.
Proof.
  intros H. unfold apply_filters, copy. apply filter_loop_all_inactive.
  intros c sel Hin. destruct (H c sel Hin) as [Hs Ho].
  unfold active. destruct sel as [|x sel]; [reflexivity|].
  apply negb_false_iff, set_eqb_same_set.
  eapply same_set_Str; eassumption.
Qed.

Lemma apply_filters_full_domain_noop_witness :
  observed_domain age_frame (py "Age Range") = [Str (py "18-24"); Str (py "25-34")]
  /\ In NA (column_values age_frame (py "Age Range"))
  /\ apply_filters age_frame [(py "Age Range", [py "25-34"; py "18-24"])] age_options
     = Ok age_frame.
Proof.
  split; [vm_compute; reflexivity|].
  split; [vm_compute; tauto|].
  apply apply_filters_full_domain_noop.
  intros c sel [E | []]. injection E as <- <-.
  split; intros x; vm_compute; tauto.
Defined.

(* ===================================================================== *)
(** ** C4: a proper selection *)
(* ===================================================================== *)

(** Lines 93-99 on data whose columns have one value per row, when each
    column the loop acts on names one column of the data. *)
Lemma apply_filters_mask
  (data : DataFrame) (selections options_map : list (pystr * list pystr)) :
  wf_frame data ->
  (forall c sel, In (c, sel) selections -> active options_map c sel = true ->
     occurrences c data = 1) ->
  apply_filters data selections options_map
  = Ok (select_rows (keep_mask options_map selections data) data)
  /\ length (keep_mask options_map selections data) = nrows data.
Proof.
  intros Hwf Hocc.
  destruct (filter_loop_total data options_map selections data eq_refl Hocc) as [out Hout].
  assert (Hrun : filter_loop options_map selections
                   (select_rows (repeat true (nrows data)) data) = Ok out)
    by (rewrite select_rows_all by assumption; exact Hout).
  apply (filter_loop_mask data options_map Hwf) in Hrun; [|apply repeat_length].
  rewrite andmask_true_l in Hrun by apply keep_mask_length_le.
  destruct Hrun as [-> Hlen]. split; [exact Hout | exact Hlen].
Qed.

(** C4.  On a dataset whose columns have one value per row, and when each
    column the loop acts on (selected list neither empty nor equal, as a
    set, to the column's options) names one column of the dataset,
    [apply_filters] returns the rows [keep_mask] keeps: row [i] is kept
    exactly when, for each such column, its cell is a text of the selected
    list, so a row whose cell is missing there is dropped.  On the Age
    Range example, selecting ["18-24"] returns exactly the two rows that
    hold it. *)
Theorem apply_filters_keeps_selected_rows :
  (forall (data : DataFrame) (selections options_map : list (pystr * list pystr)),
     wf_frame data ->
     (forall c sel, In (c, sel) selections -> active options_map c sel = true ->
        occurrences c data = 1) ->
     apply_filters data selections options_map
     = Ok (select_rows (keep_mask options_map selections data) data)
     /\ length (keep_mask options_map selections data) = nrows data
     /\ forall i, i < nrows data ->
          (nth i (keep_mask options_map selections data) false = true <->
           forall c sel, In (c, sel) selections -> active options_map c sel = true ->
             exists v, nth i (column_values data c) NaN = Str v /\ In v sel))
  /\ apply_filters age_frame [(py "Age Range", [py "18-24"])] age_options
     = Ok (mkFrame [0; 2]
             [ (py "Age Range", mkSeries object [Str (py "18-24"); Str (py "18-24")]);
               (py "Sex", mkSeries object [Str (py "F"); NA]) ]).
Proof.
  split; [|reflexivity].
  intros data selections options_map Hwf Hocc.
  destruct (apply_filters_mask data selections options_map Hwf Hocc) as [Hrun Hlen].
  split; [exact Hrun|]. split; [exact Hlen|].
  intros i Hi. apply keep_mask_row, Hi.
Qed.

Lemma apply_filters_keeps_selected_rows_witness :
  wf_frame age_frame
  /\ active age_options (py "Age Range") [py "18-24"] = true
  /\ keep_mask age_options [(py "Age Range", [py "18-24"])] age_frame
     = [true; false; true; false; false]
  /\ apply_filters age_frame [(py "Age Range", [py "18-24"])] age_options
     = Ok (select_rows [true; false; true; false; false] age_frame).
Proof.
  split; [exact wf_age_frame|]. split; [reflexivity|]. split; [reflexivity|].
  assert (Hocc : forall c sel,
             In (c, sel) [(py "Age Range", [py "18-24"])] ->
             active age_options c sel = true -> occurrences c age_frame = 1).
  { intros c sel [E | []] _. injection E as <- <-. reflexivity. }
  exact (proj1 (proj1 apply_filters_keeps_selected_rows
                  age_frame [(py "Age Range", [py "18-24"])] age_options
                  wf_age_frame Hocc)).
Defined.

(* ===================================================================== *)
(** ** C10: what apply_filters leaves alone *)
(* ===================================================================== *)

Lemma nth_error_alloc (h : store) (df : DataFrame) :
  nth_error (h ++ [df]) (length h) = Some df.
Proof. rewrite nth_error_app2 by lia. rewrite Nat.sub_diag. reflexivity. Qed.

Lemma nth_error_grow (h h2 : store) (p : nat) (x : DataFrame) :
  nth_error h p = Some x -> nth_error (h ++ h2) p = Some x.
Proof.
  intros H. rewrite nth_error_app1; [exact H|].
  apply nth_error_Some. congruence.
Qed.

(** The loop over the store computes what [filter_loop] computes, in a
    frame of its own, and only adds frames to the store. *)
Lemma filter_loop_store_sim opts items :
  forall f r h,
    nth_error h r = Some f ->
    match filter_loop opts items f with
    | Ok out => exists r' h2,
        filter_loop_store opts items r h = Ok (r', h ++ h2)
        /\ nth_error (h ++ h2) r' = Some out
        /\ r <= r'
    | Raise e => filter_loop_store opts items r h = Raise e
    | Unmodelled => filter_loop_store opts items r h = Unmodelled
    end.
Proof.
  induction items as [|[c sel] rest IH]; intros f r h Hr.
  - simpl. exists r, []. rewrite app_nil_r. auto.
  - destruct sel as [|x sel]; [simpl; apply IH; assumption|].
    simpl. destruct (set_eqb (x :: sel) (dict_get opts c)); [apply IH; assumption|].
    rewrite Hr.
    destruct (getitem f c) as [[s|sub]|e|]; simpl; try reflexivity.
    set (f' := select_rows (isin (x :: sel) s) f).
    specialize (IH f' (length h) (h ++ [f']) (nth_error_alloc h f')).
    destruct (filter_loop opts rest f') as [out|e|]; try assumption.
    destruct IH as (r' & h2 & Hrun & Hout & Hle).
    exists r', (f' :: h2).
    replace (h ++ f' :: h2) with ((h ++ [f']) ++ h2)
      by (rewrite <- app_assoc; reflexivity).
    assert (Hlt : r < length h) by (apply nth_error_Some; congruence).
    repeat split; [assumption | assumption | lia].
Qed.

Lemma filter_loop_labels opts sels :
  forall f out, filter_loop opts sels f = Ok out ->
    labels out = labels f
    /\ map (fun c => dtype_of (snd c)) (columns out)
       = map (fun c => dtype_of (snd c)) (columns f).
Proof.
  induction sels as [|[c sel] rest IH]; intros f out H.
  - simpl in H. injection H as <-. auto.
  - destruct (active opts c sel) eqn:Hact.
    + rewrite filter_loop_active in H by assumption.
      destruct (getitem f c) as [[s|sub]|e|]; simpl in H; try discriminate.
      apply IH in H. rewrite select_rows_labels, select_rows_dtypes in H. exact H.
    + rewrite filter_loop_inactive in H by assumption. apply IH, H.
Qed.

(** What a returned dataset is, relative to the data it was filtered from. *)
Lemma apply_filters_select_rows
  (data : DataFrame) (selections options_map : list (pystr * list pystr)) (out : DataFrame) :
  wf_frame data ->
  apply_filters data selections options_map = Ok out ->
  exists mask, length mask = nrows data /\ out = select_rows mask data.
Proof.
  intros Hwf H. unfold apply_filters, copy in H.
  rewrite <- (select_rows_all data Hwf) in H at 1.
  apply (filter_loop_mask data options_map Hwf) in H; [|apply repeat_length].
  destruct H as [-> Hlen]. eauto.
Qed.

(** C10.  [apply_filters], called on the frame a reference [data] names,
    returns a reference to a frame of its own, made during the call: every
    frame of the store, the input among them, is afterwards what it was
    before.  The frame
    returned has the columns of the input, in the same order and of the
    same dtypes, and its rows are rows of the input, in the same order and
    with the same cells: one mask selects them in the index and in every
    column. *)
Theorem apply_filters_frame_effect
  (h h' : store) (data r : nat) (selections options_map : list (pystr * list pystr)) :
  apply_filters_store data selections options_map h = Ok (r, h') ->
  exists d out,
    nth_error h data = Some d
    /\ (forall p x, nth_error h p = Some x -> nth_error h' p = Some x)
    /\ length h <= r
    /\ nth_error h' r = Some out
    /\ apply_filters d selections options_map = Ok out
    /\ labels out = labels d
    /\ map (fun c => dtype_of (snd c)) (columns out)
       = map (fun c => dtype_of (snd c)) (columns d)
    /\ (wf_frame d ->
        exists mask, length mask = nrows d /\ out = select_rows mask d).
Proof.
  unfold apply_filters_store, alloc. intros H.
  destruct (nth_error h data) as [d|] eqn:Hd; [|discriminate].
  pose proof (filter_loop_store_sim options_map selections (copy d) (length h)
                (h ++ [copy d]) (nth_error_alloc h (copy d))) as Hsim.
  destruct (filter_loop options_map selections (copy d)) as [out|e|] eqn:Hpure;
    try congruence.
  destruct Hsim as (r' & h2 & Hrun & Hout & Hle).
  rewrite Hrun in H. injection H as <- <-.
  exists d, out.
  split; [reflexivity|].
  split.
  { intros p x Hp. rewrite <- app_assoc. apply nth_error_grow, Hp. }
  split; [exact Hle|].
  split; [exact Hout|].
  split; [exact Hpure|].
  destruct (filter_loop_labels options_map selections (copy d) out Hpure) as [Hl Ht].
  split; [exact Hl|]. split; [exact Ht|].
  intros Hwf. apply (apply_filters_select_rows d selections options_map out Hwf Hpure).
Qed.

Lemma apply_filters_frame_effect_witness :
  apply_filters_store 0 [(py "Age Range", [py "18-24"])] age_options [age_frame]
  = Ok (2, [age_frame; age_frame; select_rows [true; false; true; false; false] age_frame])
  /\ exists d out,
       nth_error [age_frame] 0 = Some d
       /\ nth_error [age_frame; age_frame;
                     select_rows [true; false; true; false; false] age_frame] 0 = Some d
       /\ apply_filters d [(py "Age Range", [py "18-24"])] age_options = Ok out
       /\ labels out = labels d.
Proof.
  assert (Hrun : apply_filters_store 0 [(py "Age Range", [py "18-24"])] age_options [age_frame]
                 = Ok (2, [age_frame; age_frame;
                           select_rows [true; false; true; false; false] age_frame]))
    by reflexivity.
  split; [exact Hrun|].
  destruct (apply_filters_frame_effect _ _ _ _ _ _ Hrun)
    as (d & out & Hd & Hkeep & _ & _ & Hpure & Hlab & _).
  exists d, out. split; [exact Hd|]. split; [apply Hkeep, Hd|]. auto.
Defined.

(* ===================================================================== *)
(** ** Order: precedes, insertion, sorting *)
(* ===================================================================== *)

Lemma precedes_nil {A : Type} (x y : A) : ~ precedes x y [].
Proof. intros (l1 & l2 & l3 & H). destruct l1; discriminate. Qed.

Lemma precedes_cons_inv {A : Type} (x y a : A) (l : list A) :
  precedes x y (a :: l) -> (x = a /\ In y l) \/ precedes x y l.
Proof.
  intros (l1 & l2 & l3 & H). destruct l1 as [|b l1]; simpl in H.
  - injection H as -> ->. left. split; [reflexivity|].
    apply in_or_app. right. left. reflexivity.
  - injection H as -> ->. right. exists l1, l2, l3. reflexivity.
Qed.

Lemma precedes_cons {A : Type} (x y a : A) (l : list A) :
  precedes x y l -> precedes x y (a :: l).
Proof. intros (l1 & l2 & l3 & ->). exists (a :: l1), l2, l3. reflexivity. Qed.

Lemma precedes_head {A : Type} (x y : A) (l : list A) :
  In y l -> precedes x y (x :: l).
Proof.
  intros H. apply in_split in H. destruct H as (l2 & l3 & ->).
  exists [], l2, l3. reflexivity.
Qed.

Lemma nth_error_precedes {A : Type} (l : list A) :
  forall i j x y, i < j -> nth_error l i = Some x -> nth_error l j = Some y ->
                  precedes x y l.
Proof.
  induction l as [|a l IH]; intros i j x y Hij Hi Hj.
  - destruct i; discriminate.
  - destruct j as [|j]; [lia|]. simpl in Hj. destruct i as [|i]; simpl in Hi.
    + injection Hi as ->. apply precedes_head. eapply nth_error_In; eassumption.
    + apply precedes_cons. apply (IH i j); [lia | assumption | assumption].
Qed.

Lemma goes_above_true (rank : scalar -> nat) (e e' : scalar * nat) :
  goes_above rank e e' = true -> snd e' <= snd e.
Proof.
  unfold goes_above. rewrite orb_true_iff, andb_true_iff, Nat.ltb_lt, Nat.eqb_eq.
  intros [H | [H _]]; lia.
Qed.

Lemma goes_above_false (rank : scalar -> nat) (e e' : scalar * nat) :
  goes_above rank e e' = false -> snd e <= snd e'.
Proof.
  unfold goes_above. rewrite orb_false_iff, Nat.ltb_ge. intros [H _]. exact H.
Qed.

Lemma insert_desc_In (rank : scalar -> nat) (e x : scalar * nat) (l : list (scalar * nat)) :
  In x (insert_desc rank e l) <-> x = e \/ In x l.
Proof.
  induction l as [|a l IH]; simpl.
  - split; intros [H | H]; auto.
  - destruct (goes_above rank e a); simpl; [split; intros [H | H]; auto|].
    rewrite IH. tauto.
Qed.

Lemma sort_by_In (rank : scalar -> nat) (x : scalar * nat) (l : list (scalar * nat)) :
  In x (sort_by rank l) <-> In x l.
Proof.
  induction l as [|a l IH]; simpl; [reflexivity|].
  rewrite insert_desc_In, IH. split; intros [H | H]; auto.
Qed.

Lemma sort_desc_In (x : scalar * nat) (l : list (scalar * nat)) :
  In x (sort_desc l) <-> In x l.
Proof. apply sort_by_In. Qed.

Lemma insert_desc_sum (rank : scalar -> nat) (e : scalar * nat) (l : list (scalar * nat)) :
  sum_counts (insert_desc rank e l) = snd e + sum_counts l.
Proof.
  induction l as [|a l IH]; simpl; [reflexivity|].
  destruct (goes_above rank e a); simpl; [reflexivity|].
  rewrite IH. lia.
Qed.

Lemma sort_by_sum (rank : scalar -> nat) (l : list (scalar * nat)) :
  sum_counts (sort_by rank l) = sum_counts l.
Proof.
  induction l as [|a l IH]; simpl; [reflexivity|].
  rewrite insert_desc_sum, IH. reflexivity.
Qed.

Lemma sort_desc_sum (l : list (scalar * nat)) : sum_counts (sort_desc l) = sum_counts l.
Proof. apply sort_by_sum. Qed.

Lemma sort_desc_nil (l : list (scalar * nat)) : sort_desc l = [] <-> l = [].
Proof.
  split; [|intros ->; reflexivity].
  destruct l as [|a l]; [reflexivity|]. intros H.
  assert (Hin : In a (sort_desc (a :: l))) by (apply sort_desc_In; left; reflexivity).
  rewrite H in Hin. contradiction.
Qed.

Lemma descending_tail (a : scalar * nat) (l : list (scalar * nat)) :
  descending (a :: l) -> descending l.
Proof. intros H x y Hp. apply H, precedes_cons, Hp. Qed.

(** Where an inserted entry stands relative to the others. *)
Lemma insert_desc_precedes (rank : scalar -> nat) (e : scalar * nat)
  (l : list (scalar * nat)) (x y : scalar * nat) :
  descending l ->
  precedes x y (insert_desc rank e l) ->
  precedes x y l
  \/ (x = e /\ In y l /\ snd y <= snd e)
  \/ (y = e /\ In x l /\ snd e <= snd x).
Proof.
  induction l as [|a l IH]; intros Hd Hp; simpl in Hp.
  - apply precedes_cons_inv in Hp. destruct Hp as [[_ []] | Hp].
    exfalso. eapply precedes_nil; eassumption.
  - destruct (goes_above rank e a) eqn:Ea.
    + apply goes_above_true in Ea.
      apply precedes_cons_inv in Hp. destruct Hp as [[-> Hy] | Hp]; [|left; exact Hp].
      right. left. split; [reflexivity|]. split; [exact Hy|].
      destruct Hy as [<- | Hy]; [exact Ea|].
      specialize (Hd a y (precedes_head a y l Hy)). lia.
    + apply goes_above_false in Ea.
      apply precedes_cons_inv in Hp. destruct Hp as [[-> Hy] | Hp].
      * apply insert_desc_In in Hy. destruct Hy as [-> | Hy].
        -- right. right. split; [reflexivity|]. split; [left; reflexivity | exact Ea].
        -- left. apply precedes_head, Hy.
      * destruct (IH (descending_tail a l Hd) Hp) as [H | [(-> & Hy & Hs) | (-> & Hx & Hs)]].
        -- left. apply precedes_cons, H.
        -- right. left. split; [reflexivity|]. split; [right; exact Hy | exact Hs].
        -- right. right. split; [reflexivity|]. split; [right; exact Hx | exact Hs].
Qed.

Lemma sort_by_descending (rank : scalar -> nat) (l : list (scalar * nat)) :
  descending (sort_by rank l).
Proof.
  induction l as [|e l IH]; simpl.
  - intros x y Hp. exfalso. eapply precedes_nil; eassumption.
  - intros x y Hp.
    destruct (insert_desc_precedes rank e (sort_by rank l) x y IH Hp)
      as [H | [(-> & _ & Hs) | (-> & _ & Hs)]].
    + apply IH, H.
    + exact Hs.
    + exact Hs.
Qed.

(** Whatever the sort does with entries of equal count, counts never
    increase along the table. *)
Lemma sort_desc_descending (l : list (scalar * nat)) : descending (sort_desc l).
Proof. apply sort_by_descending. Qed.

(* ===================================================================== *)
(** ** Counting distinct values *)
(* ===================================================================== *)

Lemma unique_from_In (l seen : list scalar) (x : scalar) :
  In x (unique_from seen l) <-> In x l /\ ~ In x seen.
Proof.
  revert seen. induction l as [|a l IH]; intros seen; simpl; [tauto|].
  destruct (mem a seen) eqn:E.
  - rewrite IH. apply mem_In in E. split.
    + intros [H1 H2]. auto.
    + intros [[-> | H1] H2]; [contradiction | auto].
  - assert (Ha : ~ In a seen) by (rewrite <- mem_In; congruence).
    simpl. rewrite IH. simpl. split.
    + intros [-> | [H1 H2]]; [auto|]. split; [auto | tauto].
    + intros [[-> | H1] H2]; [auto|].
      destruct (scalar_eqb a x) eqn:Eax.
      * apply scalar_eqb_eq in Eax. auto.
      * apply scalar_eqb_neq in Eax. right. split; [assumption|]. tauto.
Qed.

Lemma unique_In (l : list scalar) (x : scalar) : In x (unique l) <-> In x l.
Proof. unfold unique. rewrite unique_from_In. simpl. tauto. Qed.

Lemma unique_nil (l : list scalar) : unique l = [] <-> l = [].
Proof.
  split; [|intros ->; reflexivity].
  destruct l as [|a l]; [reflexivity|]. intros H.
  assert (Hin : In a (unique (a :: l))) by (apply unique_In; left; reflexivity).
  rewrite H in Hin. contradiction.
Qed.

Lemma count_cons_neq (k x : scalar) (l : list scalar) :
  k <> x -> count k (x :: l) = count k l.
Proof. intros H. unfold count. simpl. apply scalar_eqb_neq in H. rewrite H. reflexivity. Qed.

Lemma count_cons_eq (x : scalar) (l : list scalar) : count x (x :: l) = S (count x l).
Proof. unfold count. simpl. rewrite scalar_eqb_refl. reflexivity. Qed.

Lemma count_pos (x : scalar) (l : list scalar) : In x l <-> 0 < count x l.
Proof.
  unfold count. induction l as [|a l IH]; simpl; [split; [contradiction | lia]|].
  destruct (scalar_eqb x a) eqn:E; simpl.
  - apply scalar_eqb_eq in E. split; [lia | auto].
  - apply scalar_eqb_neq in E. rewrite <- IH. split; [intros [H | H]; congruence | auto].
Qed.

Lemma count_split (x : scalar) (seen l : list scalar) :
  ~ In x seen ->
  length (filter (fun y => negb (mem y seen)) l)
  = count x l + length (filter (fun y => negb (mem y (x :: seen))) l).
Proof.
  intros Hx. unfold count. induction l as [|a l IH]; simpl in *; [reflexivity|].
  rewrite (scalar_eqb_sym a x).
  destruct (scalar_eqb x a) eqn:E; simpl.
  - apply scalar_eqb_eq in E. subst a.
    assert (Em : mem x seen = false).
    { destruct (mem x seen) eqn:Em; [apply mem_In in Em; contradiction | reflexivity]. }
    rewrite Em. simpl. rewrite IH. reflexivity.
  - destruct (mem a seen); simpl; rewrite IH; lia.
Qed.

Lemma sum_counts_unique_from (l seen : list scalar) :
  sum_counts (map (fun k => (k, count k l)) (unique_from seen l))
  = length (filter (fun y => negb (mem y seen)) l).
Proof.
  revert seen. induction l as [|x l IH]; intros seen; [reflexivity|].
  assert (Hext : forall s' : list scalar,
             (forall k, In k (unique_from s' l) -> k <> x) ->
             map (fun k => (k, count k (x :: l))) (unique_from s' l)
             = map (fun k => (k, count k l)) (unique_from s' l)).
  { intros s' H. apply map_ext_in. intros k Hk.
    rewrite count_cons_neq by (apply H; assumption). reflexivity. }
  simpl unique_from. simpl filter. destruct (mem x seen) eqn:E; simpl.
  - rewrite Hext; [apply IH|].
    intros k Hk. apply unique_from_In in Hk. apply mem_In in E. intros ->. tauto.
  - fold (count x (x :: l)). rewrite count_cons_eq.
    rewrite Hext.
    + rewrite IH. rewrite (count_split x seen l); [lia|].
      rewrite <- mem_In. congruence.
    + intros k Hk. apply unique_from_In in Hk. simpl in Hk. intros ->. tauto.
Qed.

(** The counts of the distinct values add up to the number of values. *)
Lemma sum_counts_unique (l : list scalar) :
  sum_counts (map (fun k => (k, count k l)) (unique l)) = length l.
Proof.
  unfold unique. rewrite sum_counts_unique_from. simpl.
  induction l as [|x l IH]; simpl; congruence.
Qed.

(* ===================================================================== *)
(** ** The counts tables *)
(* ===================================================================== *)

Lemma qualifies_notna (x : scalar) : qualifies x = true -> notna x = true.
Proof. unfold qualifies. intros H. apply andb_true_iff in H. apply H. Qed.

Lemma filter_fixed {A : Type} (f : A -> bool) (l : list A) :
  Forall (fun x => f x = true) l -> filter f l = l.
Proof.
  induction 1 as [|x l Hx Hl IH]; simpl; [reflexivity|].
  rewrite Hx, IH. reflexivity.
Qed.

Lemma filter_notna_qualifies (l : list scalar) :
  filter notna (filter qualifies l) = filter qualifies l.
Proof.
  apply filter_fixed, Forall_forall. intros x Hx.
  apply filter_In in Hx. apply qualifies_notna, Hx.
Qed.

(** Lines 105-107: what is left are the values that qualify. *)
Lemma qualifying_values (s : Series) :
  values (qualifying s) = filter qualifies (values s).
Proof.
  unfold qualifying, dropna, replace_values. simpl.
  change (py "") with (@nil N).
  induction (values s) as [|x l IH]; simpl; [reflexivity|].
  destruct x as [t | n | |]; simpl; try assumption.
  - unfold qualifies at 1. simpl.
    destruct (pystr_eqb t []) eqn:E; simpl.
    + exact IH.
    + rewrite IH. reflexivity.
  - rewrite IH. reflexivity.
Qed.

Lemma value_counts_In (s : Series) (k : scalar) (n : nat) :
  In (k, n) (value_counts s)
  <-> In k (filter notna (values s)) /\ n = count k (filter notna (values s)).
Proof.
  unfold value_counts. rewrite sort_desc_In, in_map_iff. split.
  - intros (k' & E & Hk). injection E as -> <-. rewrite unique_In in Hk. auto.
  - intros [Hk ->]. exists k. split; [reflexivity | rewrite unique_In; exact Hk].
Qed.

Lemma value_counts_nil (s : Series) :
  value_counts s = [] <-> filter notna (values s) = [].
Proof.
  unfold value_counts. rewrite sort_desc_nil. split.
  - intros H. apply map_eq_nil in H. apply unique_nil, H.
  - intros ->. reflexivity.
Qed.

Lemma value_counts_sum (s : Series) :
  sum_counts (value_counts s) = length (filter notna (values s)).
Proof. unfold value_counts. rewrite sort_desc_sum. apply sum_counts_unique. Qed.

(** The first entry of a counts table has the largest count. *)
Lemma value_counts_top (s : Series) (label : scalar) (n : nat) (rest : list (scalar * nat)) :
  value_counts s = (label, n) :: rest ->
  In label (filter notna (values s))
  /\ n = count label (filter notna (values s))
  /\ forall x, count x (filter notna (values s)) <= n.
Proof.
  intros H.
  assert (Hhead : In (label, n) (value_counts s)) by (rewrite H; left; reflexivity).
  apply value_counts_In in Hhead. destruct Hhead as [Hin Hn].
  split; [exact Hin|]. split; [exact Hn|].
  intros x. set (vals := filter notna (values s)) in *.
  destruct (count x vals) as [|c] eqn:Hc; [lia|].
  assert (Hx : In x vals) by (apply count_pos; lia).
  assert (Hxin : In (x, count x vals) (value_counts s))
    by (apply value_counts_In; auto).
  rewrite H in Hxin. destruct Hxin as [E | Hxin].
  - injection E as _ E. lia.
  - assert (Hd : descending (value_counts s)) by apply sort_desc_descending.
    rewrite H in Hd.
    specialize (Hd (label, n) (x, count x vals)
                  (precedes_head (label, n) (x, count x vals) rest Hxin)).
    simpl in Hd. lia.
Qed.

Lemma category_counts_values (s : Series) :
  filter notna (values (qualifying s)) = filter qualifies (values s).
Proof. rewrite qualifying_values. apply filter_notna_qualifies. Qed.

(* ===================================================================== *)
(** ** C7: the counts add up *)
(* ===================================================================== *)

Lemma load_data_wf (raw data : DataFrame) :
  wf_frame raw -> load_data (Workbook raw) = Ok data -> wf_frame data.
Proof.
  intros Hwf H. rewrite (load_data_inv raw data H).
  unfold wf_frame, nrows in *. rewrite redact_index. simpl.
  rewrite Forall_forall in *. intros [l s] Hin.
  apply redact_columns_incl in Hin. simpl in Hin.
  apply in_map_iff in Hin. destruct Hin as ([l0 s0] & E & Hin0).
  simpl in E. injection E as <- <-. simpl.
  destruct (Hwf _ Hin0) as [Hlen Hws]. simpl in Hlen, Hws.
  split; [rewrite clean_series_length; exact Hlen|].
  unfold wf_series, clean_series in *.
  destruct (dtype_of s0) eqn:Hd; simpl; [left; reflexivity | |];
    rewrite Hd; exact Hws.
Qed.

(** No cell of a dataset of the pipeline is the empty text. *)
Lemma pipeline_no_empty_text
  (raw data filtered : DataFrame) (selections options_map : list (pystr * list pystr))
  (c : pystr) (s : Series) :
  wf_frame raw ->
  load_data (Workbook raw) = Ok data ->
  apply_filters data selections options_map = Ok filtered ->
  getitem filtered c = Ok (ItemSeries s) ->
  Forall (fun x => x <> Str []) (values s).
Proof.
  intros Hwf Hload Hf Hg.
  destruct (apply_filters_select_rows data selections options_map filtered
              (load_data_wf raw data Hwf Hload) Hf) as (mask & _ & ->).
  apply getitem_series_In in Hg. unfold select_rows in Hg. simpl in Hg.
  apply in_map_iff in Hg. destruct Hg as ([l0 s0] & E & Hin0).
  simpl in E. injection E as <- <-. simpl.
  apply mask_filter_Forall, Forall_forall. intros x Hx ->.
  destruct (load_data_text_cells raw data Hwf Hload l0 s0 [] Hin0 Hx) as (_ & Hne & _).
  congruence.
Qed.

Lemma qualifies_without_empty (l : list scalar) :
  Forall (fun x => x <> Str []) l -> filter qualifies l = filter notna l.
Proof.
  induction 1 as [|x l Hx Hl IH]; simpl; [reflexivity|].
  unfold qualifies at 1. apply scalar_eqb_neq in Hx. rewrite Hx, andb_true_r, IH.
  reflexivity.
Qed.

(** The counts of [single_select_chart] / [summarize_category] add up to
    the number of values that qualify. *)
Lemma category_counts_sum (s : Series) :
  sum_counts (category_counts s) = length (filter qualifies (values s)).
Proof.
  unfold category_counts. rewrite value_counts_sum, category_counts_values.
  reflexivity.
Qed.

(** C7.  For every dataset of the pipeline (a workbook loaded by
    [load_data], then filtered by [apply_filters]) and every column of it,
    the counts of the single-valued aggregate add up to the number of
    non-missing values of the column. *)
Theorem single_valued_counts_conserved
  (raw data filtered : DataFrame) (selections options_map : list (pystr * list pystr))
  (c : pystr) (s : Series) :
  wf_frame raw ->
  load_data (Workbook raw) = Ok data ->
  apply_filters data selections options_map = Ok filtered ->
  getitem filtered c = Ok (ItemSeries s) ->
  sum_counts (category_counts s) = length (values (dropna s)).
Proof.
  intros Hwf Hload Hf Hg. rewrite category_counts_sum.
  rewrite qualifies_without_empty; [reflexivity|].
  eapply pipeline_no_empty_text; eassumption.
Qed.

(* ===================================================================== *)
(** ** C8: the order of the table *)
(* ===================================================================== *)

(** C8.  In the single-valued counts table an entry never has a larger
    count than an entry above it, however the sort leaves the entries of
    equal count.  (Their order is not the one in which the categories are
    first seen: [category_counts_ties_not_first_seen], after the section.) *)
Theorem category_counts_order
  (s : Series) (i j : nat) (ci cj : scalar) (ni nj : nat) :
  i < j ->
  nth_error (category_counts s) i = Some (ci, ni) ->
  nth_error (category_counts s) j = Some (cj, nj) ->
  nj <= ni.
Proof.
  intros Hij Hi Hj.
  pose proof (nth_error_precedes (category_counts s) i j (ci, ni) (cj, nj) Hij Hi Hj) as Hp.
  apply (sort_desc_descending _ (ci, ni) (cj, nj) Hp).
Qed.

(* ===================================================================== *)
(** ** The pool of tokens *)
(* ===================================================================== *)

Lemma str_accessor_ok_text_or_nan (vals : list scalar) :
  Forall (fun x => is_str x = true \/ x = NaN) vals ->
  str_accessor_ok (mkSeries object vals) = true.
Proof.
  unfold str_accessor_ok. simpl.
  induction 1 as [|x l Hx Hl IH]; simpl; [reflexivity|].
  destruct Hx as [Hx | ->].
  - rewrite Hx. reflexivity.
  - simpl. exact IH.
Qed.

Lemma explode_text_or_nan (lists : list (option (list pystr))) :
  Forall (fun x => is_str x = true \/ x = NaN) (values (explode lists)).
Proof.
  unfold explode. simpl. induction lists as [|o lists IH]; simpl; [constructor|].
  apply Forall_app. split; [|exact IH].
  destruct o as [[|p ps]|].
  - constructor; [right; reflexivity | constructor].
  - apply Forall_forall. intros x Hx.
    change (In x (map Str (p :: ps))) in Hx. apply in_map_iff in Hx.
    destruct Hx as (t & <- & _). left. reflexivity.
  - constructor; [right; reflexivity | constructor].
Qed.

Lemma explode_accessor_ok (lists : list (option (list pystr))) :
  str_accessor_ok (explode lists) = true.
Proof.
  change (explode lists) with (mkSeries object (values (explode lists))).
  apply str_accessor_ok_text_or_nan, explode_text_or_nan.
Qed.

(** What the pieces of one cell contribute to the pool. *)
Lemma pieces_tokens (pieces : list pystr) :
  filter notna
    (map (replace_scalar [([], NA)])
       (map (fun x => scalar_of_option (str_elem strip x)) (map Str pieces)))
  = map Str (filter (fun t => negb (pystr_eqb t [])) (map strip pieces)).
Proof.
  induction pieces as [|p pieces IH]; simpl; [reflexivity|].
  destruct (pystr_eqb (strip p) []) eqn:E; simpl; rewrite IH; reflexivity.
Qed.

Lemma exploded_values (vals : list scalar) :
  filter notna
    (map (replace_scalar [([], NA)])
       (map (fun x => scalar_of_option (str_elem strip x))
          (flat_map (fun o => match o with
                              | Some (p :: ps) => map Str (p :: ps)
                              | Some [] | None => [NaN]
                              end)
             (map (str_elem (split_on SEMICOLON)) (filter notna vals)))))
  = map Str (spec_token_pool vals).
Proof.
  induction vals as [|x vals IH]; [reflexivity|].
  destruct x as [c | n | |]; simpl in *; try exact IH.
  rewrite !map_app, filter_app, IH. f_equal.
  unfold spec_tokens. destruct (split_on SEMICOLON c) as [|p ps]; [reflexivity|].
  apply (pieces_tokens (p :: ps)).
Qed.

(** Lines 163-170: the [.str] accessor accepts the column or raises, and
    when it accepts, the pool is the one the specification describes. *)
Lemma exploded_tokens_spec (s : Series) :
  exploded_tokens s =
  if str_accessor_ok (dropna s)
  then Ok (mkSeries object (map Str (spec_token_pool (values s))))
  else Raise AttributeError.
Proof.
  unfold exploded_tokens, str_split.
  destruct (str_accessor_ok (dropna s)); [|reflexivity].
  simpl. unfold str_strip, str_method.
  rewrite explode_accessor_ok.
  simpl. unfold dropna, replace_values. simpl.
  change (py "") with (@nil N). rewrite exploded_values. reflexivity.
Qed.

Lemma filter_notna_Str (l : list pystr) : filter notna (map Str l) = map Str l.
Proof. induction l as [|t l IH]; simpl; [reflexivity|]. rewrite IH. reflexivity. Qed.

Lemma In_map_Str (t : pystr) (l : list pystr) : In (Str t) (map Str l) <-> In t l.
Proof.
  rewrite in_map_iff. split.
  - intros (y & E & H). injection E as ->. exact H.
  - intros H. exists t. auto.
Qed.

(* ===================================================================== *)
(** ** C5: the multi-valued aggregate *)
(* ===================================================================== *)

(** C5.  On a column the [.str] accessor accepts, the pool of
    [multivalue_chart] is the pool of the specification (each non-missing
    cell split on [";"], the pieces trimmed, the empty ones discarded, all
    rows pooled), the chart shows its counts table, and the table gives
    each token of the pool with its number of occurrences.  On the five
    cells of the example the table is YouTube 3, Instagram 2, TikTok 1 and
    the summary is ["YouTube (3)"]. *)
Theorem multivalue_aggregation :
  (forall s : Series,
     str_accessor_ok (dropna s) = true ->
     let pool := spec_token_pool (values s) in
     exploded_tokens s = Ok (mkSeries object (map Str pool))
     /\ (forall title,
           multivalue_chart s title
           = Ok (match pool with
                 | [] => st_info title
                 | _ :: _ => st_altair_chart (value_counts (mkSeries object (map Str pool))) title
                 end))
     /\ (forall k n,
           In (k, n) (value_counts (mkSeries object (map Str pool)))
           <-> (exists t, k = Str t /\ In t pool) /\ n = count k (map Str pool)))
  /\ multivalue_chart media_column (py "Media Platforms Used")
     = Ok (st_altair_chart
             [(Str (py "YouTube"), 3); (Str (py "Instagram"), 2); (Str (py "TikTok"), 1)]
             (py "Media Platforms Used"))
  /\ summarize_multivalue media_column = Ok (py "YouTube (3)").
Proof.
  split; [|split; vm_compute; reflexivity].
  intros s Hok pool.
  assert (Hex : exploded_tokens s = Ok (mkSeries object (map Str pool)))
    by (rewrite exploded_tokens_spec, Hok; reflexivity).
  split; [exact Hex|]. split.
  - intros title. unfold multivalue_chart. rewrite Hex. simpl.
    unfold empty. simpl. destruct pool; reflexivity.
  - intros k n. rewrite value_counts_In. simpl. rewrite filter_notna_Str.
    split.
    + intros [Hk ->]. split; [|reflexivity].
      apply in_map_iff in Hk. destruct Hk as (t & <- & Ht). eauto.
    + intros [(t & -> & Ht) ->]. split; [apply In_map_Str, Ht | reflexivity].
Qed.

(* ===================================================================== *)
(** ** C9: the summaries and the "N/A" sentinel *)
(* ===================================================================== *)

(** A formatted top answer ends in [")"]: it is never the sentinel. *)
Lemma format_top_not_sentinel (label : scalar) (n : nat) :
  format_top label n <> py "N/A".
Proof.
  unfold format_top. intros H.
  apply (f_equal (@rev N)) in H. rewrite !rev_app_distr in H.
  vm_compute in H. discriminate.
Qed.

(** X1.  [summarize_category]: the sentinel exactly when no value
    qualifies, otherwise a category of largest count with that count. *)
Lemma summarize_category_spec (s : Series) :
  (summarize_category s = py "N/A" <-> filter qualifies (values s) = [])
  /\ (filter qualifies (values s) <> [] ->
      exists label n,
        summarize_category s = format_top label n
        /\ In label (filter qualifies (values s))
        /\ n = count label (filter qualifies (values s))
        /\ forall x, count x (filter qualifies (values s)) <= n).
Proof.
  unfold summarize_category, category_counts.
  pose proof (value_counts_nil (qualifying s)) as Hnil.
  rewrite category_counts_values in Hnil.
  destruct (value_counts (qualifying s)) as [|[label n] rest] eqn:E.
  - split; [split; [intros _; apply Hnil; reflexivity | reflexivity]|].
    intros Hne. exfalso. apply Hne, Hnil. reflexivity.
  - split.
    + split.
      * intros H. exfalso. exact (format_top_not_sentinel label n H).
      * intros H. apply Hnil in H. discriminate.
    + intros _. exists label, n. split; [reflexivity|].
      pose proof (value_counts_top (qualifying s) label n rest E) as Htop.
      rewrite category_counts_values in Htop. exact Htop.
Qed.

(** X2.  [summarize_multivalue] on a column the [.str] accessor accepts:
    the sentinel exactly when the pool of tokens is empty, otherwise a token
    of largest count with that count.  On any other column it raises. *)
Lemma summarize_multivalue_spec (s : Series) :
  (str_accessor_ok (dropna s) = false ->
   summarize_multivalue s = Raise AttributeError)
  /\ (str_accessor_ok (dropna s) = true ->
      (summarize_multivalue s = Ok (py "N/A") <-> spec_token_pool (values s) = [])
      /\ (spec_token_pool (values s) <> [] ->
          exists t n,
            summarize_multivalue s = Ok (format_top (Str t) n)
            /\ In t (spec_token_pool (values s))
            /\ n = count (Str t) (map Str (spec_token_pool (values s)))
            /\ forall x, count x (map Str (spec_token_pool (values s))) <= n)).
Proof.
  unfold summarize_multivalue. rewrite exploded_tokens_spec.
  split; intros Hok; rewrite Hok; [reflexivity|]. simpl.
  set (pool := spec_token_pool (values s)).
  set (S := mkSeries object (map Str pool)).
  pose proof (value_counts_nil S) as Hnil. simpl in Hnil.
  rewrite filter_notna_Str in Hnil.
  destruct pool as [|t0 pool'] eqn:Ep.
  - simpl. split; [split; reflexivity|]. intros H. congruence.
  - unfold empty. simpl values at 1. cbv iota.
    destruct (value_counts S) as [|[label n] rest] eqn:E.
    + exfalso. assert (H : map Str (t0 :: pool') = []) by (apply Hnil; reflexivity).
      discriminate.
    + split.
      * split; [|discriminate].
        intros H. injection H as H. exfalso. exact (format_top_not_sentinel label n H).
      * intros _.
        pose proof (value_counts_top S label n rest E) as Htop. simpl in Htop.
        rewrite filter_notna_Str in Htop. destruct Htop as (Hin & Hn & Hmax).
        change (In label (map Str (t0 :: pool'))) in Hin.
        apply in_map_iff in Hin. destruct Hin as (t & <- & Ht).
        exists t, n. split; [reflexivity|]. split; [exact Ht|]. split; assumption.
Qed.

(** C9 at the column that is blank in the workbook.  No value of it
    qualifies; [summarize_category] answers ["N/A"], and so does
    [summarize_multivalue] on the empty object Series [main] passes for a
    column that is absent, but on the blank column [summarize_multivalue]
    and [multivalue_chart] raise [AttributeError]: the column kept the
    dtype float64 through [clean_string_series], and the [.str] accessor
    refuses it. *)
Lemma summarize_multivalue_blank_column :
  clean_string_series blank_column = Ok blank_column
  /\ filter qualifies (values blank_column) = []
  /\ spec_token_pool (values blank_column) = []
  /\ summarize_category blank_column = py "N/A"
  /\ summarize_multivalue (mkSeries object []) = Ok (py "N/A")
  /\ summarize_multivalue blank_column = Raise AttributeError
  /\ multivalue_chart blank_column (py "Media Platforms Used") = Raise AttributeError.
Proof. repeat split; vm_compute; reflexivity. Qed.

(* ===================================================================== *)
(** ** More on load_data: headers, shape, redaction *)
(* ===================================================================== *)

Lemma filter_eqb_absent (l : list pystr) (c : pystr) :
  ~ In c l -> filter (fun x => pystr_eqb x c) l = [].
Proof.
  induction l as [|x l IH]; simpl; intros H; [reflexivity|].
  destruct (pystr_eqb x c) eqn:E.
  - apply pystr_eqb_eq in E. exfalso. apply H. left. exact E.
  - apply IH. intros Hc. apply H. right. exact Hc.
Qed.

Lemma NoDup_filter_eqb (l : list pystr) (c : pystr) :
  NoDup l -> In c l -> length (filter (fun x => pystr_eqb x c) l) = 1.
Proof.
  induction 1 as [|x l Hx Hnd IH]; simpl; [contradiction|].
  intros [-> | Hc].
  - rewrite pystr_eqb_refl. simpl. rewrite filter_eqb_absent by assumption. reflexivity.
  - destruct (pystr_eqb x c) eqn:E.
    + apply pystr_eqb_eq in E. subst x. contradiction.
    + apply IH, Hc.
Qed.

Lemma NoDup_has_unique_labels (df : DataFrame) :
  NoDup (labels df) -> has_unique_labels df = true.
Proof.
  intros H. unfold has_unique_labels. apply forallb_forall. intros c Hc.
  apply Nat.eqb_eq. rewrite occurrences_labels. apply NoDup_filter_eqb; assumption.
Qed.

Lemma NoDup_occurrences (df : DataFrame) (c : pystr) :
  NoDup (labels df) -> In c (labels df) -> occurrences c df = 1.
Proof. intros H Hc. rewrite occurrences_labels. apply NoDup_filter_eqb; assumption. Qed.

Lemma occurrences_absent (df : DataFrame) (c : pystr) :
  ~ In c (labels df) -> occurrences c df = 0.
Proof.
  intros H. rewrite occurrences_labels, filter_eqb_absent by assumption. reflexivity.
Qed.

Lemma relabel_labels (raw : DataFrame) :
  labels (map_labels strip (rename_columns RENAME_MAP raw))
  = map normal_label (labels raw).
Proof. rewrite relabel_columns. unfold labels. simpl. rewrite !map_map. reflexivity. Qed.

(** X3.  [load_data] on a workbook returns when the headers, renamed and
    stripped, are pairwise distinct, and raises [AttributeError] when two
    columns end up with the same header: [df[column]] is then a DataFrame,
    which has no [dtype]. *)
Theorem load_data_header_collision (raw : DataFrame) :
  (NoDup (map normal_label (labels raw)) ->
   exists df, load_data (Workbook raw) = Ok df)
  /\ (~ NoDup (map normal_label (labels raw)) ->
      load_data (Workbook raw) = Raise AttributeError).
Proof.
  unfold load_data. rewrite normalize_spec. split; intros H.
  - rewrite NoDup_has_unique_labels by (rewrite relabel_labels; exact H).
    simpl. eauto.
  - destruct (has_unique_labels
                (map_labels strip (rename_columns RENAME_MAP raw))) eqn:Hu;
      [|reflexivity].
    exfalso. apply H. rewrite <- relabel_labels.
    apply has_unique_labels_NoDup, Hu.
Qed.

Lemma load_data_header_collision_witness :
  ~ NoDup (map normal_label [py "Start time"; py "Start Time "])
  /\ load_data (Workbook (mkFrame [0]
                   [ (py "Start time", mkSeries object [Str (py "9:00")]);
                     (py "Start Time ", mkSeries object [Str (py "9:05")]) ]))
     = Raise AttributeError.
Proof.
  assert (H : ~ NoDup (map normal_label [py "Start time"; py "Start Time "])).
  { intros Hnd. inversion Hnd as [|x l Hx _]; subst. apply Hx. left. reflexivity. }
  split; [exact H|].
  apply (proj2 (load_data_header_collision
                  (mkFrame [0]
                     [ (py "Start time", mkSeries object [Str (py "9:00")]);
                       (py "Start Time ", mkSeries object [Str (py "9:05")]) ]))).
  exact H.
Defined.

(** Lines 80-82 keep the columns whose header is not sensitive. *)
Lemma redact_columns (d : DataFrame) :
  columns (redact d)
  = filter (fun c => negb (existsb (pystr_eqb (fst c)) SENSITIVE_COLUMNS)) (columns d).
Proof.
  assert (Hdrop : forall c, In c (columns d) ->
            existsb (pystr_eqb (fst c))
              (filter (fun col => in_labels col d) SENSITIVE_COLUMNS)
            = existsb (pystr_eqb (fst c)) SENSITIVE_COLUMNS).
  { intros c Hc.
    destruct (existsb (pystr_eqb (fst c)) SENSITIVE_COLUMNS) eqn:E.
    - apply existsb_pystr_In. apply filter_In. split.
      + apply existsb_pystr_In, E.
      + apply in_labels_In. unfold labels. apply in_map. exact Hc.
    - destruct (existsb _ (filter _ SENSITIVE_COLUMNS)) eqn:E'; [|reflexivity].
      apply existsb_pystr_In in E'. apply filter_In in E'. destruct E' as [E' _].
      apply existsb_pystr_In in E'. congruence. }
  unfold redact.
  destruct (filter (fun col => in_labels col d) SENSITIVE_COLUMNS) as [|x dc] eqn:E.
  - symmetry. apply filter_fixed, Forall_forall. intros c Hc. cbv beta.
    rewrite <- (Hdrop c Hc). reflexivity.
  - unfold drop. cbn [columns]. apply filter_ext_in. intros c Hc.
    rewrite <- (Hdrop c Hc). reflexivity.
Qed.

Lemma filter_map_swap {A B : Type} (f : B -> bool) (g : A -> B) (l : list A) :
  filter f (map g l) = map g (filter (fun x => f (g x)) l).
Proof.
  induction l as [|x l IH]; simpl; [reflexivity|].
  destruct (f (g x)); simpl; rewrite IH; reflexivity.
Qed.

(** X4.  The dataset [load_data] returns has the rows of the workbook
    (same index) and, in the workbook's order, its columns whose header,
    renamed and stripped, is not sensitive, each under that header and
    cleaned once; a column of another dtype than object is the workbook's
    column itself. *)
Theorem load_data_shape (raw df : DataFrame) :
  load_data (Workbook raw) = Ok df ->
  index df = index raw
  /\ columns df
     = map (fun c => (normal_label (fst c), clean_series (snd c)))
         (filter (fun c => negb (existsb (pystr_eqb (normal_label (fst c)))
                                   SENSITIVE_COLUMNS))
            (columns raw))
  /\ (forall label s, In (label, s) (columns raw) -> dtype_of s <> object ->
        ~ In (normal_label label) SENSITIVE_COLUMNS ->
        In (normal_label label, s) (columns df)).
Proof.
  intros H. rewrite (load_data_inv raw df H).
  assert (Hcols : columns (redact (mkFrame (index raw)
                     (map (fun c => (normal_label (fst c), clean_series (snd c)))
                        (columns raw))))
                  = map (fun c => (normal_label (fst c), clean_series (snd c)))
                      (filter (fun c => negb (existsb (pystr_eqb (normal_label (fst c)))
                                                SENSITIVE_COLUMNS))
                         (columns raw))).
  { rewrite redact_columns. cbn [columns].
    exact (filter_map_swap
             (fun c : pystr * Series =>
                negb (existsb (pystr_eqb (fst c)) SENSITIVE_COLUMNS))
             (fun c : pystr * Series => (normal_label (fst c), clean_series (snd c)))
             (columns raw)). }
  split; [rewrite redact_index; reflexivity|]. split; [exact Hcols|].
  intros label s Hin Hd Hns. rewrite Hcols.
  apply in_map_iff. exists (label, s). cbn [fst snd]. split.
  - f_equal. unfold clean_series. destruct (dtype_of s); congruence.
  - apply filter_In. split; [exact Hin|]. cbn [fst].
    apply negb_true_iff.
    destruct (existsb (pystr_eqb (normal_label label)) SENSITIVE_COLUMNS) eqn:E;
      [|reflexivity].
    apply existsb_pystr_In in E. contradiction.
Qed.

Lemma load_data_shape_witness :
  load_data (Workbook survey_sheet)
  = Ok (mkFrame [0; 1; 2]
          [ (py "Sex", mkSeries object [Str (py "F"); NA; NA]);
            (py "Educational Background",
             mkSeries object [Str (py "BSc Hons"); Str (py "12"); NA]);
            (py "Score", mkSeries int64 [Int 3; Int 4; Int 5]) ])
  /\ In (normal_label (py "Score"), mkSeries int64 [Int 3; Int 4; Int 5])
       [ (py "Sex", mkSeries object [Str (py "F"); NA; NA]);
         (py "Educational Background",
          mkSeries object [Str (py "BSc Hons"); Str (py "12"); NA]);
         (py "Score", mkSeries int64 [Int 3; Int 4; Int 5]) ].
Proof.
  assert (Hload : load_data (Workbook survey_sheet)
                  = Ok (mkFrame [0; 1; 2]
                          [ (py "Sex", mkSeries object [Str (py "F"); NA; NA]);
                            (py "Educational Background",
                             mkSeries object [Str (py "BSc Hons"); Str (py "12"); NA]);
                            (py "Score", mkSeries int64 [Int 3; Int 4; Int 5]) ]))
    by (vm_compute; reflexivity).
  split; [exact Hload|].
  apply (proj2 (proj2 (load_data_shape survey_sheet _ Hload))
           (py "Score") (mkSeries int64 [Int 3; Int 4; Int 5])).
  - simpl. tauto.
  - discriminate.
  - vm_compute. intros H. repeat (destruct H as [H | H]; [discriminate|]). exact H.
Defined.

Lemma NoDup_filter {A : Type} (f : A -> bool) (l : list A) :
  NoDup l -> NoDup (filter f l).
Proof.
  induction 1 as [|x l Hx Hnd IH]; simpl; [constructor|].
  destruct (f x); [|exact IH].
  constructor; [|exact IH]. intros H. apply filter_In in H. apply Hx, H.
Qed.

Lemma load_data_labels (raw df : DataFrame) :
  load_data (Workbook raw) = Ok df ->
  NoDup (map normal_label (labels raw))
  /\ labels df
     = filter (fun l => negb (existsb (pystr_eqb l) SENSITIVE_COLUMNS))
         (map normal_label (labels raw)).
Proof.
  intros H. split.
  - unfold load_data in H. rewrite normalize_spec in H.
    destruct (has_unique_labels _) eqn:Hu; [|discriminate].
    rewrite <- relabel_labels. apply has_unique_labels_NoDup, Hu.
  - rewrite (load_data_inv raw df H). unfold labels. rewrite redact_columns.
    cbn [columns]. rewrite !filter_map_swap, !map_map. reflexivity.
Qed.

Lemma load_data_NoDup (raw df : DataFrame) :
  load_data (Workbook raw) = Ok df -> NoDup (labels df).
Proof.
  intros H. destruct (load_data_labels raw df H) as [Hnd ->].
  apply NoDup_filter, Hnd.
Qed.

(** X5.  In a dataset [load_data] returns no two columns share a header,
    so [df[label]] is a Series for every header of the dataset and raises
    [KeyError] for every other label. *)
Theorem load_data_unique_headers (raw df : DataFrame) :
  load_data (Workbook raw) = Ok df ->
  NoDup (labels df)
  /\ (forall c, In c (labels df) ->
        exists s, In (c, s) (columns df) /\ getitem df c = Ok (ItemSeries s))
  /\ (forall c, ~ In c (labels df) -> getitem df c = Raise (KeyError c)).
Proof.
  intros H. pose proof (load_data_NoDup raw df H) as Hnd.
  split; [exact Hnd|]. split.
  - intros c Hc.
    destruct (getitem_one c df (NoDup_occurrences df c Hnd Hc)) as (s & Hin & Hg & _).
    eauto.
  - intros c Hc. apply getitem_none, occurrences_absent, Hc.
Qed.

Lemma load_data_unique_headers_witness :
  load_data (Workbook sex_sheet)
  = Ok (mkFrame [0; 1] [(py "Sex", mkSeries object [Str (py "F"); NA])])
  /\ NoDup [py "Sex"].
Proof.
  assert (Hload : load_data (Workbook sex_sheet)
                  = Ok (mkFrame [0; 1] [(py "Sex", mkSeries object [Str (py "F"); NA])]))
    by (vm_compute; reflexivity).
  split; [exact Hload|].
  exact (proj1 (load_data_unique_headers sex_sheet _ Hload)).
Defined.

(* ===================================================================== *)
(** ** More on clean_string_series: shape, padding, blanks *)
(* ===================================================================== *)

(** X6.  [clean_string_series] returns on every Series, with one value
    per value of its argument and the argument's dtype; it returns a
    Series of another dtype than object as it is. *)
Theorem clean_string_series_shape (s : Series) :
  exists s',
    clean_string_series s = Ok s'
    /\ dtype_of s' = dtype_of s
    /\ length (values s') = length (values s)
    /\ (dtype_of s <> object -> s' = s).
Proof.
  exists (clean_series s). split; [apply clean_string_series_total|].
  split; [apply clean_series_dtype|]. split; [apply clean_series_length|].
  intros H. unfold clean_series. destruct (dtype_of s); congruence.
Qed.

Lemma lstrip_space_app (p s : pystr) : all_space p -> lstrip (p ++ s) = lstrip s.
Proof.
  induction 1 as [|c p Hc Hp IH]; simpl; [reflexivity|].
  rewrite Hc. exact IH.
Qed.

Lemma lstrip_all_space (p : pystr) : all_space p -> lstrip p = [].
Proof.
  intros H. rewrite <- (app_nil_r p), lstrip_space_app by assumption. reflexivity.
Qed.

Lemma lstrip_app (s q : pystr) :
  lstrip (s ++ q) = match lstrip s with
                    | [] => lstrip q
                    | _ :: _ => lstrip s ++ q
                    end.
Proof.
  induction s as [|c s IH]; simpl.
  - destruct (lstrip q); reflexivity.
  - destruct (isspace c); [exact IH | reflexivity].
Qed.

Lemma rstrip_app_space (s q : pystr) : all_space q -> rstrip (s ++ q) = rstrip s.
Proof.
  intros H. unfold rstrip. rewrite rev_app_distr, lstrip_space_app; [reflexivity|].
  apply Forall_rev, H.
Qed.

Lemma rstrip_nil : rstrip [] = [].
Proof. reflexivity. Qed.

(** White space around a text does not survive [strip]. *)
Lemma strip_padding (p s q : pystr) :
  all_space p -> all_space q -> strip (p ++ s ++ q) = strip s.
Proof.
  intros Hp Hq. unfold strip. rewrite lstrip_space_app by assumption.
  rewrite lstrip_app. destruct (lstrip s) as [|c t] eqn:E.
  - rewrite (lstrip_all_space q Hq). reflexivity.
  - apply rstrip_app_space, Hq.
Qed.

Lemma replace_char_space (old : N) (p : pystr) :
  all_space p -> all_space (replace_char old SPACE p).
Proof.
  intros H. unfold all_space, replace_char. apply Forall_map.
  apply Forall_impl with (2 := H). intros c Hc.
  destruct (N.eqb c old); [reflexivity | exact Hc].
Qed.

Lemma cleaned_text_padding (p s q : pystr) :
  all_space p -> all_space q ->
  strip (replace_char NBSP SPACE (replace_char LF SPACE (p ++ s ++ q)))
  = strip (replace_char NBSP SPACE (replace_char LF SPACE s)).
Proof.
  intros Hp Hq. unfold replace_char at 2 4. rewrite !map_app.
  unfold replace_char at 1 2. rewrite !map_app.
  apply strip_padding; apply replace_char_space, replace_char_space; assumption.
Qed.

(** Padding at either end of a text does not change what it is cleaned
    to. *)
Lemma clean_cell_padding (p s q : pystr) :
  Forall (fun c => isspace c = true) p ->
  Forall (fun c => isspace c = true) q ->
  clean_cell (Str (p ++ s ++ q)) = clean_cell (Str s).
Proof.
  intros Hp Hq. unfold clean_cell. simpl py_str.
  rewrite (cleaned_text_padding p s q Hp Hq). reflexivity.
Qed.

(** A text of white space only is cleaned to the missing value. *)
Lemma clean_cell_blank (s : pystr) :
  Forall (fun c => isspace c = true) s -> clean_cell (Str s) = NA.
Proof.
  intros H. unfold clean_cell. simpl py_str.
  rewrite <- (app_nil_r s). change (s ++ []) with (s ++ [] ++ []).
  rewrite (cleaned_text_padding s [] [] H (Forall_nil _)). reflexivity.
Qed.

Lemma clean_string_series_cells (l : list scalar) :
  clean_string_series (mkSeries object l) = Ok (mkSeries object (map clean_cell l)).
Proof. rewrite clean_string_series_total. reflexivity. Qed.

(** X7.  In a text column, two answers that differ only by white space
    (line breaks and non-breaking spaces included) at either end are cleaned
    alike: padding one cell of the column does not change what
    [clean_string_series] returns. *)
Theorem clean_string_series_padding (above below : list scalar) (p s q : pystr) :
  Forall (fun c => isspace c = true) p ->
  Forall (fun c => isspace c = true) q ->
  clean_string_series (mkSeries object (above ++ Str (p ++ s ++ q) :: below))
  = clean_string_series (mkSeries object (above ++ Str s :: below)).
Proof.
  intros Hp Hq. rewrite !clean_string_series_cells, !map_app. cbn [map].
  rewrite (clean_cell_padding p s q Hp Hq). reflexivity.
Qed.

Lemma clean_string_series_padding_witness :
  clean_string_series
    (mkSeries object [NaN; Str ([LF; SPACE] ++ py "Male" ++ [NBSP; 9%N]); Str (py "F")])
  = Ok (mkSeries object [NA; Str (py "Male"); Str (py "F")])
  /\ clean_string_series
       (mkSeries object ([NaN] ++ Str ([LF; SPACE] ++ py "Male" ++ [NBSP; 9%N])
                           :: [Str (py "F")]))
     = clean_string_series (mkSeries object ([NaN] ++ Str (py "Male") :: [Str (py "F")])).
Proof.
  split; [vm_compute; reflexivity|].
  apply clean_string_series_padding; repeat constructor.
Defined.

(** X8.  In a text column, an answer made of white space only (the empty
    text, line breaks and non-breaking spaces included) comes out of
    [clean_string_series] as the missing value [pd.NA], in its row. *)
Theorem clean_string_series_blank (above below : list scalar) (s : pystr) :
  Forall (fun c => isspace c = true) s ->
  exists cleaned,
    clean_string_series (mkSeries object (above ++ Str s :: below)) = Ok cleaned
    /\ nth_error (values cleaned) (length above) = Some NA.
Proof.
  intros H. rewrite clean_string_series_cells.
  exists (mkSeries object (map clean_cell (above ++ Str s :: below))).
  split; [reflexivity|]. cbn [values]. rewrite map_app. cbn [map].
  rewrite (clean_cell_blank s H).
  rewrite nth_error_app2 by (rewrite length_map; lia).
  rewrite length_map, Nat.sub_diag. reflexivity.
Qed.

Lemma clean_string_series_blank_witness :
  exists cleaned,
    clean_string_series
      (mkSeries object ([Str (py "F")] ++ Str [SPACE; LF; NBSP; 9%N] :: [Str (py "M")]))
    = Ok cleaned
    /\ nth_error (values cleaned) 1 = Some NA.
Proof.
  apply (clean_string_series_blank [Str (py "F")] [Str (py "M")] [SPACE; LF; NBSP; 9%N]).
  repeat constructor.
Defined.

(* ===================================================================== *)
(** ** More on apply_filters: composition, errors, order, row counts *)
(* ===================================================================== *)

Lemma filter_loop_app opts (s1 s2 : list (pystr * list pystr)) :
  forall f,
    filter_loop opts (s1 ++ s2) f
    = (d <- filter_loop opts s1 f ;; filter_loop opts s2 d).
Proof.
  induction s1 as [|[c sel] rest IH]; intros f; [reflexivity|].
  change (((c, sel) :: rest) ++ s2) with ((c, sel) :: (rest ++ s2)).
  destruct (active opts c sel) eqn:Hact.
  - rewrite !filter_loop_active by assumption.
    destruct (getitem f c) as [[s|sub]|e|]; simpl; try reflexivity.
    apply IH.
  - rewrite !filter_loop_inactive by assumption. apply IH.
Qed.

(** X9.  Filtering by two selections one after the other is filtering by
    their concatenation: the second filter runs on what the first returns,
    and an exception of the first is the exception of the whole. *)
Theorem apply_filters_compose
  (data : DataFrame) (s1 s2 options_map : list (pystr * list pystr)) :
  apply_filters data (s1 ++ s2) options_map
  = (d <- apply_filters data s1 options_map ;; apply_filters d s2 options_map).
Proof. unfold apply_filters, copy. apply filter_loop_app. Qed.

(** X10.  On data whose headers are pairwise distinct, [apply_filters]
    returns when every column it acts on is a column of the data, and
    raises [KeyError] for the first column it acts on that is not. *)
Theorem apply_filters_key_error
  (data : DataFrame) (options_map : list (pystr * list pystr)) :
  NoDup (labels data) ->
  (forall selections,
     (forall c sel, In (c, sel) selections -> active options_map c sel = true ->
                    In c (labels data)) ->
     exists out, apply_filters data selections options_map = Ok out)
  /\ (forall pre c sel post,
        (forall c' sel', In (c', sel') pre -> active options_map c' sel' = true ->
                         In c' (labels data)) ->
        active options_map c sel = true ->
        ~ In c (labels data) ->
        apply_filters data (pre ++ (c, sel) :: post) options_map = Raise (KeyError c)).
Proof.
  intros Hnd.
  assert (Htotal : forall selections,
             (forall c sel, In (c, sel) selections -> active options_map c sel = true ->
                            In c (labels data)) ->
             exists out, filter_loop options_map selections data = Ok out).
  { intros selections Hpresent.
    apply (filter_loop_total data options_map selections data eq_refl).
    intros c sel Hin Hact. apply NoDup_occurrences; [exact Hnd|].
    apply (Hpresent c sel Hin Hact). }
  split; [exact Htotal|].
  intros pre c sel post Hpre Hact Habs.
  unfold apply_filters, copy. rewrite filter_loop_app.
  destruct (Htotal pre Hpre) as [d Hd]. rewrite Hd. unfold bind at 1.
  rewrite filter_loop_active by assumption.
  destruct (filter_loop_labels options_map pre data d Hd) as [Hl _].
  rewrite getitem_none; [reflexivity|].
  apply occurrences_absent. rewrite Hl. exact Habs.
Qed.

Lemma apply_filters_key_error_witness :
  NoDup (labels age_frame)
  /\ active age_options (py "Ethnicity") [py "Akan"] = true
  /\ ~ In (py "Ethnicity") (labels age_frame)
  /\ apply_filters age_frame
       [(py "Age Range", [py "18-24"]); (py "Ethnicity", [py "Akan"])] age_options
     = Raise (KeyError (py "Ethnicity")).
Proof.
  assert (Hnd : NoDup (labels age_frame)).
  { repeat constructor; simpl; intros H;
      repeat (destruct H as [H | H]; [discriminate|]); exact H. }
  assert (Habs : ~ In (py "Ethnicity") (labels age_frame)).
  { simpl. intros H. repeat (destruct H as [H | H]; [discriminate|]). exact H. }
  split; [exact Hnd|]. split; [reflexivity|]. split; [exact Habs|].
  apply (proj2 (apply_filters_key_error age_frame age_options Hnd)
           [(py "Age Range", [py "18-24"])] (py "Ethnicity") [py "Akan"] []).
  - intros c' sel' [E | []] _. injection E as <- <-. simpl. left. reflexivity.
  - reflexivity.
  - exact Habs.
Defined.

Lemma andmask_comm (a b : list bool) : andmask a b = andmask b a.
Proof.
  revert b. induction a as [|x a IH]; intros [|y b]; simpl; try reflexivity.
  rewrite IH, andb_comm. reflexivity.
Qed.

Lemma andmask_idem (a : list bool) : andmask a a = a.
Proof.
  induction a as [|x a IH]; simpl; [reflexivity|].
  rewrite IH, andb_diag. reflexivity.
Qed.

Lemma keep_mask_perm (data : DataFrame) opts (s1 s2 : list (pystr * list pystr)) :
  Permutation s1 s2 -> keep_mask opts s1 data = keep_mask opts s2 data.
Proof.
  induction 1 as [| [c sel] l l' Hp IH | [c1 sel1] [c2 sel2] l | l l' l'' H1 IH1 H2 IH2].
  - reflexivity.
  - simpl. rewrite IH. reflexivity.
  - simpl. destruct (active opts c1 sel1), (active opts c2 sel2); try reflexivity.
    rewrite <- !andmask_assoc. f_equal. apply andmask_comm.
  - congruence.
Qed.

(** X11.  On data whose columns have one value per row, the order in
    which the selections are listed does not matter, as long as each column
    acted on names one column of the data. *)
Theorem apply_filters_order_irrelevant
  (data : DataFrame) (s1 s2 options_map : list (pystr * list pystr)) :
  wf_frame data ->
  (forall c sel, In (c, sel) s1 -> active options_map c sel = true ->
     occurrences c data = 1) ->
  Permutation s1 s2 ->
  apply_filters data s1 options_map = apply_filters data s2 options_map.
Proof.
  intros Hwf Hocc Hp.
  assert (Hocc2 : forall c sel, In (c, sel) s2 -> active options_map c sel = true ->
                    occurrences c data = 1).
  { intros c sel Hin. apply Hocc. apply Permutation_in with (l := s2);
      [apply Permutation_sym, Hp | exact Hin]. }
  rewrite (proj1 (apply_filters_mask data s1 options_map Hwf Hocc)).
  rewrite (proj1 (apply_filters_mask data s2 options_map Hwf Hocc2)).
  rewrite (keep_mask_perm data options_map s1 s2 Hp). reflexivity.
Qed.

Lemma apply_filters_order_irrelevant_witness :
  apply_filters age_frame
    [(py "Age Range", [py "25-34"]); (py "Sex", [py "M"])] age_options
  = apply_filters age_frame
      [(py "Sex", [py "M"]); (py "Age Range", [py "25-34"])] age_options
  /\ apply_filters age_frame
       [(py "Sex", [py "M"]); (py "Age Range", [py "25-34"])] age_options
     = Ok (select_rows [false; true; false; false; true] age_frame).
Proof.
  split; [|reflexivity].
  apply apply_filters_order_irrelevant.
  - exact wf_age_frame.
  - intros c sel [E | [E | []]] _; injection E as <- <-; reflexivity.
  - apply perm_swap.
Defined.

Lemma mask_filter_length {A : Type} (m : list bool) (l : list A) :
  length (mask_filter m l) <= length l.
Proof.
  revert l. induction m as [|b m IH]; intros [|x l]; simpl; try lia.
  specialize (IH l). destruct b; simpl; lia.
Qed.

Lemma filter_loop_nrows opts sels :
  forall f out, filter_loop opts sels f = Ok out -> nrows out <= nrows f.
Proof.
  induction sels as [|[c sel] rest IH]; intros f out H.
  - simpl in H. injection H as <-. lia.
  - destruct (active opts c sel) eqn:Hact.
    + rewrite filter_loop_active in H by assumption.
      destruct (getitem f c) as [[s|sub]|e|]; simpl in H; try discriminate.
      apply IH in H. unfold nrows, select_rows in *. simpl in H.
      pose proof (mask_filter_length (isin sel s) (index f)). lia.
    + rewrite filter_loop_inactive in H by assumption. apply IH, H.
Qed.

(** X12.  [apply_filters] never adds a row, and a selection extended by
    further columns never returns more rows than the selection itself. *)
Theorem apply_filters_never_adds_rows
  (data out : DataFrame) (s1 s2 options_map : list (pystr * list pystr)) :
  apply_filters data (s1 ++ s2) options_map = Ok out ->
  exists out1,
    apply_filters data s1 options_map = Ok out1
    /\ nrows out <= nrows out1
    /\ nrows out1 <= nrows data.
Proof.
  unfold apply_filters, copy. rewrite filter_loop_app. intros H.
  destruct (filter_loop options_map s1 data) as [out1|e|] eqn:H1; simpl in H;
    try discriminate.
  exists out1. split; [reflexivity|]. split.
  - apply (filter_loop_nrows options_map s2 out1 out H).
  - apply (filter_loop_nrows options_map s1 data out1 H1).
Qed.

Lemma apply_filters_never_adds_rows_witness :
  apply_filters age_frame
    ([(py "Age Range", [py "25-34"])] ++ [(py "Sex", [py "F"])]) age_options
  = Ok (select_rows [false; false; false; false; false] age_frame)
  /\ exists out1,
       apply_filters age_frame [(py "Age Range", [py "25-34"])] age_options = Ok out1
       /\ 0 <= nrows out1 /\ nrows out1 <= 5.
Proof.
  assert (H : apply_filters age_frame
                ([(py "Age Range", [py "25-34"])] ++ [(py "Sex", [py "F"])]) age_options
              = Ok (select_rows [false; false; false; false; false] age_frame))
    by reflexivity.
  split; [exact H|].
  exact (apply_filters_never_adds_rows age_frame _ _ _ age_options H).
Defined.

Lemma filter_loop_ok_occurrences opts sels :
  forall f out, filter_loop opts sels f = Ok out ->
    forall c sel, In (c, sel) sels -> active opts c sel = true -> occurrences c f = 1.
Proof.
  induction sels as [|[c0 sel0] rest IH]; intros f out H c sel Hin Hact;
    [contradiction|].
  destruct (active opts c0 sel0) eqn:Hact0.
  - rewrite filter_loop_active in H by assumption.
    destruct (getitem f c0) as [[s|sub]|e|] eqn:Hg; simpl in H; try discriminate.
    destruct Hin as [E | Hin].
    + injection E as <- <-. eapply getitem_series_occurrences; eassumption.
    + rewrite <- (occurrences_select_rows c (isin sel0 s) f).
      apply (IH _ out H c sel Hin Hact).
  - rewrite filter_loop_inactive in H by assumption.
    destruct Hin as [E | Hin].
    + injection E as <- <-. congruence.
    + apply (IH f out H c sel Hin Hact).
Qed.

(** X13.  Filtering what [apply_filters] returned, with the same
    selections and options, returns it again. *)
Theorem apply_filters_idempotent
  (data out : DataFrame) (selections options_map : list (pystr * list pystr)) :
  wf_frame data ->
  apply_filters data selections options_map = Ok out ->
  apply_filters out selections options_map = Ok out.
Proof.
  intros Hwf H. unfold apply_filters, copy in *.
  pose proof (filter_loop_ok_occurrences options_map selections data out H) as Hocc.
  rewrite <- (select_rows_all data Hwf) in H at 1.
  apply (filter_loop_mask data options_map Hwf) in H; [|apply repeat_length].
  destruct H as [Hout Hlen].
  set (K := andmask (repeat true (nrows data)) (keep_mask options_map selections data)) in *.
  destruct (filter_loop_total data options_map selections out) as [out' Hout'].
  - rewrite Hout. apply select_rows_labels.
  - exact Hocc.
  - rewrite Hout' . f_equal.
    rewrite Hout in Hout'.
    apply (filter_loop_mask data options_map Hwf) in Hout'; [|exact Hlen].
    destruct Hout' as [-> _]. rewrite Hout. f_equal.
    unfold K. rewrite andmask_assoc, andmask_idem. reflexivity.
Qed.

Lemma apply_filters_idempotent_witness :
  wf_frame age_frame
  /\ apply_filters age_frame [(py "Age Range", [py "18-24"])] age_options
     = Ok (select_rows [true; false; true; false; false] age_frame)
  /\ apply_filters (select_rows [true; false; true; false; false] age_frame)
       [(py "Age Range", [py "18-24"])] age_options
     = Ok (select_rows [true; false; true; false; false] age_frame).
Proof.
  split; [exact wf_age_frame|]. split; [reflexivity|].
  apply (apply_filters_idempotent age_frame _ _ age_options wf_age_frame).
  reflexivity.
Defined.

(* ===================================================================== *)
(** ** More on the charts *)
(* ===================================================================== *)

Lemma NoDup_unique_from (l : list scalar) :
  forall seen, NoDup (unique_from seen l).
Proof.
  induction l as [|x l IH]; intros seen; simpl; [constructor|].
  destruct (mem x seen); [apply IH|].
  constructor; [|apply IH].
  rewrite unique_from_In. simpl. tauto.
Qed.

Lemma insert_desc_perm (rank : scalar -> nat) (e : scalar * nat) (l : list (scalar * nat)) :
  Permutation (insert_desc rank e l) (e :: l).
Proof.
  induction l as [|a l IH]; simpl; [apply Permutation_refl|].
  destruct (goes_above rank e a); [apply Permutation_refl|].
  eapply Permutation_trans; [apply perm_skip, IH | apply perm_swap].
Qed.

Lemma sort_by_perm (rank : scalar -> nat) (l : list (scalar * nat)) :
  Permutation (sort_by rank l) l.
Proof.
  induction l as [|a l IH]; simpl; [constructor|].
  eapply Permutation_trans; [apply insert_desc_perm | apply perm_skip, IH].
Qed.

Lemma sort_desc_perm (l : list (scalar * nat)) : Permutation (sort_desc l) l.
Proof. apply sort_by_perm. Qed.

(** No value has two entries in a counts table. *)
Lemma value_counts_NoDup (s : Series) : NoDup (map fst (value_counts s)).
Proof.
  unfold value_counts.
  apply (Permutation_NoDup
           (l := map fst (map (fun k => (k, count k (filter notna (values s))))
                            (unique (filter notna (values s)))))).
  - apply Permutation_map, Permutation_sym, sort_desc_perm.
  - rewrite map_map. simpl. rewrite map_id. apply NoDup_unique_from.
Qed.

Lemma category_counts_In (s : Series) (k : scalar) (n : nat) :
  In (k, n) (category_counts s)
  <-> In k (filter qualifies (values s)) /\ n = count k (filter qualifies (values s)).
Proof.
  unfold category_counts. rewrite value_counts_In, category_counts_values. tauto.
Qed.

Lemma category_counts_keys (s : Series) (k : scalar) :
  In k (map fst (category_counts s)) <-> In k (filter qualifies (values s)).
Proof.
  rewrite in_map_iff. split.
  - intros [[k' n] [E H]]. simpl in E. subst k'.
    apply category_counts_In in H. tauto.
  - intros H. exists (k, count k (filter qualifies (values s))). split; [reflexivity|].
    apply category_counts_In. auto.
Qed.

Lemma category_counts_nil (s : Series) :
  category_counts s = [] <-> filter qualifies (values s) = [].
Proof.
  unfold category_counts. rewrite value_counts_nil, category_counts_values. tauto.
Qed.

(** X14.  [single_select_chart] shows the message exactly when no value of
    the column qualifies (none is left once the missing values and the empty
    text are taken out).  Otherwise it draws one bar for each distinct
    qualifying value, no value twice, and the bar of a value carries the
    number of cells holding it, which is at least one. *)
Theorem single_select_chart_bars (s : Series) (title : pystr) :
  (filter qualifies (values s) = [] -> single_select_chart s title = st_info title)
  /\ (filter qualifies (values s) <> [] ->
      exists counts,
        single_select_chart s title = st_altair_chart counts title
        /\ NoDup (map fst counts)
        /\ (forall k, In k (map fst counts) <-> In k (filter qualifies (values s)))
        /\ (forall k n, In (k, n) counts ->
              n = count k (filter qualifies (values s)) /\ 1 <= n)).
Proof.
  unfold single_select_chart. split.
  - intros H. apply category_counts_nil in H. rewrite H. reflexivity.
  - intros H. exists (category_counts s).
    split; [|split; [|split]].
    + destruct (category_counts s) eqn:E; [|reflexivity].
      apply category_counts_nil in E. contradiction.
    + apply value_counts_NoDup.
    + apply category_counts_keys.
    + intros k n Hin. apply category_counts_In in Hin. destruct Hin as [Hk ->].
      split; [reflexivity|]. apply count_pos in Hk. lia.
Qed.

Lemma percent_dividends_sum (total : nat) (l : list (scalar * nat)) :
  fold_right (fun (r : scalar * nat * (nat * nat)) acc => fst (snd r) + acc) 0
    (map (fun e => (fst e, snd e, (snd e, total))) l)
  = sum_counts l.
Proof.
  induction l as [|e l IH]; simpl; [reflexivity|]. rewrite IH. reflexivity.
Qed.

(** X15.  [single_select_pie_chart] shows the message exactly when
    [single_select_chart] does.  Otherwise its table has the rows of the
    bar chart's table, in the same order, and in every row the [Percent] is
    the row's count divided by the number of qualifying cells of the column:
    the divisor of line 142 is never zero and no dividend exceeds it. *)
Theorem single_select_pie_chart_percent (s : Series) (title : pystr) :
  (filter qualifies (values s) = [] ->
   single_select_pie_chart s title = pie_info title)
  /\ (filter qualifies (values s) <> [] ->
      exists rows,
        single_select_pie_chart s title = pie_chart rows title
        /\ single_select_chart s title = st_altair_chart (map fst rows) title
        /\ (forall k n p q, In (k, n, (p, q)) rows ->
              p = n
              /\ q = length (filter qualifies (values s))
              /\ 1 <= p <= q)
        /\ fold_right (fun r acc => fst (snd r) + acc) 0 rows
           = length (filter qualifies (values s))).
Proof.
  unfold single_select_pie_chart, single_select_chart. split.
  - intros H. apply category_counts_nil in H. rewrite H. reflexivity.
  - intros H.
    exists (map (fun e => (fst e, snd e, (snd e, sum_counts (category_counts s))))
              (category_counts s)).
    assert (Hne : category_counts s <> []).
    { intros E. apply category_counts_nil in E. contradiction. }
    split; [|split; [|split]].
    + destruct (category_counts s) eqn:E; [contradiction | reflexivity].
    + rewrite map_map.
      replace (map (fun x : scalar * nat => fst (fst x, snd x, (snd x, sum_counts (category_counts s))))
                 (category_counts s))
        with (category_counts s).
      * destruct (category_counts s) eqn:E; [contradiction | reflexivity].
      * symmetry. rewrite <- (map_id (category_counts s)) at 2.
        apply map_ext. intros [k n]. reflexivity.
    + intros k n p q Hin. apply in_map_iff in Hin.
      destruct Hin as [[k' n'] [E Hin]]. simpl in E. injection E as Ek En Ep Eq. subst k' n' p q.
      rewrite category_counts_sum.
      apply category_counts_In in Hin. destruct Hin as [Hk Hn].
      split; [reflexivity|]. split; [reflexivity|].
      rewrite Hn. split.
      * apply count_pos in Hk. lia.
      * unfold count. apply filter_length_le.
    + rewrite <- category_counts_sum. apply percent_dividends_sum.
Qed.

Lemma split_on_no_sep (sep : N) (s p : pystr) :
  In p (split_on sep s) -> ~ In sep p.
Proof.
  revert p. induction s as [|c s IH]; intros p Hin.
  - simpl in Hin. destruct Hin as [<- | []]. intros [].
  - simpl in Hin. destruct (N.eqb c sep) eqn:E.
    + destruct Hin as [<- | Hin]; [intros [] | apply IH, Hin].
    + apply N.eqb_neq in E.
      destruct (split_on sep s) as [|p0 ps] eqn:Es.
      * destruct Hin as [<- | []]. intros [H | []]. contradiction.
      * destruct Hin as [<- | Hin].
        -- intros [H | H]; [contradiction|]. apply (IH p0); [left; reflexivity | exact H].
        -- apply IH. right. exact Hin.
Qed.

Lemma strip_In (c : N) (s : pystr) : In c (strip s) -> In c s.
Proof.
  intros H.
  assert (HF : Forall (fun x => In x s) (strip s)).
  { apply strip_Forall. apply Forall_forall. auto. }
  rewrite Forall_forall in HF. apply HF, H.
Qed.

Lemma spec_tokens_In (cell t : pystr) :
  In t (spec_tokens cell) -> t <> [] /\ trimmed t /\ ~ In SEMICOLON t.
Proof.
  unfold spec_tokens. rewrite filter_In, in_map_iff.
  intros [[p [<- Hp]] Hne]. split; [|split].
  - intros E. rewrite E in Hne. discriminate.
  - apply strip_trimmed.
  - intros H. apply strip_In in H. exact (split_on_no_sep SEMICOLON cell p Hp H).
Qed.

Lemma spec_token_pool_In (vals : list scalar) (t : pystr) :
  In t (spec_token_pool vals) ->
  (exists cell, In (Str cell) vals /\ In t (spec_tokens cell)).
Proof.
  unfold spec_token_pool. rewrite in_flat_map.
  intros [[cell|n| |] [Hin Ht]]; try contradiction.
  exists cell. auto.
Qed.

(** X16.  When [multivalue_chart] draws a chart, no token has two bars,
    every bar is a token that is not empty, has no white space at either
    end and holds no [";"], it carries at least one response, and the
    responses of all bars add up to the number of tokens in the pool. *)
Theorem multivalue_chart_bars (s : Series) (title : pystr) (r : rendering) :
  multivalue_chart s title = Ok r ->
  (r = st_info title /\ spec_token_pool (values s) = [])
  \/ (exists counts,
        r = st_altair_chart counts title
        /\ NoDup (map fst counts)
        /\ sum_counts counts = length (spec_token_pool (values s))
        /\ 0 < sum_counts counts
        /\ forall k n, In (k, n) counts ->
             1 <= n
             /\ exists t, k = Str t /\ t <> [] /\ trimmed t /\ ~ In SEMICOLON t).
Proof.
  unfold multivalue_chart. rewrite exploded_tokens_spec.
  destruct (str_accessor_ok (dropna s)); [|discriminate].
  simpl. unfold empty. simpl.
  destruct (spec_token_pool (values s)) as [|t0 pool] eqn:Ep.
  - simpl. intros H. injection H as <-. left. auto.
  - change (map Str (t0 :: pool)) with (Str t0 :: map Str pool).
    cbv iota. intros H. injection H as <-. right.
    exists (value_counts (mkSeries object (map Str (t0 :: pool)))).
    split; [reflexivity|]. split; [apply value_counts_NoDup|].
    assert (Hsum : sum_counts (value_counts (mkSeries object (map Str (t0 :: pool))))
                   = length (t0 :: pool)).
    { rewrite value_counts_sum. cbn [values]. rewrite filter_notna_Str.
      apply length_map. }
    split; [exact Hsum|]. split; [rewrite Hsum; simpl; lia|].
    intros k n Hin. apply value_counts_In in Hin. cbn [values] in Hin.
    rewrite filter_notna_Str in Hin. destruct Hin as [Hk ->].
    split; [apply count_pos in Hk; lia|].
    apply in_map_iff in Hk. destruct Hk as [t [<- Ht]].
    exists t. split; [reflexivity|].
    rewrite <- Ep in Ht. apply spec_token_pool_In in Ht.
    destruct Ht as [cell [_ Ht]]. apply (spec_tokens_In cell t Ht).
Qed.

(* ===================================================================== *)
(** ** The order of texts and [sorted] *)
(* ===================================================================== *)

Lemma pystr_leb_trans (a : pystr) :
  forall b c, pystr_leb a b = true -> pystr_leb b c = true -> pystr_leb a c = true.
Proof.
  induction a as [|x a IH]; intros b c; [reflexivity|].
  destruct b as [|y b]; [discriminate|].
  destruct c as [|z c]; [intros _ H; discriminate H|].
  simpl.
  destruct (N.ltb_spec x y), (N.eqb_spec x y), (N.ltb_spec y z), (N.eqb_spec y z),
    (N.ltb_spec x z), (N.eqb_spec x z);
    intros Hab Hbc; try reflexivity; try discriminate; try lia.
  eapply IH; eassumption.
Qed.

Lemma pystr_leb_false (a : pystr) :
  forall b, pystr_leb a b = false -> pystr_leb b a = true.
Proof.
  induction a as [|x a IH]; intros b; [discriminate|].
  destruct b as [|y b]; [reflexivity|].
  simpl.
  destruct (N.ltb_spec x y), (N.eqb_spec x y), (N.ltb_spec y x), (N.eqb_spec y x);
    intros Hab; try reflexivity; try discriminate; try lia.
  apply IH, Hab.
Qed.

Lemma pystr_leb_antisym (a : pystr) :
  forall b, pystr_leb a b = true -> pystr_leb b a = true -> a = b.
Proof.
  induction a as [|x a IH]; intros [|y b]; try reflexivity; try discriminate.
  simpl.
  destruct (N.ltb_spec x y), (N.eqb_spec x y), (N.ltb_spec y x), (N.eqb_spec y x);
    intros Hab Hba; try discriminate; try lia.
  subst y. f_equal. apply IH; assumption.
Qed.

Lemma insert_sorted_perm (x : pystr) (l : list pystr) :
  Permutation (insert_sorted x l) (x :: l).
Proof.
  induction l as [|y l IH]; simpl; [apply Permutation_refl|].
  destruct (pystr_leb x y); [apply Permutation_refl|].
  eapply Permutation_trans; [apply perm_skip, IH | apply perm_swap].
Qed.

Lemma sorted_perm (l : list pystr) : Permutation (sorted l) l.
Proof.
  induction l as [|x l IH]; simpl; [constructor|].
  eapply Permutation_trans; [apply insert_sorted_perm | apply perm_skip, IH].
Qed.

Lemma insert_sorted_ascending (x : pystr) (l : list pystr) :
  StronglySorted (fun a b => pystr_leb a b = true) l ->
  StronglySorted (fun a b => pystr_leb a b = true) (insert_sorted x l).
Proof.
  induction 1 as [|y l Hs IH Hy]; simpl; [repeat constructor|].
  destruct (pystr_leb x y) eqn:E.
  - constructor; [constructor; assumption|].
    constructor; [exact E|].
    eapply Forall_impl; [|exact Hy].
    intros z Hz. exact (pystr_leb_trans x y z E Hz).
  - constructor; [exact IH|].
    apply (Permutation_Forall (Permutation_sym (insert_sorted_perm x l))).
    constructor; [apply pystr_leb_false, E | exact Hy].
Qed.

Lemma sorted_ascending (l : list pystr) :
  StronglySorted (fun a b => pystr_leb a b = true) (sorted l).
Proof.
  induction l as [|x l IH]; simpl; [constructor|].
  apply insert_sorted_ascending, IH.
Qed.

Lemma ascending_strict (l : list pystr) :
  StronglySorted (fun a b => pystr_leb a b = true) l -> NoDup l -> strictly_ascending l.
Proof.
  unfold strictly_ascending.
  induction 1 as [|x l Hs IH Hx]; intros Hnd; [constructor|].
  inversion Hnd as [|x' l' Hnin Hnd']; subst.
  constructor; [apply IH, Hnd'|].
  rewrite Forall_forall in *. intros y Hy. split; [apply Hx, Hy|].
  intros ->. contradiction.
Qed.

(* ===================================================================== *)
(** ** The sidebar *)
(* ===================================================================== *)

Lemma texts_map_Str (l : list scalar) (t : list pystr) :
  texts l = Some t -> l = map Str t.
Proof.
  revert t. induction l as [|[s|n| |] l IH]; intros t H; simpl in H; try discriminate.
  - injection H as <-. reflexivity.
  - destruct (texts l) as [t'|]; [|discriminate].
    injection H as <-. simpl. f_equal. apply IH. reflexivity.
Qed.

Lemma texts_total (l : list scalar) :
  Forall (fun x => is_str x = true) l -> exists t, texts l = Some t.
Proof.
  induction 1 as [|[s|n| |] l Hx Hl [t IH]]; simpl; try discriminate.
  - eauto.
  - rewrite IH. eauto.
Qed.

(** The options of a facet: ascending, no text twice, and the texts the
    column holds. *)
Lemma facet_options_series (s : Series) (options : list pystr) :
  facet_options (ItemSeries s) = Ok options ->
  strictly_ascending options
  /\ forall v, In v options <-> In (Str v) (values s).
Proof.
  unfold facet_options.
  destruct (texts (unique (values (dropna s)))) as [t|] eqn:Et; [|discriminate].
  intros H. injection H as <-.
  apply texts_map_Str in Et.
  assert (Hnd : NoDup t).
  { apply (NoDup_map_inv Str). rewrite <- Et. apply NoDup_unique_from. }
  split.
  - apply ascending_strict; [apply sorted_ascending|].
    apply (Permutation_NoDup (Permutation_sym (sorted_perm t)) Hnd).
  - intros v.
    assert (Hp : In v (sorted t) <-> In v t).
    { split; apply Permutation_in;
        [apply sorted_perm | apply Permutation_sym, sorted_perm]. }
    rewrite Hp, <- In_map_Str, <- Et, unique_In. cbn [dropna values].
    rewrite filter_In. simpl. tauto.
Qed.

Lemma dict_set_fresh {V : Type} (d : list (pystr * V)) (key : pystr) (value : V) :
  ~ In key (map fst d) -> dict_set d key value = d ++ [(key, value)].
Proof.
  induction d as [|[k v] d IH]; intros H; simpl; [reflexivity|].
  simpl in H. destruct (pystr_eqb k key) eqn:E.
  - apply pystr_eqb_eq in E. tauto.
  - rewrite IH by tauto. reflexivity.
Qed.

Lemma lookup_In {V : Type} (d : list (pystr * V)) (key : pystr) (value : V) :
  NoDup (map fst d) -> In (key, value) d -> lookup key d = Some value.
Proof.
  induction d as [|[k v] d IH]; intros Hnd Hin; [contradiction|].
  simpl in Hnd. inversion Hnd as [|k' l' Hnin Hnd']; subst.
  simpl. destruct Hin as [E | Hin].
  - injection E as -> ->. rewrite pystr_eqb_refl. reflexivity.
  - destruct (pystr_eqb key k) eqn:E.
    + apply pystr_eqb_eq in E. subst k. exfalso. apply Hnin.
      apply in_map_iff. exists (key, value). auto.
    + apply IH; assumption.
Qed.

Lemma sidebar_loop_cons (multiselect : widget) (data : DataFrame)
  (column : pystr) (rest : list pystr) (sel0 opts0 : list (pystr * list pystr)) :
  sidebar_loop multiselect data (column :: rest) sel0 opts0
  = if negb (in_labels column data)
    then sidebar_loop multiselect data rest sel0 opts0
    else
      it <- getitem data column ;;
      options <- facet_options it ;;
      sidebar_loop multiselect data rest
        (dict_set sel0 column (multiselect column options))
        (dict_set opts0 column options).
Proof. reflexivity. Qed.

Lemma sidebar_loop_inv (multiselect : widget) (data : DataFrame) :
  forall cols sel0 opts0 sel opts,
    NoDup cols ->
    (forall c, In c cols -> ~ In c (map fst opts0)) ->
    map fst sel0 = map fst opts0 ->
    sidebar_loop multiselect data cols sel0 opts0 = Ok (sel, opts) ->
    exists added,
      opts = opts0 ++ added
      /\ sel = sel0 ++ map (fun e => (fst e, multiselect (fst e) (snd e))) added
      /\ map fst added = filter (fun c => in_labels c data) cols
      /\ forall c o, In (c, o) added -> offered data c o.
Proof.
  induction cols as [|column rest IH]; intros sel0 opts0 sel opts Hnd Hfresh Hkeys H.
  - simpl in H. injection H as <- <-. exists []. rewrite !app_nil_r.
    repeat split; try reflexivity. intros c o [].
  - inversion Hnd as [|x l Hnin Hnd']; subst.
    rewrite sidebar_loop_cons in H. cbn [filter].
    destruct (in_labels column data) eqn:Ein; cbn [negb] in H; cbv iota in H.
    + destruct (getitem data column) as [[s|sub]|e|] eqn:Eg; unfold bind at 1 in H;
        try discriminate.
      destruct (facet_options (ItemSeries s)) as [options|e|] eqn:Ef;
        unfold bind at 1 in H; try discriminate.
      assert (Hf1 : ~ In column (map fst opts0)) by (apply Hfresh; left; reflexivity).
      assert (Hf2 : ~ In column (map fst sel0)) by (rewrite Hkeys; exact Hf1).
      rewrite (dict_set_fresh sel0 column _ Hf2) in H.
      rewrite (dict_set_fresh opts0 column _ Hf1) in H.
      apply IH in H; [|exact Hnd'| |].
      * destruct H as [added [-> [-> [Hk Hoff]]]].
        exists ((column, options) :: added).
        rewrite <- !app_assoc. simpl. repeat split; try reflexivity.
        -- rewrite Hk. reflexivity.
        -- intros c o [E | Hin]; [|apply Hoff, Hin].
           injection E as <- <-. exists s. auto.
      * intros c Hc. rewrite map_app, in_app_iff. simpl.
        intros [Hin | [<- | []]]; [|contradiction].
        apply (Hfresh c); [right; exact Hc | exact Hin].
      * rewrite !map_app, Hkeys. reflexivity.
    + apply IH in H; try assumption.
      intros c Hc. apply Hfresh. right. exact Hc.
Qed.

Lemma NoDup_FILTER_COLUMNS : NoDup FILTER_COLUMNS.
Proof.
  repeat constructor; simpl; intros H;
    repeat (destruct H as [H | H]; [discriminate|]); exact H.
Qed.

(** What [sidebar] returns when it returns. *)
Lemma sidebar_inv (multiselect : widget) (data : DataFrame)
  (sel opts : list (pystr * list pystr)) :
  sidebar multiselect data = Ok (sel, opts) ->
  sel = map (fun e => (fst e, multiselect (fst e) (snd e))) opts
  /\ map fst opts = filter (fun c => in_labels c data) FILTER_COLUMNS
  /\ NoDup (map fst opts)
  /\ forall c o, In (c, o) opts -> offered data c o.
Proof.
  intros H. unfold sidebar in H.
  apply sidebar_loop_inv in H; [|apply NoDup_FILTER_COLUMNS| |reflexivity].
  - destruct H as [added [-> [-> [Hk Hoff]]]]. simpl.
    repeat split; try assumption.
    rewrite Hk. apply NoDup_filter, NoDup_FILTER_COLUMNS.
  - intros c _ [].
Qed.

Lemma offered_column_values (data : DataFrame) (c : pystr) (o : list pystr) :
  offered data c o ->
  strictly_ascending o
  /\ (forall v, In v o <-> In (Str v) (column_values data c))
  /\ occurrences c data = 1.
Proof.
  intros [s [Hg Hf]]. apply facet_options_series in Hf. destruct Hf as [Ha Hv].
  split; [exact Ha|]. split.
  - unfold column_values. rewrite Hg. exact Hv.
  - eapply getitem_series_occurrences; eassumption.
Qed.

(** X17.  The sidebar offers a facet for each of the six filter columns
    the data has, in their order.  The options of a facet are the distinct
    texts of its column in ascending order, no text twice, and its
    selection is what the widget returns for these options. *)
Theorem sidebar_options (multiselect : widget) (data : DataFrame)
  (sel opts : list (pystr * list pystr)) :
  sidebar multiselect data = Ok (sel, opts) ->
  map fst opts = filter (fun c => in_labels c data) FILTER_COLUMNS
  /\ map fst sel = map fst opts
  /\ forall c, In c (map fst opts) ->
       exists options,
         lookup c opts = Some options
         /\ lookup c sel = Some (multiselect c options)
         /\ strictly_ascending options
         /\ forall v, In v options <-> In (Str v) (column_values data c).
Proof.
  intros H. apply sidebar_inv in H. destruct H as [Hsel [Hk [Hnd Hoff]]].
  assert (Hks : map fst sel = map fst opts).
  { rewrite Hsel, map_map. reflexivity. }
  split; [exact Hk|]. split; [exact Hks|].
  intros c Hc. apply in_map_iff in Hc. destruct Hc as [[c' o] [E Hin]].
  simpl in E. subst c'. exists o.
  destruct (offered_column_values data c o (Hoff c o Hin)) as [Ha [Hv _]].
  split; [apply lookup_In; assumption|]. split; [|split; assumption].
  apply lookup_In; [rewrite Hks; exact Hnd|].
  rewrite Hsel. apply in_map_iff. exists (c, o). auto.
Qed.

Lemma sidebar_options_witness :
  sidebar untouched age_frame = Ok (age_options, age_options)
  /\ map fst age_options = [py "Age Range"; py "Sex"]
  /\ strictly_ascending [py "18-24"; py "25-34"].
Proof.
  assert (H : sidebar untouched age_frame = Ok (age_options, age_options))
    by (vm_compute; reflexivity).
  split; [exact H|].
  destruct (sidebar_options untouched age_frame age_options age_options H)
    as [Hk [_ Hc]].
  split; [exact Hk|].
  destruct (Hc (py "Age Range")) as [o [Ho [_ [Ha _]]]].
  - left. reflexivity.
  - vm_compute in Ho. injection Ho as <-. exact Ha.
Defined.

(* ===================================================================== *)
(** ** The sidebar and apply_filters together *)
(* ===================================================================== *)

Lemma active_spec (opts : list (pystr * list pystr)) (c : pystr) (sel : list pystr) :
  active opts c sel = true <-> sel <> [] /\ set_eqb sel (dict_get opts c) = false.
Proof.
  unfold active. destruct sel as [|x sel].
  - split; [discriminate | intros [H _]; congruence].
  - rewrite negb_true_iff. split; [intros H; split; [discriminate | exact H] | tauto].
Qed.

Lemma dict_get_In (opts : list (pystr * list pystr)) (c : pystr) (o : list pystr) :
  NoDup (map fst opts) -> In (c, o) opts -> dict_get opts c = o.
Proof. intros Hnd Hin. unfold dict_get. rewrite (lookup_In opts c o Hnd Hin). reflexivity. Qed.

Lemma sidebar_selection_In (multiselect : widget) (data : DataFrame)
  (sel opts : list (pystr * list pystr)) :
  sidebar multiselect data = Ok (sel, opts) ->
  forall c chosen,
    In (c, chosen) sel <-> exists o, In (c, o) opts /\ chosen = multiselect c o.
Proof.
  intros H c chosen. apply sidebar_inv in H. destruct H as [-> _].
  rewrite in_map_iff. split.
  - intros [[c' o] [E Hin]]. simpl in E. injection E as <- <-. eauto.
  - intros [o [Hin ->]]. exists (c, o). auto.
Qed.

Lemma sidebar_occurrences (multiselect : widget) (data : DataFrame)
  (sel opts : list (pystr * list pystr)) :
  sidebar multiselect data = Ok (sel, opts) ->
  forall c chosen, In (c, chosen) sel -> occurrences c data = 1.
Proof.
  intros H c chosen Hin.
  apply (sidebar_selection_In multiselect data sel opts H) in Hin.
  destruct Hin as [o [Hin _]].
  apply sidebar_inv in H. destruct H as [_ [_ [_ Hoff]]].
  apply (offered_column_values data c o (Hoff c o Hin)).
Qed.

(** X18.  Whatever the widgets return, [apply_filters] returns on the
    selections and options of the sidebar, and it keeps the rows that hold,
    in every facet whose selection is neither empty nor all of the options,
    one of the selected texts. *)
Theorem sidebar_selection_rows (multiselect : widget) (data : DataFrame)
  (sel opts : list (pystr * list pystr)) :
  wf_frame data ->
  sidebar multiselect data = Ok (sel, opts) ->
  apply_filters data sel opts = Ok (select_rows (keep_mask opts sel data) data)
  /\ forall i, i < nrows data ->
       (nth i (keep_mask opts sel data) false = true <->
        forall c o, In (c, o) opts ->
          multiselect c o <> [] -> set_eqb (multiselect c o) o = false ->
          exists v, nth i (column_values data c) NaN = Str v /\ In v (multiselect c o)).
Proof.
  intros Hwf H.
  pose proof (sidebar_occurrences multiselect data sel opts H) as Hocc.
  destruct (apply_filters_mask data sel opts Hwf) as [Hrun Hlen].
  { intros c chosen Hin _. apply (Hocc c chosen Hin). }
  split; [exact Hrun|].
  intros i Hi. rewrite (keep_mask_row data opts sel i Hi).
  pose proof (sidebar_selection_In multiselect data sel opts H) as Hsel.
  destruct (sidebar_inv multiselect data sel opts H) as [_ [_ [Hnd _]]].
  split.
  - intros Hrow c o Hin Hne Hset. apply (Hrow c (multiselect c o)).
    + apply Hsel. eauto.
    + apply active_spec. split; [exact Hne|].
      rewrite (dict_get_In opts c o Hnd Hin). exact Hset.
  - intros Hrow c chosen Hin Hact. apply Hsel in Hin. destruct Hin as [o [Hin ->]].
    apply active_spec in Hact. destruct Hact as [Hne Hset].
    rewrite (dict_get_In opts c o Hnd Hin) in Hset. apply (Hrow c o Hin Hne Hset).
Qed.

Lemma sidebar_selection_rows_witness :
  wf_frame age_frame
  /\ sidebar (fun _ options => firstn 1 options) age_frame
     = Ok ([(py "Age Range", [py "18-24"]); (py "Sex", [py "F"])], age_options)
  /\ apply_filters age_frame
       [(py "Age Range", [py "18-24"]); (py "Sex", [py "F"])] age_options
     = Ok (select_rows
             (keep_mask age_options
                [(py "Age Range", [py "18-24"]); (py "Sex", [py "F"])] age_frame)
             age_frame)
  /\ keep_mask age_options
       [(py "Age Range", [py "18-24"]); (py "Sex", [py "F"])] age_frame
     = [true; false; false; false; false].
Proof.
  assert (H : sidebar (fun _ options => firstn 1 options) age_frame
              = Ok ([(py "Age Range", [py "18-24"]); (py "Sex", [py "F"])], age_options))
    by (vm_compute; reflexivity).
  split; [exact wf_age_frame|]. split; [exact H|]. split; [|vm_compute; reflexivity].
  exact (proj1 (sidebar_selection_rows _ age_frame _ _ wf_age_frame H)).
Defined.

(** With every facet left as it is, or emptied, nothing is filtered. *)
Lemma sidebar_all_or_none (multiselect : widget) (data : DataFrame)
  (sel opts : list (pystr * list pystr)) :
  (forall c o, multiselect c o = [] \/ set_eqb (multiselect c o) o = true) ->
  sidebar multiselect data = Ok (sel, opts) ->
  apply_filters data sel opts = Ok data.
Proof.
  intros Hw H. unfold apply_filters, copy. apply filter_loop_all_inactive.
  intros c chosen Hin.
  apply (sidebar_selection_In multiselect data sel opts H) in Hin.
  destruct Hin as [o [Hin ->]].
  destruct (sidebar_inv multiselect data sel opts H) as [_ [_ [Hnd _]]].
  destruct (active opts c (multiselect c o)) eqn:Hact; [|reflexivity].
  apply active_spec in Hact. destruct Hact as [Hne Hset].
  rewrite (dict_get_In opts c o Hnd Hin) in Hset.
  destruct (Hw c o) as [E | E]; congruence.
Qed.

(* ===================================================================== *)
(** ** Columns of a loaded dataset *)
(* ===================================================================== *)

Lemma loaded_text_cells (raw data : DataFrame) (c : pystr) (s : Series) :
  load_data (Workbook raw) = Ok data -> In (c, s) (columns data) ->
  dtype_of s = object -> text_cells s.
Proof.
  intros H Hin Hd.
  destruct (load_data_column raw data c s H Hin) as [l0 [s0 [_ [_ Es]]]].
  rewrite Es in Hd |- *. rewrite clean_series_dtype in Hd.
  unfold text_cells, clean_series. rewrite Hd. cbn [values].
  apply Forall_forall. intros x Hx. apply in_map_iff in Hx. destruct Hx as [y [<- _]].
  destruct (clean_cell_cases y) as [E | [t [E _]]]; rewrite E; simpl; auto.
Qed.

Lemma text_cells_accessor (s : Series) :
  dtype_of s = object -> text_cells s -> str_accessor_ok (dropna s) = true.
Proof.
  intros Hd Ht. unfold str_accessor_ok, dropna. cbn [dtype_of values]. rewrite Hd.
  assert (Hall : Forall (fun x => is_str x = true) (filter notna (values s))).
  { apply Forall_forall. intros x Hx. apply filter_In in Hx. destruct Hx as [Hin Hn].
    unfold text_cells in Ht. rewrite Forall_forall in Ht. apply Ht; assumption. }
  destruct (filter notna (values s)) as [|x l]; [reflexivity|].
  inversion Hall as [|x' l' Hx Hl]; subst. simpl. rewrite Hx. reflexivity.
Qed.

Lemma text_cells_options (s : Series) :
  text_cells s -> exists o, facet_options (ItemSeries s) = Ok o.
Proof.
  intros Ht. unfold facet_options.
  destruct (texts_total (unique (values (dropna s)))) as [t Et].
  - apply Forall_forall. intros x Hx. rewrite unique_In in Hx. cbn [dropna values] in Hx.
    apply filter_In in Hx. destruct Hx as [Hin Hn].
    unfold text_cells in Ht. rewrite Forall_forall in Ht. apply Ht; assumption.
  - rewrite Et. eauto.
Qed.

Lemma accessor_dtype (s : Series) :
  dtype_of s <> object -> str_accessor_ok (dropna s) = false.
Proof.
  unfold str_accessor_ok, dropna. cbn [dtype_of]. destruct (dtype_of s); congruence.
Qed.

Lemma getitem_NoDup (df : DataFrame) (c : pystr) (s : Series) :
  NoDup (labels df) -> In (c, s) (columns df) -> getitem df c = Ok (ItemSeries s).
Proof.
  intros Hnd Hin.
  assert (Hl : In c (labels df)).
  { unfold labels. apply in_map_iff. exists (c, s). auto. }
  destruct (getitem_one c df (NoDup_occurrences df c Hnd Hl)) as [s0 [_ [Hg Hu]]].
  specialize (Hu (c, s) Hin (pystr_eqb_refl c)). injection Hu as <-. exact Hg.
Qed.

Lemma getitem_absent (df : DataFrame) (c : pystr) :
  ~ In c (labels df) -> getitem df c = Raise (KeyError c).
Proof. intros H. apply getitem_none, occurrences_absent, H. Qed.

Lemma getitem_raise (df : DataFrame) (c : pystr) (e : exn) :
  getitem df c = Raise e -> e = KeyError c /\ ~ In c (labels df).
Proof.
  intros H. split.
  - unfold getitem in H.
    destruct (filter _ (columns df)) as [|[l s] [|y r]]; try discriminate.
    injection H as <-. reflexivity.
  - intros Hin. apply occurrences_pos in Hin.
    unfold getitem in H. unfold occurrences in Hin.
    destruct (filter _ (columns df)) as [|[l s] [|y r]]; try discriminate.
    simpl in Hin. lia.
Qed.

Lemma labels_column (df : DataFrame) (c : pystr) :
  In c (labels df) -> exists s, In (c, s) (columns df).
Proof.
  unfold labels. rewrite in_map_iff. intros [[c' s] [E Hin]]. simpl in E. subst c'. eauto.
Qed.

Lemma column_labels (df : DataFrame) (c : pystr) (s : Series) :
  In (c, s) (columns df) -> In c (labels df).
Proof. intros H. unfold labels. apply in_map_iff. exists (c, s). auto. Qed.

Lemma select_rows_column (m : list bool) (df : DataFrame) (c : pystr) (s' : Series) :
  In (c, s') (columns (select_rows m df))
  <-> exists s, In (c, s) (columns df)
                /\ s' = mkSeries (dtype_of s) (mask_filter m (values s)).
Proof.
  unfold select_rows. cbn [columns]. rewrite in_map_iff. split.
  - intros [[c0 s] [E Hin]]. cbn [fst snd] in E. injection E as <- <-. eauto.
  - intros [s [Hin ->]]. exists (c, s). auto.
Qed.

(* ===================================================================== *)
(** ** The summaries and charts of the page *)
(* ===================================================================== *)

Lemma summarize_multivalue_ok (s : Series) :
  str_accessor_ok (dropna s) = true -> exists r, summarize_multivalue s = Ok r.
Proof.
  intros H. unfold summarize_multivalue. rewrite exploded_tokens_spec, H.
  unfold bind at 1. unfold empty. cbn [values].
  destruct (spec_token_pool (values s)) as [|t0 pool]; [simpl; eauto|].
  change (map Str (t0 :: pool)) with (Str t0 :: map Str pool). cbv iota.
  destruct (value_counts (mkSeries object (Str t0 :: map Str pool)))
    as [|[label n] rest] eqn:E; [|eauto].
  apply value_counts_nil in E. cbn [values] in E.
  change (Str t0 :: map Str pool) with (map Str (t0 :: pool)) in E.
  rewrite filter_notna_Str in E. discriminate.
Qed.

Lemma summarize_multivalue_raise (s : Series) :
  str_accessor_ok (dropna s) = false -> summarize_multivalue s = Raise AttributeError.
Proof.
  intros H. unfold summarize_multivalue. rewrite exploded_tokens_spec, H. reflexivity.
Qed.

Lemma multivalue_chart_ok (s : Series) (title : pystr) :
  str_accessor_ok (dropna s) = true -> exists r, multivalue_chart s title = Ok r.
Proof.
  intros H. unfold multivalue_chart. rewrite exploded_tokens_spec, H.
  unfold bind at 1. destruct (empty _); eauto.
Qed.

Lemma multivalue_chart_raise (s : Series) (title : pystr) :
  str_accessor_ok (dropna s) = false -> multivalue_chart s title = Raise AttributeError.
Proof.
  intros H. unfold multivalue_chart. rewrite exploded_tokens_spec, H. reflexivity.
Qed.

Lemma metric_category_absent (f : DataFrame) (name : pystr) :
  ~ In name (labels f) -> metric_category f name = Ok (py "N/A").
Proof.
  intros H. unfold metric_category, frame_get. rewrite (getitem_absent f name H).
  reflexivity.
Qed.

Lemma metric_category_present (f : DataFrame) (name : pystr) (s : Series) :
  NoDup (labels f) -> In (name, s) (columns f) ->
  metric_category f name = Ok (summarize_category s).
Proof.
  intros Hnd Hin. unfold metric_category, frame_get.
  rewrite (getitem_NoDup f name s Hnd Hin). reflexivity.
Qed.

Lemma metric_multivalue_absent (f : DataFrame) (name : pystr) :
  ~ In name (labels f) -> metric_multivalue f name = Ok (py "N/A").
Proof.
  intros H. unfold metric_multivalue, frame_get. rewrite (getitem_absent f name H).
  reflexivity.
Qed.

Lemma metric_multivalue_present (f : DataFrame) (name : pystr) (s : Series) :
  NoDup (labels f) -> In (name, s) (columns f) ->
  metric_multivalue f name = summarize_multivalue s.
Proof.
  intros Hnd Hin. unfold metric_multivalue, frame_get.
  rewrite (getitem_NoDup f name s Hnd Hin). reflexivity.
Qed.

Lemma chart_absent (draw : Series -> pystr -> result chart) (f : DataFrame)
  (name title : pystr) :
  ~ In name (labels f) -> chart_if_present draw f name title = Ok [].
Proof.
  intros H. unfold chart_if_present.
  destruct (in_labels name f) eqn:E; [|reflexivity].
  apply in_labels_In in E. contradiction.
Qed.

Lemma chart_present (draw : Series -> pystr -> result chart) (f : DataFrame)
  (name title : pystr) (s : Series) :
  NoDup (labels f) -> In (name, s) (columns f) ->
  chart_if_present draw f name title = (c <- draw s title ;; Ok [c]).
Proof.
  intros Hnd Hin. unfold chart_if_present.
  rewrite (proj2 (in_labels_In name f) (column_labels f name s Hin)).
  rewrite (getitem_NoDup f name s Hnd Hin). reflexivity.
Qed.

Lemma In_labels_dec (f : DataFrame) (name : pystr) :
  In name (labels f) \/ ~ In name (labels f).
Proof.
  destruct (in_labels name f) eqn:E.
  - left. apply in_labels_In, E.
  - right. intros H. apply in_labels_In in H. congruence.
Qed.

Lemma metric_category_total (f : DataFrame) (name : pystr) :
  NoDup (labels f) -> exists m, metric_category f name = Ok m.
Proof.
  intros Hnd. destruct (In_labels_dec f name) as [H | H].
  - destruct (labels_column f name H) as [s Hs].
    rewrite (metric_category_present f name s Hnd Hs). eauto.
  - rewrite (metric_category_absent f name H). eauto.
Qed.

Lemma chart_bar_total (f : DataFrame) (name title : pystr) :
  NoDup (labels f) -> exists c, chart_if_present draw_bar f name title = Ok c.
Proof.
  intros Hnd. destruct (In_labels_dec f name) as [H | H].
  - destruct (labels_column f name H) as [s Hs].
    rewrite (chart_present draw_bar f name title s Hnd Hs). simpl. eauto.
  - rewrite (chart_absent draw_bar f name title H). eauto.
Qed.

Lemma chart_pie_total (f : DataFrame) (name title : pystr) :
  NoDup (labels f) -> exists c, chart_if_present draw_pie f name title = Ok c.
Proof.
  intros Hnd. destruct (In_labels_dec f name) as [H | H].
  - destruct (labels_column f name H) as [s Hs].
    rewrite (chart_present draw_pie f name title s Hnd Hs). simpl. eauto.
  - rewrite (chart_absent draw_pie f name title H). eauto.
Qed.

Lemma metric_multivalue_total (f : DataFrame) (name : pystr) :
  NoDup (labels f) -> multivalue_ready f name ->
  exists m, metric_multivalue f name = Ok m.
Proof.
  intros Hnd Hr. destruct (In_labels_dec f name) as [H | H].
  - destruct (labels_column f name H) as [s Hs].
    rewrite (metric_multivalue_present f name s Hnd Hs).
    apply summarize_multivalue_ok, Hr, Hs.
  - rewrite (metric_multivalue_absent f name H). eauto.
Qed.

Lemma chart_multivalue_total (f : DataFrame) (name title : pystr) :
  NoDup (labels f) -> multivalue_ready f name ->
  exists c, chart_if_present draw_multivalue f name title = Ok c.
Proof.
  intros Hnd Hr. destruct (In_labels_dec f name) as [H | H].
  - destruct (labels_column f name H) as [s Hs].
    rewrite (chart_present draw_multivalue f name title s Hnd Hs).
    unfold draw_multivalue.
    destruct (multivalue_chart_ok s title (Hr s Hs)) as [r Er]. rewrite Er. simpl. eauto.
  - rewrite (chart_absent draw_multivalue f name title H). eauto.
Qed.

Lemma metric_multivalue_cases (f : DataFrame) (name : pystr) :
  NoDup (labels f) ->
  (exists m, metric_multivalue f name = Ok m)
  \/ metric_multivalue f name = Raise AttributeError.
Proof.
  intros Hnd. destruct (In_labels_dec f name) as [H | H].
  - destruct (labels_column f name H) as [s Hs].
    rewrite (metric_multivalue_present f name s Hnd Hs).
    destruct (str_accessor_ok (dropna s)) eqn:E.
    + left. apply summarize_multivalue_ok, E.
    + right. apply summarize_multivalue_raise, E.
  - left. rewrite (metric_multivalue_absent f name H). eauto.
Qed.

Lemma chart_multivalue_cases (f : DataFrame) (name title : pystr) :
  NoDup (labels f) ->
  (exists c, chart_if_present draw_multivalue f name title = Ok c)
  \/ chart_if_present draw_multivalue f name title = Raise AttributeError.
Proof.
  intros Hnd. destruct (In_labels_dec f name) as [H | H].
  - destruct (labels_column f name H) as [s Hs].
    rewrite (chart_present draw_multivalue f name title s Hnd Hs).
    unfold draw_multivalue.
    destruct (str_accessor_ok (dropna s)) eqn:E.
    + left. destruct (multivalue_chart_ok s title E) as [r Er]. rewrite Er. simpl. eauto.
    + right. rewrite (multivalue_chart_raise s title E). reflexivity.
  - left. rewrite (chart_absent draw_multivalue f name title H). eauto.
Qed.

Ltac step_ok L :=
  let x := fresh "x" in
  let E := fresh "E" in
  destruct L as [x E]; rewrite E; unfold bind at 1.

Ltac page_start f Hnd :=
  unfold main_page;
  step_ok (metric_category_total f (py "Age Range") Hnd).

Ltac page_metrics f Hnd :=
  step_ok (metric_category_total f (py "Attendance Frequency") Hnd);
  step_ok (metric_category_total f (py "Attendance Mode") Hnd);
  step_ok (metric_category_total f (py "Personal Devotion Regularity") Hnd).

Ltac page_charts f Hnd :=
  step_ok (chart_bar_total f (py "Age Range") (py "Respondents by Age Range") Hnd);
  step_ok (chart_pie_total f (py "Sex") (py "Respondents by Sex") Hnd);
  step_ok (chart_bar_total f (py "Ethnicity") (py "Respondents by Ethnicity") Hnd);
  step_ok (chart_bar_total f (py "Educational Background") (py "Educational Background") Hnd);
  step_ok (chart_bar_total f (py "Career/Occupation/Industry") (py "Career / Industry") Hnd);
  step_ok (chart_pie_total f (py "Attendance Frequency") (py "Church Attendance Frequency") Hnd);
  step_ok (chart_pie_total f (py "Attendance Mode") (py "Attendance Mode") Hnd);
  step_ok (chart_bar_total f (py "Daily Media Time") (py "Daily Media Consumption") Hnd);
  step_ok (chart_bar_total f (py "Media Impact on Faith")
             (py "Perceived Media Impact on Faith") Hnd).

Lemma main_page_total (snapshot f : DataFrame) :
  NoDup (labels f) ->
  multivalue_ready f (py "Media Platforms") ->
  multivalue_ready f (py "Church Contribution") ->
  exists page, main_page snapshot f = Ok page.
Proof.
  intros Hnd H1 H2.
  page_start f Hnd.
  step_ok (metric_multivalue_total f (py "Media Platforms") Hnd H1).
  page_metrics f Hnd. page_charts f Hnd.
  step_ok (chart_multivalue_total f (py "Media Platforms") (py "Media Platforms Used") Hnd H1).
  step_ok (chart_multivalue_total f (py "Church Contribution")
             (py "Church Contribution Methods") Hnd H2).
  eauto.
Qed.

Lemma main_page_raise (snapshot f : DataFrame) (c : pystr) (s : Series) :
  NoDup (labels f) ->
  In c MULTI_VALUE_FIELDS -> In (c, s) (columns f) ->
  str_accessor_ok (dropna s) = false ->
  main_page snapshot f = Raise AttributeError.
Proof.
  intros Hnd Hc Hs Hbad.
  page_start f Hnd.
  destruct Hc as [<- | [<- | []]].
  - rewrite (metric_multivalue_present f _ s Hnd Hs),
      (summarize_multivalue_raise s Hbad). reflexivity.
  - destruct (metric_multivalue_cases f (py "Media Platforms") Hnd) as [[m Em] | Em];
      rewrite Em; [unfold bind at 1 | reflexivity].
    page_metrics f Hnd. page_charts f Hnd.
    destruct (chart_multivalue_cases f (py "Media Platforms") (py "Media Platforms Used") Hnd)
      as [[m' Em'] | Em']; rewrite Em'; [unfold bind at 1 | reflexivity].
    rewrite (chart_present draw_multivalue f _ (py "Church Contribution Methods") s Hnd Hs).
    unfold draw_multivalue. rewrite (multivalue_chart_raise s _ Hbad). reflexivity.
Qed.

Lemma raises_only_bind {A B : Type} (e0 : exn) (r : result A) (k : A -> result B) :
  raises_only e0 r -> (forall a, r = Ok a -> raises_only e0 (k a)) ->
  raises_only e0 (bind r k).
Proof.
  intros Hr Hk e. destruct r as [a|e'|]; simpl.
  - apply (Hk a eq_refl).
  - intros H. injection H as <-. apply Hr. reflexivity.
  - discriminate.
Qed.

Lemma raises_only_Ok {A : Type} (e0 : exn) (a : A) : raises_only e0 (Ok a).
Proof. intros e H. discriminate. Qed.

Lemma raises_only_Unmodelled {A : Type} (e0 : exn) : raises_only e0 (@Unmodelled A).
Proof. intros e H. discriminate. Qed.

Lemma raises_only_frame_get (f : DataFrame) (name : pystr) :
  raises_only AttributeError (frame_get f name).
Proof.
  intros e. unfold frame_get. destruct (getitem f name) as [it|e'|] eqn:Eg; try discriminate.
  apply getitem_raise in Eg. destruct Eg as [-> _]. discriminate.
Qed.

Lemma raises_only_metric_category (f : DataFrame) (name : pystr) :
  raises_only AttributeError (metric_category f name).
Proof.
  unfold metric_category. apply raises_only_bind; [apply raises_only_frame_get|].
  intros [s|sub] _; [apply raises_only_Ok | apply raises_only_Unmodelled].
Qed.

Lemma raises_only_summarize_multivalue (s : Series) :
  raises_only AttributeError (summarize_multivalue s).
Proof.
  intros e H. destruct (str_accessor_ok (dropna s)) eqn:E.
  - destruct (summarize_multivalue_ok s E) as [r Er]. congruence.
  - rewrite (summarize_multivalue_raise s E) in H. congruence.
Qed.

Lemma raises_only_metric_multivalue (f : DataFrame) (name : pystr) :
  raises_only AttributeError (metric_multivalue f name).
Proof.
  unfold metric_multivalue. apply raises_only_bind; [apply raises_only_frame_get|].
  intros [s|sub] _; [apply raises_only_summarize_multivalue | apply raises_only_Unmodelled].
Qed.

Lemma raises_only_chart (draw : Series -> pystr -> result chart) (f : DataFrame)
  (name title : pystr) :
  (forall s, raises_only AttributeError (draw s title)) ->
  raises_only AttributeError (chart_if_present draw f name title).
Proof.
  intros Hd. unfold chart_if_present.
  destruct (in_labels name f) eqn:Ein; [|apply raises_only_Ok].
  apply raises_only_bind.
  - intros e Eg. apply getitem_raise in Eg. destruct Eg as [_ Habs].
    apply in_labels_In in Ein. contradiction.
  - intros [s|sub] _; [|apply raises_only_Unmodelled].
    apply raises_only_bind; [apply Hd|]. intros c _. apply raises_only_Ok.
Qed.

Lemma raises_only_draw_bar (title : pystr) (s : Series) :
  raises_only AttributeError (draw_bar s title).
Proof. apply raises_only_Ok. Qed.

Lemma raises_only_draw_pie (title : pystr) (s : Series) :
  raises_only AttributeError (draw_pie s title).
Proof. apply raises_only_Ok. Qed.

Lemma raises_only_draw_multivalue (title : pystr) (s : Series) :
  raises_only AttributeError (draw_multivalue s title).
Proof.
  unfold draw_multivalue. apply raises_only_bind.
  - intros e H. destruct (str_accessor_ok (dropna s)) eqn:E.
    + destruct (multivalue_chart_ok s title E) as [r Er]. congruence.
    + rewrite (multivalue_chart_raise s title E) in H. congruence.
  - intros r _. apply raises_only_Ok.
Qed.

Lemma raises_only_main_page (snapshot f : DataFrame) :
  raises_only AttributeError (main_page snapshot f).
Proof.
  unfold main_page.
  repeat (apply raises_only_bind;
          [first [ apply raises_only_metric_category
                 | apply raises_only_metric_multivalue
                 | apply raises_only_chart; first [ apply raises_only_draw_bar
                                                  | apply raises_only_draw_pie
                                                  | apply raises_only_draw_multivalue ] ]
          | intros ? _ ]).
  apply raises_only_Ok.
Qed.

Lemma raises_only_load_data (raw : DataFrame) :
  raises_only AttributeError (load_data (Workbook raw)).
Proof.
  intros e. unfold load_data. rewrite normalize_spec.
  destruct (has_unique_labels _); simpl; [discriminate|].
  intros H. injection H as <-. reflexivity.
Qed.

Lemma raises_only_sidebar_loop (multiselect : widget) (data : DataFrame) :
  forall cols sel0 opts0,
    raises_only AttributeError (sidebar_loop multiselect data cols sel0 opts0).
Proof.
  induction cols as [|column rest IH]; intros sel0 opts0; [apply raises_only_Ok|].
  rewrite sidebar_loop_cons.
  destruct (in_labels column data) eqn:Ein; cbn [negb]; cbv iota; [|apply IH].
  apply raises_only_bind.
  - intros e Eg. apply getitem_raise in Eg. destruct Eg as [_ Habs].
    apply in_labels_In in Ein. contradiction.
  - intros it _. apply raises_only_bind; [|intros o _; apply IH].
    intros e. destruct it as [s|sub]; simpl.
    + destruct (texts _); discriminate.
    + intros H. injection H as <-. reflexivity.
Qed.

Lemma sidebar_apply_filters_total (multiselect : widget) (data : DataFrame)
  (sel opts : list (pystr * list pystr)) :
  sidebar multiselect data = Ok (sel, opts) ->
  exists out, apply_filters data sel opts = Ok out.
Proof.
  intros H. unfold apply_filters, copy.
  apply (filter_loop_total data opts sel data eq_refl).
  intros c chosen Hin _. apply (sidebar_occurrences multiselect data sel opts H c chosen Hin).
Qed.

Lemma main_page_inv (snapshot f : DataFrame) (page : dashboard) :
  main_page snapshot f = Ok page ->
  download page = snapshot /\ table page = f /\ responses page = nrows f.
Proof.
  unfold main_page. intros H.
  repeat match type of H with
         | bind ?c _ = Ok _ =>
             let E := fresh "E" in
             destruct c eqn:E; unfold bind at 1 in H; [|discriminate H|discriminate H]
         end.
  injection H as <-. auto.
Qed.

(** What a run of [main] that reaches its end went through. *)
Lemma main_inv (multiselect : widget) (src : source) (page : dashboard) :
  main multiselect src = Ok page ->
  exists data sel opts,
    load_data src = Ok data
    /\ sidebar multiselect data = Ok (sel, opts)
    /\ apply_filters data sel opts = Ok (table page)
    /\ download page = table page
    /\ responses page = nrows (table page).
Proof.
  unfold main. intros H.
  destruct (load_data src) as [data|e|] eqn:El; unfold bind at 1 in H; try discriminate.
  destruct (sidebar multiselect data) as [[sel opts]|e|] eqn:Es; unfold bind at 1 in H;
    try discriminate.
  cbn [fst snd] in H.
  destruct (apply_filters data sel opts) as [f|e|] eqn:Ef; unfold bind at 1 in H;
    try discriminate.
  unfold bind at 1 in H.
  apply main_page_inv in H. destruct H as [Hd [Ht Hr]].
  exists data, sel, opts. rewrite Hd, Ht, Hr. auto.
Qed.

(* ===================================================================== *)
(** ** main *)
(* ===================================================================== *)

Lemma load_data_nrows (raw data : DataFrame) :
  load_data (Workbook raw) = Ok data -> nrows data = nrows raw.
Proof.
  intros H. apply load_data_inv in H. rewrite H. unfold nrows.
  rewrite redact_index. reflexivity.
Qed.

Lemma set_eqb_refl (a : list pystr) : set_eqb a a = true.
Proof. apply set_eqb_same_set. intros x. tauto. Qed.

(** X19.  When every facet of the sidebar is left as it is, or emptied
    (on a first run each has all of its options selected), a run of [main]
    that reaches its end shows the loaded dataset unfiltered: the table and
    the download are what [load_data] returned, and the "Responses" metric
    counts the rows of the workbook. *)
Theorem main_first_run (multiselect : widget) (raw : DataFrame) (page : dashboard) :
  (forall c o, multiselect c o = [] \/ set_eqb (multiselect c o) o = true) ->
  main multiselect (Workbook raw) = Ok page ->
  load_data (Workbook raw) = Ok (table page)
  /\ download page = table page
  /\ responses page = nrows raw.
Proof.
  intros Hw H. apply main_inv in H.
  destruct H as [data [sel [opts [Hl [Hs [Hf [Hd Hr]]]]]]].
  rewrite (sidebar_all_or_none multiselect data sel opts Hw Hs) in Hf.
  injection Hf as Hf. rewrite <- Hf in *.
  split; [exact Hl|]. split; [exact Hd|].
  rewrite Hr. apply (load_data_nrows raw data Hl).
Qed.

(** X20.  [main] stops the run when the survey file is not there, and a
    run on a workbook raises nothing but [AttributeError], whatever the
    workbook holds and whatever the widgets return: no [KeyError] from a
    column that is not there, no [IndexError] from an empty counts table. *)
Theorem main_exceptions (multiselect : widget) :
  main multiselect NoFile = Raise StopException
  /\ forall raw e, main multiselect (Workbook raw) = Raise e -> e = AttributeError.
Proof.
  split; [reflexivity|].
  intros raw.
  change (raises_only AttributeError (main multiselect (Workbook raw))).
  unfold main.
  apply raises_only_bind; [apply raises_only_load_data|]. intros data _.
  apply raises_only_bind; [apply raises_only_sidebar_loop|]. intros [sel opts] Hs.
  cbn [fst snd].
  destruct (sidebar_apply_filters_total multiselect data sel opts Hs) as [out Ho].
  rewrite Ho. unfold bind at 1. unfold bind at 1.
  apply raises_only_main_page.
Qed.

Lemma sidebar_loop_total (multiselect : widget) (data : DataFrame) :
  NoDup (labels data) ->
  forall cols,
    (forall c s, In c cols -> In (c, s) (columns data) -> text_cells s) ->
    forall sel0 opts0, exists sb, sidebar_loop multiselect data cols sel0 opts0 = Ok sb.
Proof.
  intros Hnd. induction cols as [|column rest IH]; intros Ht sel0 opts0; [simpl; eauto|].
  assert (Hrest : forall c s, In c rest -> In (c, s) (columns data) -> text_cells s).
  { intros c s Hc. apply Ht. right. exact Hc. }
  rewrite sidebar_loop_cons.
  destruct (in_labels column data) eqn:Ein; cbn [negb]; cbv iota; [|apply IH, Hrest].
  apply in_labels_In in Ein. destruct (labels_column data column Ein) as [s Hs].
  rewrite (getitem_NoDup data column s Hnd Hs). unfold bind at 1.
  destruct (text_cells_options s (Ht column s (or_introl eq_refl) Hs)) as [o Eo].
  rewrite Eo. unfold bind at 1. apply IH, Hrest.
Qed.

(** X21.  On a workbook that loads and whose filter columns hold text,
    [main] reaches its end when the two multi-select columns, where the
    data has them, have the dtype object; when one of them has another
    dtype (a column that is blank in the workbook, a column of numbers)
    [main] raises [AttributeError], whatever the widgets return. *)
Theorem main_completes (multiselect : widget) (raw data : DataFrame) :
  wf_frame raw ->
  load_data (Workbook raw) = Ok data ->
  (forall c s, In c FILTER_COLUMNS -> In (c, s) (columns data) -> dtype_of s = object) ->
  ((forall c s, In c MULTI_VALUE_FIELDS -> In (c, s) (columns data) ->
      dtype_of s = object) ->
   exists page, main multiselect (Workbook raw) = Ok page)
  /\ (forall c s, In c MULTI_VALUE_FIELDS -> In (c, s) (columns data) ->
        dtype_of s <> object ->
        main multiselect (Workbook raw) = Raise AttributeError).
Proof.
  intros Hwf Hl Hfac.
  pose proof (load_data_NoDup raw data Hl) as Hnd.
  pose proof (load_data_wf raw data Hwf Hl) as Hwfd.
  destruct (sidebar_loop_total multiselect data Hnd FILTER_COLUMNS) with (sel0 := @nil (pystr * list pystr)) (opts0 := @nil (pystr * list pystr))
    as [[sel opts] Hs].
  { intros c s Hc Hin. apply (loaded_text_cells raw data c s Hl Hin (Hfac c s Hc Hin)). }
  fold (sidebar multiselect data) in Hs.
  destruct (apply_filters_mask data sel opts Hwfd) as [Hf _].
  { intros c chosen Hin _.
    apply (sidebar_occurrences multiselect data sel opts Hs c chosen Hin). }
  set (K := keep_mask opts sel data) in *.
  assert (Hndf : NoDup (labels (select_rows K data))).
  { rewrite select_rows_labels. exact Hnd. }
  assert (Hmain : main multiselect (Workbook raw)
                  = main_page (select_rows K data) (select_rows K data)).
  { unfold main. rewrite Hl. unfold bind at 1. rewrite Hs. unfold bind at 1.
    cbn [fst snd]. rewrite Hf. reflexivity. }
  rewrite Hmain. split.
  - intros Hm.
    assert (Hready : forall c, In c MULTI_VALUE_FIELDS ->
                       multivalue_ready (select_rows K data) c).
    { intros c Hc s' Hin. apply select_rows_column in Hin. destruct Hin as [s [Hin ->]].
      apply text_cells_accessor; [exact (Hm c s Hc Hin)|].
      apply mask_filter_Forall.
      apply (loaded_text_cells raw data c s Hl Hin (Hm c s Hc Hin)). }
    apply main_page_total; [exact Hndf | |]; apply Hready.
    + left. reflexivity.
    + right. left. reflexivity.
  - intros c s Hc Hin Hd.
    apply (main_page_raise _ _ c (mkSeries (dtype_of s) (mask_filter K (values s))));
      [exact Hndf | exact Hc | apply select_rows_column; eauto | apply accessor_dtype; exact Hd].
Qed.

(** X22.  For a column the filtered data does not have, the metric reads
    ["N/A"] and the chart is left out; nothing is raised. *)
Theorem absent_column_page (f : DataFrame) (name : pystr) :
  ~ In name (labels f) ->
  metric_category f name = Ok (py "N/A")
  /\ metric_multivalue f name = Ok (py "N/A")
  /\ forall draw title, chart_if_present draw f name title = Ok [].
Proof.
  intros H. split; [apply metric_category_absent, H|].
  split; [apply metric_multivalue_absent, H|].
  intros draw title. apply chart_absent, H.
Qed.

(** X23.  The table and the download of a run of [main] that reaches its
    end carry the headers of the loaded dataset, in its order, so none of
    the sensitive columns, and no more rows than the workbook has. *)
Theorem main_table_headers (multiselect : widget) (raw : DataFrame) (page : dashboard) :
  main multiselect (Workbook raw) = Ok page ->
  download page = table page
  /\ labels (table page)
     = filter (fun l => negb (existsb (pystr_eqb l) SENSITIVE_COLUMNS))
         (map normal_label (labels raw))
  /\ (forall c, In c SENSITIVE_COLUMNS -> ~ In c (labels (table page)))
  /\ responses page = nrows (table page)
  /\ responses page <= nrows raw.
Proof.
  intros H. apply main_inv in H.
  destruct H as [data [sel [opts [Hl [Hs [Hf [Hd Hr]]]]]]].
  unfold apply_filters, copy in Hf.
  destruct (filter_loop_labels opts sel data (table page) Hf) as [Hlab _].
  pose proof (filter_loop_nrows opts sel data (table page) Hf) as Hrows.
  split; [exact Hd|]. split; [|split; [|split]].
  - rewrite Hlab. apply (load_data_labels raw data Hl).
  - intros c Hc. rewrite Hlab. rewrite (load_data_inv raw data Hl).
    apply redact_no_sensitive, Hc.
  - exact Hr.
  - rewrite Hr. rewrite <- (load_data_nrows raw data Hl). exact Hrows.
Qed.

(* ===================================================================== *)
(** ** The summaries on the example columns *)
(* ===================================================================== *)

(* ===================================================================== *)
(** ** The example workbooks *)
(* ===================================================================== *)

Lemma wf_survey_sheet : wf_frame survey_sheet.
Proof. solve_wf_frame. Qed.

Lemma wf_small_workbook : wf_frame small_workbook.
Proof. solve_wf_frame. Qed.

Lemma wf_blank_workbook : wf_frame blank_workbook.
Proof. solve_wf_frame. Qed.

Lemma small_data_text (c : pystr) (s : Series) :
  In (c, s) (columns small_data) -> dtype_of s = object.
Proof.
  intros Hin. simpl in Hin.
  destruct Hin as [E | [E | [E | []]]]; injection E as _ <-; reflexivity.
Qed.

Lemma blank_data_facets (c : pystr) (s : Series) :
  In c FILTER_COLUMNS -> In (c, s) (columns blank_data) -> dtype_of s = object.
Proof.
  intros Hc Hin. simpl in Hin.
  destruct Hin as [E | [E | []]]; injection E as <- <-; [reflexivity|].
  exfalso. simpl in Hc.
  repeat (destruct Hc as [Hc | Hc]; [discriminate Hc|]). exact Hc.
Qed.

(* ===================================================================== *)
(** ** Every order of equal counts *)
(* ===================================================================== *)

Lemma insert_desc_at (rank : scalar -> nat) (e : scalar * nat) (l1 l2 : list (scalar * nat)) :
  (forall x, In x l1 -> goes_above rank e x = false) ->
  (forall y, In y l2 -> goes_above rank e y = true) ->
  insert_desc rank e (l1 ++ l2) = l1 ++ e :: l2.
Proof.
  intros H1 H2. induction l1 as [|a l1 IH]; simpl.
  - destruct l2 as [|y l2]; [reflexivity|]. simpl.
    rewrite (H2 y (or_introl eq_refl)). reflexivity.
  - rewrite (H1 a (or_introl eq_refl)). f_equal. apply IH.
    intros x Hx. apply H1. right. exact Hx.
Qed.

Lemma precedes_app_l {A : Type} (x e : A) (l1 l2 : list A) :
  In x l1 -> precedes x e (l1 ++ e :: l2).
Proof.
  intros H. apply in_split in H. destruct H as (a & b & ->).
  exists a, b, l2. rewrite <- app_assoc. reflexivity.
Qed.

Lemma precedes_app_r {A : Type} (e y : A) (l1 l2 : list A) :
  In y l2 -> precedes e y (l1 ++ e :: l2).
Proof.
  intros H. apply in_split in H. destruct H as (a & b & ->).
  exists l1, a, b. reflexivity.
Qed.

Lemma precedes_insert {A : Type} (x y e : A) (l1 l2 : list A) :
  precedes x y (l1 ++ l2) -> precedes x y (l1 ++ e :: l2).
Proof.
  induction l1 as [|a l1 IH]; simpl; intros Hp.
  - apply precedes_cons, Hp.
  - apply precedes_cons_inv in Hp. destruct Hp as [[-> Hy] | Hp].
    + apply precedes_head. apply in_app_or in Hy. apply in_or_app.
      destruct Hy as [Hy | Hy]; [left; exact Hy | right; right; exact Hy].
    + apply precedes_cons, IH, Hp.
Qed.

(** A table arranged as the rank wants it is what the sort returns for
    each of its permutations. *)
Lemma sort_by_arranged (rank : scalar -> nat) :
  forall l l',
    Permutation l l' ->
    (forall x y, precedes x y l' ->
       goes_above rank x y = true /\ goes_above rank y x = false) ->
    sort_by rank l = l'.
Proof.
  induction l as [|e l IH]; intros l' Hp Hs.
  - apply Permutation_nil in Hp. subst l'. reflexivity.
  - assert (Hin : In e l') by (apply (Permutation_in e Hp); left; reflexivity).
    apply in_split in Hin. destruct Hin as (l1 & l2 & ->).
    apply Permutation_cons_app_inv in Hp.
    simpl. rewrite (IH (l1 ++ l2) Hp).
    + apply insert_desc_at.
      * intros x Hx. apply (Hs x e). apply precedes_app_l, Hx.
      * intros y Hy. apply (Hs e y). apply precedes_app_r, Hy.
    + intros x y Hxy. apply Hs. apply precedes_insert, Hxy.
Qed.

Lemma first_index_at (k : scalar) (pre post : list scalar) :
  ~ In k pre -> first_index k (pre ++ k :: post) = length pre.
Proof.
  induction pre as [|a pre IH]; simpl; intros H.
  - rewrite scalar_eqb_refl. reflexivity.
  - assert (E : scalar_eqb k a = false) by (apply scalar_eqb_neq; intros ->; tauto).
    rewrite E. f_equal. apply IH. tauto.
Qed.

Lemma arranged_by_position (l : list (scalar * nat)) :
  NoDup (map fst l) -> descending l ->
  forall x y, precedes x y l ->
    goes_above (fun k => first_index k (map fst l)) x y = true
    /\ goes_above (fun k => first_index k (map fst l)) y x = false.
Proof.
  intros Hnd Hd x y Hp. pose proof (Hd x y Hp) as Hc.
  destruct Hp as (l1 & l2 & l3 & E). rewrite E in Hnd |- *.
  assert (Ex : first_index (fst x) (map fst (l1 ++ x :: l2 ++ y :: l3))
               = length (map fst l1)).
  { rewrite map_app. cbn [map]. apply first_index_at.
    rewrite map_app in Hnd. cbn [map] in Hnd.
    apply NoDup_remove_2 in Hnd. intros Hin. apply Hnd, in_or_app. left. exact Hin. }
  assert (Ey : first_index (fst y) (map fst (l1 ++ x :: l2 ++ y :: l3))
               = length (map fst (l1 ++ x :: l2))).
  { replace (l1 ++ x :: l2 ++ y :: l3) with ((l1 ++ x :: l2) ++ y :: l3) in Hnd |- *
      by (rewrite <- app_assoc; reflexivity).
    rewrite map_app. cbn [map]. apply first_index_at.
    rewrite map_app in Hnd. cbn [map] in Hnd.
    apply NoDup_remove_2 in Hnd. intros Hin. apply Hnd, in_or_app. left. exact Hin. }
  unfold goes_above. cbv beta. rewrite Ex, Ey.
  rewrite map_app, length_app. cbn [map length].
  rewrite orb_true_iff, andb_true_iff, orb_false_iff, andb_false_iff,
    Nat.ltb_lt, Nat.eqb_eq, Nat.leb_le, Nat.ltb_ge, Nat.eqb_neq, Nat.leb_gt.
  lia.
Qed.

(** Every arrangement of a table by descending count is what the sort
    returns for some rank: nothing is assumed about the order of entries
    of equal count. *)
Lemma sort_by_any (l l' : list (scalar * nat)) :
  NoDup (map fst l) -> Permutation l l' -> descending l' ->
  sort_by (fun k => first_index k (map fst l')) l = l'.
Proof.
  intros Hnd Hp Hd. apply sort_by_arranged; [exact Hp|].
  apply arranged_by_position; [|exact Hd].
  apply (Permutation_NoDup (Permutation_map fst Hp) Hnd).
Qed.

End Ties.

(* ===================================================================== *)
(** ** The order of equal counts is open *)
(* ===================================================================== *)

(** Every table that holds the entries of the counts in descending order
    of count is the counts table for some way of ordering equal counts. *)
Lemma value_counts_any_order (s : Series) (t : list (scalar * nat)) :
  Permutation (value_counts ties_in_order s) t -> descending t ->
  exists tie_rank, value_counts tie_rank s = t.
Proof.
  intros Hp Hd. exists (fun _ k => first_index k (map fst t)).
  unfold value_counts, sort_desc in *.
  apply sort_by_any; [| |exact Hd].
  - rewrite map_map. simpl. rewrite map_id. apply NoDup_unique_from.
  - eapply Permutation_trans; [|exact Hp].
    apply Permutation_sym, sort_by_perm.
Qed.

(* ===================================================================== *)
(** ** The facts about the counts at given columns *)
(* ===================================================================== *)

(** What follows applies the facts of the section at example columns and
    workbooks, for a sort that leaves entries of equal count as
    [ties_reversed] has them. *)

Lemma multivalue_aggregation_witness :
  str_accessor_ok (dropna media_column) = true
  /\ spec_token_pool (values media_column)
     = [py "Instagram"; py "YouTube"; py "YouTube"; py "Instagram"; py "TikTok"; py "YouTube"]
  /\ exploded_tokens media_column
     = Ok (mkSeries object (map Str (spec_token_pool (values media_column)))).
Proof.
  split; [reflexivity|]. split; [vm_compute; reflexivity|].
  destruct (proj1 (multivalue_aggregation ties_reversed) media_column eq_refl) as [H _].
  exact H.
Defined.

Lemma single_valued_counts_conserved_witness :
  wf_frame survey_sheet
  /\ (exists data filtered s,
        load_data (Workbook survey_sheet) = Ok data
        /\ apply_filters data [(py "Sex", [])] [] = Ok filtered
        /\ getitem filtered (py "Educational Background") = Ok (ItemSeries s)
        /\ values s = [Str (py "BSc Hons"); Str (py "12"); NA]
        /\ sum_counts (category_counts ties_reversed s) = length (values (dropna s))).
Proof.
  split; [exact wf_survey_sheet|].
  eexists. eexists. eexists.
  assert (Hload : load_data (Workbook survey_sheet)
                  = Ok (mkFrame [0; 1; 2]
                          [ (py "Sex", mkSeries object [Str (py "F"); NA; NA]);
                            (py "Educational Background",
                             mkSeries object [Str (py "BSc Hons"); Str (py "12"); NA]);
                            (py "Score", mkSeries int64 [Int 3; Int 4; Int 5]) ]))
    by (vm_compute; reflexivity).
  split; [exact Hload|].
  split; [reflexivity|].
  split; [reflexivity|].
  split; [reflexivity|].
  apply (single_valued_counts_conserved ties_reversed survey_sheet _ _ [(py "Sex", [])] []
           (py "Educational Background") _ wf_survey_sheet Hload eq_refl eq_refl).
Defined.

Lemma category_counts_order_witness :
  category_counts ties_reversed tied_column
  = [(Str (py "d"), 2); (Str (py "c"), 2); (Str (py "b"), 1); (Str (py "a"), 1)]
  /\ 2 <= 2
  /\ 1 <= 2.
Proof.
  split; [vm_compute; reflexivity|].
  split.
  - apply (category_counts_order ties_reversed tied_column
             0 1 (Str (py "d")) (Str (py "c")) 2 2); [lia | reflexivity | reflexivity].
  - apply (category_counts_order ties_reversed tied_column
             1 2 (Str (py "c")) (Str (py "b")) 2 1); [lia | reflexivity | reflexivity].
Defined.

(** C8, the order of equal counts.  It is not the order in which the
    categories are first seen: in the column a, b, c, d, c, d the
    categories c and d both count 2 and c is seen first, and a sort that
    leaves the ties as [ties_reversed] has them shows d above c (the table
    reads d, c, b, a); a stable sort shows c, d, a, b.  The source asks
    [sort_values] for neither. *)
Lemma category_counts_ties_not_first_seen :
  nth_error (category_counts ties_reversed tied_column) 0 = Some (Str (py "d"), 2)
  /\ nth_error (category_counts ties_reversed tied_column) 1 = Some (Str (py "c"), 2)
  /\ first_index (Str (py "c")) (values tied_column)
     < first_index (Str (py "d")) (values tied_column)
  /\ category_counts ties_in_order tied_column
     = [(Str (py "c"), 2); (Str (py "d"), 2); (Str (py "a"), 1); (Str (py "b"), 1)].
Proof.
  split; [vm_compute; reflexivity|]. split; [vm_compute; reflexivity|].
  split; [vm_compute; lia|]. vm_compute. reflexivity.
Qed.

Lemma summarize_category_spec_witness :
  filter qualifies (values sex_column) <> []
  /\ summarize_category ties_reversed sex_column = py "F (1)"
  /\ exists label n,
       summarize_category ties_reversed sex_column = format_top label n
       /\ n = count label (filter qualifies (values sex_column)).
Proof.
  assert (H : filter qualifies (values sex_column) <> []) by (vm_compute; discriminate).
  split; [exact H|]. split; [vm_compute; reflexivity|].
  destruct (proj2 (summarize_category_spec ties_reversed sex_column) H)
    as [label [n [H1 [_ [H2 _]]]]].
  exists label, n. split; assumption.
Defined.

Lemma summarize_multivalue_spec_witness :
  str_accessor_ok (dropna media_column) = true
  /\ spec_token_pool (values media_column) <> []
  /\ summarize_multivalue ties_reversed media_column = Ok (py "YouTube (3)")
  /\ exists t n,
       summarize_multivalue ties_reversed media_column = Ok (format_top (Str t) n)
       /\ In t (spec_token_pool (values media_column)).
Proof.
  assert (H1 : str_accessor_ok (dropna media_column) = true) by reflexivity.
  assert (H2 : spec_token_pool (values media_column) <> []) by (vm_compute; discriminate).
  split; [exact H1|]. split; [exact H2|]. split; [vm_compute; reflexivity|].
  destruct (proj2 (proj2 (summarize_multivalue_spec ties_reversed media_column) H1) H2)
    as [t [n [E [Hin _]]]].
  exists t, n. split; assumption.
Defined.

Lemma single_select_chart_bars_witness :
  filter qualifies (values (mkSeries object [Str (py "F"); NA; Str (py ""); Str (py "M"); Str (py "F")]))
  <> []
  /\ single_select_chart ties_reversed
       (mkSeries object [Str (py "F"); NA; Str (py ""); Str (py "M"); Str (py "F")])
       (py "Respondents by Sex")
     = st_altair_chart [(Str (py "F"), 2); (Str (py "M"), 1)] (py "Respondents by Sex")
  /\ exists counts,
       single_select_chart ties_reversed
         (mkSeries object [Str (py "F"); NA; Str (py ""); Str (py "M"); Str (py "F")])
         (py "Respondents by Sex")
       = st_altair_chart counts (py "Respondents by Sex")
       /\ NoDup (map fst counts).
Proof.
  assert (H : filter qualifies
                (values (mkSeries object
                           [Str (py "F"); NA; Str (py ""); Str (py "M"); Str (py "F")]))
              <> []) by (vm_compute; discriminate).
  split; [exact H|]. split; [vm_compute; reflexivity|].
  destruct (proj2 (single_select_chart_bars ties_reversed
                     (mkSeries object
                        [Str (py "F"); NA; Str (py ""); Str (py "M"); Str (py "F")])
                     (py "Respondents by Sex")) H) as [counts [H1 [H2 _]]].
  exists counts. split; assumption.
Defined.

Lemma single_select_pie_chart_percent_witness :
  filter qualifies (values (mkSeries object [Str (py "F"); NA; Str (py ""); Str (py "M"); Str (py "F")]))
  <> []
  /\ single_select_pie_chart ties_reversed
       (mkSeries object [Str (py "F"); NA; Str (py ""); Str (py "M"); Str (py "F")])
       (py "Respondents by Sex")
     = pie_chart [(Str (py "F"), 2, (2, 3)); (Str (py "M"), 1, (1, 3))]
         (py "Respondents by Sex")
  /\ exists rows,
       single_select_pie_chart ties_reversed
         (mkSeries object [Str (py "F"); NA; Str (py ""); Str (py "M"); Str (py "F")])
         (py "Respondents by Sex")
       = pie_chart rows (py "Respondents by Sex")
       /\ fold_right (fun r acc => fst (snd r) + acc) 0 rows = 3.
Proof.
  assert (H : filter qualifies
                (values (mkSeries object
                           [Str (py "F"); NA; Str (py ""); Str (py "M"); Str (py "F")]))
              <> []) by (vm_compute; discriminate).
  split; [exact H|]. split; [vm_compute; reflexivity|].
  destruct (proj2 (single_select_pie_chart_percent ties_reversed
                     (mkSeries object
                        [Str (py "F"); NA; Str (py ""); Str (py "M"); Str (py "F")])
                     (py "Respondents by Sex")) H) as [rows [H1 [_ [_ H2]]]].
  exists rows. split; [exact H1 | exact H2].
Defined.

Lemma multivalue_chart_bars_witness :
  multivalue_chart ties_reversed media_column (py "Media Platforms Used")
  = Ok (st_altair_chart
          [(Str (py "YouTube"), 3); (Str (py "Instagram"), 2); (Str (py "TikTok"), 1)]
          (py "Media Platforms Used"))
  /\ exists counts,
       st_altair_chart
         [(Str (py "YouTube"), 3); (Str (py "Instagram"), 2); (Str (py "TikTok"), 1)]
         (py "Media Platforms Used")
       = st_altair_chart counts (py "Media Platforms Used")
       /\ sum_counts counts = 6.
Proof.
  assert (H : multivalue_chart ties_reversed media_column (py "Media Platforms Used")
              = Ok (st_altair_chart
                      [(Str (py "YouTube"), 3); (Str (py "Instagram"), 2);
                       (Str (py "TikTok"), 1)]
                      (py "Media Platforms Used"))) by (vm_compute; reflexivity).
  split; [exact H|].
  destruct (multivalue_chart_bars ties_reversed media_column (py "Media Platforms Used") _ H)
    as [[E _] | [counts [E [_ [Hs _]]]]]; [discriminate|].
  exists counts. split; [exact E|]. rewrite Hs. reflexivity.
Defined.

Lemma main_first_run_witness :
  exists page,
    main ties_reversed untouched (Workbook small_workbook) = Ok page
    /\ load_data (Workbook small_workbook) = Ok (table page)
    /\ responses page = 3.
Proof.
  destruct (main ties_reversed untouched (Workbook small_workbook)) as [page|e|] eqn:E;
    [|vm_compute in E; discriminate E|vm_compute in E; discriminate E].
  exists page. split; [reflexivity|].
  destruct (main_first_run ties_reversed untouched small_workbook page) as [Hl [_ Hr]].
  - intros c o. right. apply set_eqb_refl.
  - exact E.
  - split; [exact Hl | exact Hr].
Defined.

Lemma main_exceptions_witness :
  main ties_reversed untouched (Workbook blank_workbook) = Raise AttributeError
  /\ AttributeError = AttributeError.
Proof.
  assert (H : main ties_reversed untouched (Workbook blank_workbook) = Raise AttributeError)
    by (vm_compute; reflexivity).
  split; [exact H|].
  exact (proj2 (main_exceptions ties_reversed untouched) blank_workbook AttributeError H).
Defined.

Lemma main_completes_witness :
  (exists page, main ties_reversed untouched (Workbook small_workbook) = Ok page)
  /\ main ties_reversed untouched (Workbook blank_workbook) = Raise AttributeError.
Proof.
  split.
  - apply (proj1 (main_completes ties_reversed untouched small_workbook small_data
                    wf_small_workbook eq_refl
                    (fun c s _ Hin => small_data_text c s Hin))).
    intros c s _ Hin. apply (small_data_text c s Hin).
  - apply (proj2 (main_completes ties_reversed untouched blank_workbook blank_data
                    wf_blank_workbook eq_refl blank_data_facets)
             (py "Media Platforms") blank_column).
    + left. reflexivity.
    + right. left. reflexivity.
    + discriminate.
Defined.

Lemma absent_column_page_witness :
  ~ In (py "Attendance Mode") (labels age_frame)
  /\ metric_category ties_reversed age_frame (py "Attendance Mode") = Ok (py "N/A")
  /\ metric_multivalue ties_reversed age_frame (py "Attendance Mode") = Ok (py "N/A").
Proof.
  assert (H : ~ In (py "Attendance Mode") (labels age_frame)).
  { simpl. intros H. repeat (destruct H as [H | H]; [discriminate|]). exact H. }
  split; [exact H|].
  destruct (absent_column_page ties_reversed age_frame (py "Attendance Mode") H)
    as [H1 [H2 _]].
  split; assumption.
Defined.

Lemma main_table_headers_witness :
  exists page,
    main ties_reversed (fun _ options => firstn 1 options) (Workbook small_workbook)
    = Ok page
    /\ labels (table page) = [py "Sex"; py "Age Range"; py "Media Platforms"]
    /\ responses page <= 3.
Proof.
  destruct (main ties_reversed (fun _ options => firstn 1 options)
              (Workbook small_workbook))
    as [page|e|] eqn:E;
    [|vm_compute in E; discriminate E|vm_compute in E; discriminate E].
  exists page. split; [reflexivity|].
  destruct (main_table_headers ties_reversed _ small_workbook page E)
    as [_ [Hl [_ [_ Hr]]]].
  split; [|exact Hr].
  rewrite Hl. vm_compute. reflexivity.
Defined.
